(** * binlogfile2sql_util: the binlog file reader

    A shallow embedding of [BinLogFileReader] from
    [src/binlogfile2sql_util.py] and the properties of its event loop,
    its allowed-event computation and its metadata lookup.

    Python integers are [Z]; [None]-able attributes are [option]; byte
    strings are [list byte]; the [dict] keyed by table id is a [gmap Z];
    the [set] of event classes is a [gset].  Exceptions are values of
    [exn] carried by [result]; the attributes of [self] live in the
    record [reader] and are passed explicitly. *)

From Stdlib Require Import ZArith Lia Sorted.
From Stdlib.Strings Require Import Byte.
From stdpp Require Import gmap strings list fin_maps sorting.

Local Open Scope Z_scope.

(** ** Event classes *)

(** The classes imported from [pymysqlreplication] at lines 15-21. *)
Inductive event_class :=
| QueryEvent | RotateEvent | StopEvent | FormatDescriptionEvent
| XidEvent | GtidEvent | BeginLoadQueryEvent | ExecuteLoadQueryEvent
| UpdateRowsEvent | WriteRowsEvent | DeleteRowsEvent | TableMapEvent
| HeartbeatLogEvent | NotImplementedEvent.

#[global] Instance event_class_eq_dec : EqDecision event_class.
Proof. solve_decision. Defined.

Definition event_class_code (c : event_class) : positive :=
  match c with
  | QueryEvent => 1 | RotateEvent => 2 | StopEvent => 3
  | FormatDescriptionEvent => 4 | XidEvent => 5 | GtidEvent => 6
  | BeginLoadQueryEvent => 7 | ExecuteLoadQueryEvent => 8
  | UpdateRowsEvent => 9 | WriteRowsEvent => 10 | DeleteRowsEvent => 11
  | TableMapEvent => 12 | HeartbeatLogEvent => 13 | NotImplementedEvent => 14
  end%positive.

Definition event_class_of_code (p : positive) : event_class :=
  match p with
  | 1 => QueryEvent | 2 => RotateEvent | 3 => StopEvent
  | 4 => FormatDescriptionEvent | 5 => XidEvent | 6 => GtidEvent
  | 7 => BeginLoadQueryEvent | 8 => ExecuteLoadQueryEvent
  | 9 => UpdateRowsEvent | 10 => WriteRowsEvent | 11 => DeleteRowsEvent
  | 12 => TableMapEvent | 13 => HeartbeatLogEvent | _ => NotImplementedEvent
  end%positive.

#[global] Instance event_class_countable : Countable event_class.
Proof.
  apply (inj_countable' event_class_code event_class_of_code).
  intros []; reflexivity.
Defined.

(** ** Exceptions and results *)

Inductive exn :=
| BadMagicBytesError (magic : list byte)
| EventSizeTooSmallError
| KeyError (e : event_class)
| TypeError
| AttributeError
| ValueError
| StructError                                (* struct.error *)
| OSError
| OperationalError (code : Z) (message : string)  (* pymysql.OperationalError *)
| LibraryError (name : string).              (* any other exception of a library *)

Inductive result (A : Type) :=
| Ok (a : A)
| Raise (e : exn).
Arguments Ok {A} a.
Arguments Raise {A} e.

(** ** [_allowed_event_list] (lines 256-285) *)

(** The default of line 261: the fourteen classes. *)
Definition default_events : gset event_class :=
  list_to_set
    [QueryEvent; RotateEvent; StopEvent; FormatDescriptionEvent; XidEvent;
     GtidEvent; BeginLoadQueryEvent; ExecuteLoadQueryEvent; UpdateRowsEvent;
     WriteRowsEvent; DeleteRowsEvent; TableMapEvent; HeartbeatLogEvent;
     NotImplementedEvent].

(** [set.remove]: raises [KeyError] when the element is absent. *)
Definition set_remove (e : event_class) (events : gset event_class)
  : result (gset event_class) :=
  if decide (e ∈ events) then Ok (events ∖ {[e]}) else Raise (KeyError e).

(** Lines 278-279: [for e in ignored_events: events.remove(e)]. *)
Fixpoint remove_each (ignored : list event_class) (events : gset event_class)
  : result (gset event_class) :=
  match ignored with
  | [] => Ok events
  | e :: rest =>
      match set_remove e events with
      | Ok events' => remove_each rest events'
      | Raise x => Raise x
      end
  end.

(** Lines 280-284: the removal of [NotImplementedEvent] under
    [try ... except KeyError: pass]; any other exception would propagate. *)
Definition remove_not_implemented (events : gset event_class)
  : result (gset event_class) :=
  match set_remove NotImplementedEvent events with
  | Ok events' => Ok events'
  | Raise (KeyError _) => Ok events
  | Raise x => Raise x
  end.

(** Lines 258-276: the set the removals start from. *)
Definition selected_events (only_events : option (list event_class))
  : gset event_class :=
  match only_events with
  | Some l => list_to_set l
  | None => default_events
  end.

Definition _allowed_event_list (only_events ignored_events : option (list event_class))
    (filter_non_implemented_events : bool) : result (gset event_class) :=
  let events := selected_events only_events in
  match (match ignored_events with
         | Some ign => remove_each ign events
         | None => Ok events
         end) with
  | Raise x => Raise x
  | Ok events =>
      if filter_non_implemented_events
      then remove_not_implemented events
      else Ok events
  end.

(** ** Bytes, [struct.unpack] and file reads *)

(** Little-endian unsigned integer of a byte string. *)
Fixpoint le_uint (bs : list byte) : Z :=
  match bs with
  | [] => 0
  | b :: rest => Z.of_N (Byte.to_N b) + 256 * le_uint rest
  end.

(** The common header, as [struct.unpack('<IcIIIH', header)] of line 170
    returns it: 4 + 1 + 4 + 4 + 4 + 2 = 19 bytes. *)
Record header := {
  h_timestamp : Z;
  h_event_type : Z;
  h_server_id : Z;
  h_event_size : Z;
  h_log_pos : Z;
  h_flags : Z;
}.

(** [struct.unpack] raises [struct.error] unless the buffer has exactly
    the size of the format. *)
Definition unpack_header (bs : list byte) : result header :=
  if decide (length bs = 19%nat) then
    Ok {| h_timestamp := le_uint (take 4 bs);
          h_event_type := le_uint (take 1 (drop 4 bs));
          h_server_id := le_uint (take 4 (drop 5 bs));
          h_event_size := le_uint (take 4 (drop 9 bs));
          h_log_pos := le_uint (take 4 (drop 13 bs));
          h_flags := le_uint (take 2 (drop 17 bs)) |}
  else Raise StructError.

(** [f.read(n)] on a buffered binary file whose unread bytes are [bs]:
    the bytes read and the bytes left.  [n = -1] reads to the end of the
    file; a size below [-1] raises [ValueError]; a read past the end
    returns what is there. *)
Definition file_read (n : Z) (bs : list byte) : result (list byte * list byte) :=
  if decide (n < -1) then Raise ValueError
  else if decide (n = -1) then Ok (bs, [])
  else Ok (take (Z.to_nat n) bs, drop (Z.to_nat n) bs).

(** [_expected_magic = b'\xfebin'] (line 47). *)
Definition _expected_magic : list byte := [xfe; x62; x69; x6e].

(** ** Python values held by dictionaries of the MySQL client *)

Inductive pyval :=
| PyNone
| PyInt (z : Z)
| PyStr (s : string)
| PyObj (name : string).

#[global] Instance pyval_eq_dec : EqDecision pyval.
Proof. solve_decision. Defined.

#[global] Instance byte_eq_dec : EqDecision byte := Byte.byte_eq_dec.

(** Truth value of an attribute that holds [None] or an integer. *)
Definition truthy (o : option Z) : bool :=
  match o with
  | None => false
  | Some z => negb (z =? 0)
  end.

(** [MYSQL_EXPECTED_ERROR_CODES] (line 35). *)
Definition MYSQL_EXPECTED_ERROR_CODES : list Z := [2013; 2006].

(** [TABLE_MAP_EVENT] and [ROTATE_EVENT] of
    [pymysqlreplication.constants.BINLOG] (line 14): the type codes of the
    MySQL binary log format. *)
Definition TABLE_MAP_EVENT : Z := 19.
Definition ROTATE_EVENT : Z := 4.

(** ** The metadata connection *)

(** The two statements the reader sends (lines 128 and 295-318). *)
Inductive query :=
| ShowBinlogChecksum
| SelectColumns (schema table : string) (exclude_virtual : bool).

Abbreviation row := (gmap string pyval).
Abbreviation settings := (gmap string pyval).

Section Reader.

(** What the code takes from outside: the MySQL server and network
    ([World]), the client's connection objects ([Conn]), the [Table]
    objects and event payloads of [pymysqlreplication], the file system
    and the packet decoder. *)
Context {World Conn Table Payload : Type}.

(** [pymysql.connect], called with the settings as keyword arguments. *)
Variable pymysql_wrapper : settings → World → World * result Conn.
(** [cursor()], [execute(sql)] and the fetch of the rows, as one call. *)
Variable execute : Conn → query → World → World * result (list row).
(** The bytes of the file at a path, if there is one. *)
Variable fs : string → option (list byte).

(** The attributes of [self] on the metadata side. *)
Record ctl := {
  connected_ctl : bool;
  _ctl_connection : option Conn;
  _ctl_connection_settings : option settings;
  world : World;
}.

Definition set_world (w : World) (c : ctl) : ctl :=
  {| connected_ctl := connected_ctl c;
     _ctl_connection := _ctl_connection c;
     _ctl_connection_settings := _ctl_connection_settings c;
     world := w |}.

Definition set_connected_ctl (b : bool) (c : ctl) : ctl :=
  {| connected_ctl := b;
     _ctl_connection := _ctl_connection c;
     _ctl_connection_settings := _ctl_connection_settings c;
     world := world c |}.

(** A dictionary is true when it is not empty. *)
Definition settings_given (c : ctl) : bool :=
  match _ctl_connection_settings c with
  | None => false
  | Some s => negb (bool_decide (s = ∅))
  end.

(** [__connect_to_ctl] (lines 114-119). *)
Definition connect_to_ctl (c : ctl) : ctl * result unit :=
  match _ctl_connection_settings c with
  | None => (c, Raise TypeError)
  | Some s =>
      let s' := <["cursorclass" := PyObj "DictCursor"]>
                  (<["db" := PyStr "information_schema"]> s) in
      match pymysql_wrapper s' (world c) with
      | (w, Raise x) =>
          ({| connected_ctl := connected_ctl c;
              _ctl_connection := _ctl_connection c;
              _ctl_connection_settings := Some s';
              world := w |}, Raise x)
      | (w, Ok conn) =>
          ({| connected_ctl := true;
              _ctl_connection := Some conn;
              _ctl_connection_settings := Some s';
              world := w |}, Ok tt)
      end
  end.

(** [if not self.__connected_ctl and self._ctl_connection_settings:
    self.__connect_to_ctl()] (lines 124-125 and 160-161). *)
Definition connect_if_needed (c : ctl) : ctl * result unit :=
  if negb (connected_ctl c) && settings_given c
  then connect_to_ctl c
  else (c, Ok tt).

(** A statement on [self._ctl_connection]; [None] has no [cursor]. *)
Definition run_query (q : query) (c : ctl) : ctl * result (list row) :=
  match _ctl_connection c with
  | None => (c, Raise AttributeError)
  | Some conn =>
      let '(w, r) := execute conn q (world c) in (set_world w c, r)
  end.

(** [__checksum_enabled] (lines 121-138): every exception gives [False]. *)
Definition checksum_enabled (c : ctl) : ctl * bool :=
  match connect_if_needed c with
  | (c1, Raise _) => (c1, false)
  | (c1, Ok _) =>
      match run_query ShowBinlogChecksum c1 with
      | (c2, Raise _) => (c2, false)
      | (c2, Ok rows) =>
          match head rows with
          | None => (c2, false)
          | Some _result =>
              let value := default (PyStr "NONE") (_result !! "Value") in
              (c2, negb (bool_decide (value = PyStr "NONE")))
          end
      end
  end.

(** The body of the [try] of lines 290-321. *)
Definition table_information_attempt (ignore_virtual_columns : bool)
    (schema table : string) (c : ctl) : ctl * result (list row) :=
  match (if negb (connected_ctl c) then connect_to_ctl c else (c, Ok tt)) with
  | (c1, Raise x) => (c1, Raise x)
  | (c1, Ok _) =>
      run_query (SelectColumns schema table ignore_virtual_columns) c1
  end.

(** [for i in range(1, 3)] with the handler of lines 322-328; [attempts]
    is the number of values of [i] still to come.  When the loop runs
    out the function ends without a [return]: the caller gets [None]. *)
Fixpoint table_information_loop (attempts : nat) (ignore_virtual_columns : bool)
    (schema table : string) (c : ctl) : ctl * result (option (list row)) :=
  match attempts with
  | O => (c, Ok None)
  | S attempts' =>
      match table_information_attempt ignore_virtual_columns schema table c with
      | (c1, Ok rows) => (c1, Ok (Some rows))
      | (c1, Raise (OperationalError code message)) =>
          if bool_decide (code ∈ MYSQL_EXPECTED_ERROR_CODES)
          then table_information_loop attempts' ignore_virtual_columns
                 schema table (set_connected_ctl false c1)
          else (c1, Raise (OperationalError code message))
      | (c1, Raise x) => (c1, Raise x)
      end
  end.

(** [__get_table_information] (lines 287-328). *)
Definition __get_table_information (ignore_virtual_columns : bool)
    (schema table : string) (c : ctl) : ctl * result (option (list row)) :=
  table_information_loop 2 ignore_virtual_columns schema table c.

(** ** The reader *)

(** An event object: what the loop reads of it.  [Rotate] has the
    attributes [position] and [next_binlog], [TableMap] has [table_id]
    and the table [get_table()] returns; an object of another class has
    neither. *)
Inductive event :=
| Rotate (position : Z) (next_binlog : string)
| TableMap (table_id : Z) (table : Table)
| Other (cls : event_class) (payload : Payload).

(** [event.__class__]. *)
Definition class_of (e : event) : event_class :=
  match e with
  | Rotate _ _ => RotateEvent
  | TableMap _ _ => TableMapEvent
  | Other cls _ => cls
  end.

(** The [BinLogPacketWrapper] object [binlog_event], as far as
    [fetchone] reads it. *)
Record packet := {
  pkt_timestamp : Z;
  pkt_event_type : Z;
  pkt_log_pos : Z;
  pkt_event : option event;
}.

(** The constructor [BinLogPacketWrapper] of [pymysqlreplication], in the
    order of its arguments at lines 184-193.  It reads [table_map] and
    does not write it; the connection it is given can call back
    [__get_table_information], so it runs on the metadata side [ctl]. *)
Variable BinLogPacketWrapper :
  list byte → gmap Z Table → bool → gset event_class →
  option (list string) → option (list string) →
  option (list string) → option (list string) →
  bool → bool → ctl → ctl * result packet.

(** The attributes of [self] that the modelled methods read or write. *)
Record reader := {
  _file : option (list byte);   (* [None]: not opened; else the unread bytes *)
  _file_path : string;
  _pos : option Z;
  metadata : ctl;
  only_tables : option (list string);
  ignored_tables : option (list string);
  only_schemas : option (list string);
  ignored_schemas : option (list string);
  freeze_schema : bool;
  allowed_events : gset event_class;
  fail_on_table_metadata_unavailable : bool;
  allowed_events_in_packet : gset event_class;
  table_map : gmap Z Table;
  log_pos : option Z;
  start_pos : option Z;
  stop_pos : option Z;
  log_file : option string;
  skip_to_timestamp : option Z;
  ignore_virtual_columns : bool;
  use_checksum : bool;
}.

(** The writes to the attributes that change after construction. *)
Record mutable := {
  m_file : option (list byte);
  m_pos : option Z;
  m_metadata : ctl;
  m_table_map : gmap Z Table;
  m_log_pos : option Z;
  m_log_file : option string;
}.

Definition mutable_of (st : reader) : mutable :=
  {| m_file := _file st; m_pos := _pos st; m_metadata := metadata st;
     m_table_map := table_map st; m_log_pos := log_pos st;
     m_log_file := log_file st |}.

Definition with_mutable (st : reader) (m : mutable) : reader :=
  {| _file := m_file m;
     _file_path := _file_path st;
     _pos := m_pos m;
     metadata := m_metadata m;
     only_tables := only_tables st;
     ignored_tables := ignored_tables st;
     only_schemas := only_schemas st;
     ignored_schemas := ignored_schemas st;
     freeze_schema := freeze_schema st;
     allowed_events := allowed_events st;
     fail_on_table_metadata_unavailable := fail_on_table_metadata_unavailable st;
     allowed_events_in_packet := allowed_events_in_packet st;
     table_map := m_table_map m;
     log_pos := m_log_pos m;
     start_pos := start_pos st;
     stop_pos := stop_pos st;
     log_file := m_log_file m;
     skip_to_timestamp := skip_to_timestamp st;
     ignore_virtual_columns := ignore_virtual_columns st;
     use_checksum := use_checksum st |}.

Definition set_file (f : option (list byte)) (st : reader) : reader :=
  with_mutable st
    {| m_file := f; m_pos := _pos st; m_metadata := metadata st;
       m_table_map := table_map st; m_log_pos := log_pos st;
       m_log_file := log_file st |}.

Definition set_pos (p : option Z) (st : reader) : reader :=
  with_mutable st
    {| m_file := _file st; m_pos := p; m_metadata := metadata st;
       m_table_map := table_map st; m_log_pos := log_pos st;
       m_log_file := log_file st |}.

Definition set_metadata (c : ctl) (st : reader) : reader :=
  with_mutable st
    {| m_file := _file st; m_pos := _pos st; m_metadata := c;
       m_table_map := table_map st; m_log_pos := log_pos st;
       m_log_file := log_file st |}.

Definition set_table_map (tm : gmap Z Table) (st : reader) : reader :=
  with_mutable st
    {| m_file := _file st; m_pos := _pos st; m_metadata := metadata st;
       m_table_map := tm; m_log_pos := log_pos st;
       m_log_file := log_file st |}.

Definition set_log_pos (p : option Z) (st : reader) : reader :=
  with_mutable st
    {| m_file := _file st; m_pos := _pos st; m_metadata := metadata st;
       m_table_map := table_map st; m_log_pos := p;
       m_log_file := log_file st |}.

Definition set_log_file (f : option string) (st : reader) : reader :=
  with_mutable st
    {| m_file := _file st; m_pos := _pos st; m_metadata := metadata st;
       m_table_map := table_map st; m_log_pos := log_pos st;
       m_log_file := f |}.

(** [__connect_to_stream] (lines 140-153). *)
Definition connect_to_stream (st : reader) : reader * result unit :=
  match (match _file st with
         | None =>
             match fs (_file_path st) with
             | None => (st, Raise OSError)
             | Some content => (set_pos (Some 0) (set_file (Some content) st), Ok tt)
             end
         | Some _ => (st, Ok tt)
         end) with
  | (st1, Raise x) => (st1, Raise x)
  | (st1, Ok _) =>
      if bool_decide (_pos st1 = Some 0) then
        match _file st1 with
        | None => (st1, Raise AttributeError)
        | Some bs =>
            let magic := take 4 bs in
            let st2 := set_file (Some (drop 4 bs)) st1 in
            if bool_decide (magic = _expected_magic)
            then (set_pos (Some (0 + Z.of_nat (length magic))) st2, Ok tt)
            else (st2, Raise (BadMagicBytesError magic))
        end
      else (st1, Ok tt)
  end.

(** Lines 163-182 on the unread bytes [bs]: the header, its fields and
    the body.  Gives the bytes left unread and the packet, which starts
    with the byte [b'0']; [None] is the [break] of line 168. *)
Definition read_frame (bs : list byte)
  : list byte * result (option (header * list byte)) :=
  match file_read 19 bs with
  | Raise x => (bs, Raise x)
  | Ok (hd, rest) =>
      if bool_decide (hd = []) then (rest, Ok None)
      else
        match unpack_header hd with
        | Raise x => (rest, Raise x)
        | Ok h =>
            match file_read (h_event_size h - 19) rest with
            | Raise x => (rest, Raise x)
            | Ok (body, rest') => (rest', Ok (Some (h, x30 :: hd ++ body)))
            end
        end
  end.

(** Lines 157-193: one pass of the loop up to the decoded packet.
    [None] is the end of the file. *)
Definition read_binlog_event (st : reader) : reader * result (option packet) :=
  match (if bool_decide (_file st = None) then connect_to_stream st
         else (st, Ok tt)) with
  | (st1, Raise x) => (st1, Raise x)
  | (st1, Ok _) =>
      match connect_if_needed (metadata st1) with
      | (c, Raise x) => (set_metadata c st1, Raise x)
      | (c, Ok _) =>
          let st2 := set_metadata c st1 in
          match _file st2 with
          | None => (st2, Raise AttributeError)
          | Some bs =>
              match read_frame bs with
              | (rest, Raise x) => (set_file (Some rest) st2, Raise x)
              | (rest, Ok None) => (set_file (Some rest) st2, Ok None)
              | (rest, Ok (Some (h, pkt))) =>
                  let st3 := set_file (Some rest) st2 in
                  match BinLogPacketWrapper pkt (table_map st3)
                          (use_checksum st3) (allowed_events_in_packet st3)
                          (only_tables st3) (ignored_tables st3)
                          (only_schemas st3) (ignored_schemas st3)
                          (freeze_schema st3)
                          (fail_on_table_metadata_unavailable st3)
                          (metadata st3) with
                  | (c', Raise x) => (set_metadata c' st3, Raise x)
                  | (c', Ok binlog_event) =>
                      (set_metadata c' st3, Ok (Some binlog_event))
                  end
              end
          end
      end
  end.

(** How one pass of the loop ends. *)
Inductive outcome :=
| Continue (st : reader)               (* [continue] *)
| Break (st : reader)                  (* [break]: [fetchone] returns [None] *)
| Return (st : reader) (e : event)     (* [return binlog_event.event] *)
| Fail (st : reader) (x : exn).

(** Lines 201-215. *)
Definition track_position (st : reader) (binlog_event : packet) (ev : event)
  : result reader :=
  if bool_decide (pkt_event_type binlog_event = ROTATE_EVENT) then
    match ev with
    | Rotate position next_binlog =>
        Ok (set_table_map ∅
              (set_log_file (Some next_binlog)
                 (set_log_pos (Some position) st)))
    | _ => Raise AttributeError
    end
  else if negb (pkt_log_pos binlog_event =? 0) then
    Ok (set_log_pos (Some (pkt_log_pos binlog_event)) st)
  else Ok st.

(** Lines 244-247. *)
Definition register_table (st : reader) (binlog_event : packet) (ev : event)
  : result reader :=
  if bool_decide (pkt_event_type binlog_event = TABLE_MAP_EVENT) then
    match ev with
    | TableMap table_id table =>
        Ok (set_table_map (<[table_id := table]> (table_map st)) st)
    | _ => Raise AttributeError
    end
  else Ok st.

(** Line 195, the comparison [binlog_event.log_pos < self.start_pos]:
    with a [start_pos] of [None] it raises [TypeError]. *)
Definition log_pos_before_start (st : reader) (binlog_event : packet)
  : result bool :=
  match start_pos st with
  | None => Raise TypeError
  | Some start => Ok (pkt_log_pos binlog_event <? start)
  end.

(** Line 198: [self.stop_pos and binlog_event.log_pos >= self.stop_pos]. *)
Definition reached_stop_pos (st : reader) (binlog_event : packet) : bool :=
  truthy (stop_pos st)
  && (default 0 (stop_pos st) <=? pkt_log_pos binlog_event).

(** Line 241: [self.skip_to_timestamp and binlog_event.timestamp <
    self.skip_to_timestamp]. *)
Definition before_skip_to_timestamp (st : reader) (binlog_event : packet)
  : bool :=
  truthy (skip_to_timestamp st)
  && (pkt_timestamp binlog_event <? default 0 (skip_to_timestamp st)).

(** Lines 195-254: what one pass does with the decoded packet.  Past
    line 195 the event is not [None], so the tests [is not None] of
    lines 245 and 251 hold. *)
Definition process_event (st : reader) (binlog_event : packet) : outcome :=
  match pkt_event binlog_event with
  | None => Continue st
  | Some ev =>
      match log_pos_before_start st binlog_event with
      | Raise x => Fail st x
      | Ok true => Continue st
      | Ok false =>
          if reached_stop_pos st binlog_event then Break st
          else
            match track_position st binlog_event ev with
            | Raise x => Fail st x
            | Ok st1 =>
                if before_skip_to_timestamp st1 binlog_event
                then Continue st1
                else
                  match register_table st1 binlog_event ev with
                  | Raise x => Fail st1 x
                  | Ok st2 =>
                      if bool_decide (class_of ev ∈ allowed_events st2)
                      then Return st2 ev
                      else Continue st2
                  end
            end
      end
  end.

(** [fetchone] (lines 155-254): [fuel] bounds the passes of the
    [while True]; [None] means the bound was reached. *)
Fixpoint fetchone_loop (fuel : nat) (st : reader)
  : option (reader * result (option event)) :=
  match fuel with
  | O => None
  | S fuel' =>
      match read_binlog_event st with
      | (st1, Raise x) => Some (st1, Raise x)
      | (st1, Ok None) => Some (st1, Ok None)
      | (st1, Ok (Some binlog_event)) =>
          match process_event st1 binlog_event with
          | Continue st2 => fetchone_loop fuel' st2
          | Break st2 => Some (st2, Ok None)
          | Return st2 e => Some (st2, Ok (Some e))
          | Fail st2 x => Some (st2, Raise x)
          end
      end
  end.

(** The bytes [fetchone] can still read. *)
Definition unread (st : reader) : nat :=
  match _file st with
  | Some bs => length bs
  | None => length (default [] (fs (_file_path st)))
  end.

(** Every pass that goes on has read a header, so the unread bytes
    bound the passes. *)
Definition fetchone (st : reader) : option (reader * result (option event)) :=
  fetchone_loop (S (unread st)) st.

(** [iter(self.fetchone, None)] (line 331), consumed to its end: the
    events up to the first [None] or exception.  [calls] bounds the
    calls of [fetchone]. *)
Fixpoint iter_loop (calls : nat) (st : reader)
  : option (reader * list event * result unit) :=
  match calls with
  | O => None
  | S calls' =>
      match fetchone st with
      | None => None
      | Some (st1, Raise x) => Some (st1, [], Raise x)
      | Some (st1, Ok None) => Some (st1, [], Ok tt)
      | Some (st1, Ok (Some e)) =>
          match iter_loop calls' st1 with
          | None => None
          | Some (st2, es, r) => Some (st2, e :: es, r)
          end
      end
  end.

Definition __iter__ (st : reader) : option (reader * list event * result unit) :=
  iter_loop (S (unread st)) st.

(** The arguments of [__init__] that the modelled methods use (lines
    49-53). *)
Record init_args := {
  arg_file_path : string;
  arg_ctl_connection_settings : option settings;
  arg_only_events : option (list event_class);
  arg_log_file : option string;
  arg_log_pos : option Z;
  arg_filter_non_implemented_events : bool;
  arg_stop_pos : option Z;
  arg_ignored_events : option (list event_class);
  arg_only_tables : option (list string);
  arg_ignored_tables : option (list string);
  arg_only_schemas : option (list string);
  arg_ignored_schemas : option (list string);
  arg_freeze_schema : bool;
  arg_skip_to_timestamp : option Z;
  arg_fail_on_table_metadata_unavailable : bool;
  arg_ignore_virtual_columns : bool;
}.


(** [dict.setdefault]. *)
Definition setdefault (k : string) (v : pyval) (d : settings) : settings :=
  match d !! k with
  | Some _ => d
  | None => <[k := v]> d
  end.

(** [__init__] (lines 49-103), run against the server [w]. *)
Definition __init__ (a : init_args) (w : World) : result reader :=
  let ctl_connection_settings :=
    match arg_ctl_connection_settings a with
    | None => None
    | Some d =>
        if bool_decide (d = ∅) then Some d
        else Some (setdefault "charset" (PyStr "utf8mb4") d)
    end in
  match _allowed_event_list (arg_only_events a) (arg_ignored_events a)
          (arg_filter_non_implemented_events a) with
  | Raise x => Raise x
  | Ok allowed =>
      let '(c, checksum) :=
        checksum_enabled
          {| connected_ctl := false;
             _ctl_connection := None;
             _ctl_connection_settings := ctl_connection_settings;
             world := w |} in
      Ok {| _file := None;
            _file_path := arg_file_path a;
            _pos := None;
            metadata := c;
            only_tables := arg_only_tables a;
            ignored_tables := arg_ignored_tables a;
            only_schemas := arg_only_schemas a;
            ignored_schemas := arg_ignored_schemas a;
            freeze_schema := arg_freeze_schema a;
            allowed_events := allowed;
            fail_on_table_metadata_unavailable :=
              arg_fail_on_table_metadata_unavailable a;
            allowed_events_in_packet :=
              {[TableMapEvent; RotateEvent]} ∪ allowed;
            table_map := ∅;
            log_pos := arg_log_pos a;
            start_pos := arg_log_pos a;
            stop_pos := arg_stop_pos a;
            log_file := arg_log_file a;
            skip_to_timestamp := arg_skip_to_timestamp a;
            ignore_virtual_columns := arg_ignore_virtual_columns a;
            use_checksum := checksum |}
  end.

End Reader.

Arguments reader : clear implicits.
Arguments ctl : clear implicits.
Arguments event : clear implicits.
Arguments packet : clear implicits.
Arguments outcome : clear implicits.

(** The state a pass of the loop leaves behind. *)
Definition outcome_state {World Conn Table Payload : Type}
    (o : outcome World Conn Table Payload) : reader World Conn Table :=
  match o with
  | Continue st | Break st | Return st _ | Fail st _ => st
  end.

(** ** The packet decoder *)

Section Decoder.

Context {World Conn Table Payload : Type}.

(** The constructors of the event classes: from the body of a frame
    they give the event, or [None] when the schema and table filters
    reject it; they can query the metadata connection and can raise. *)
Variable parse_event :
  event_class → header → list byte → gmap Z Table → bool →
  option (list string) → option (list string) →
  option (list string) → option (list string) →
  bool → bool → ctl World Conn → ctl World Conn * result (option (event Table Payload)).

(** What a [NotImplementedEvent] holds: it skips its body unread. *)
Variable not_implemented : Payload.

(** Modelled from the spec: the table from type codes to event classes
    is part of [pymysqlreplication] and missing from [src/].  Section 9
    has the decoder dispatch on the type byte of the header into the
    variants of section 3, with [NotImplemented] for every other code;
    the codes are those of the MySQL binary log format, of which line 14
    imports [TABLE_MAP_EVENT] and [ROTATE_EVENT]. *)
Definition event_map (event_type : Z) : event_class :=
  match event_type with
  | 2 => QueryEvent
  | 3 => StopEvent
  | 4 => RotateEvent
  | 15 => FormatDescriptionEvent
  | 16 => XidEvent
  | 17 => BeginLoadQueryEvent
  | 18 => ExecuteLoadQueryEvent
  | 19 => TableMapEvent
  | 23 | 30 => WriteRowsEvent
  | 24 | 31 => UpdateRowsEvent
  | 25 | 32 => DeleteRowsEvent
  | 27 => HeartbeatLogEvent
  | 33 => GtidEvent
  | _ => NotImplementedEvent
  end.

(** Modelled from the spec: the decoder [BinLogPacketWrapper] of
    [pymysqlreplication] is missing from [src/].  Section 4.2: from a
    frame it gives a decoded event whose variant depends on the type
    code of the header, or [None], without decoding, when the class is
    outside the allowed-in-packet set.  The packet is the byte [b'0']
    and the frame, whose header has the layout of section 3. *)
Definition packet_wrapper (pkt : list byte) (table_map : gmap Z Table)
    (use_checksum : bool) (allowed_events_in_packet : gset event_class)
    (only_tables ignored_tables only_schemas ignored_schemas : option (list string))
    (freeze_schema fail_on_table_metadata_unavailable : bool)
    (c : ctl World Conn) : ctl World Conn * result (packet Table Payload) :=
  match unpack_header (take 19 (drop 1 pkt)) with
  | Raise x => (c, Raise x)
  | Ok h =>
      let wrap ev :=
        {| pkt_timestamp := h_timestamp h;
           pkt_event_type := h_event_type h;
           pkt_log_pos := h_log_pos h;
           pkt_event := ev |} in
      let event_class := event_map (h_event_type h) in
      if bool_decide (event_class ∈ allowed_events_in_packet) then
        if bool_decide (event_class = NotImplementedEvent) then
          (c, Ok (wrap (Some (Other NotImplementedEvent not_implemented))))
        else
          match parse_event event_class h (drop 20 pkt) table_map use_checksum
                  only_tables ignored_tables only_schemas ignored_schemas
                  freeze_schema fail_on_table_metadata_unavailable c with
          | (c', Raise x) => (c', Raise x)
          | (c', Ok ev) => (c', Ok (wrap ev))
          end
      else (c, Ok (wrap None))
  end.

End Decoder.

(** ** A scripted server and plain event constructors

    A closed instance of what the reader takes from outside, to run the
    code on concrete files: the server answers each statement with the
    next entry of a script, connecting always succeeds, the tables and
    payloads are the raw bytes. *)
Module Script.

Definition World : Type := list (result (list row)).
Definition Conn : Type := unit.
Definition Table : Type := list byte.
Definition Payload : Type := list byte.

Definition pymysql_wrapper (s : settings) (w : World) : World * result Conn :=
  (w, Ok tt).

Definition execute (conn : Conn) (q : query) (w : World)
  : World * result (list row) :=
  match w with
  | [] => ([], Ok [])
  | r :: w' => (w', r)
  end.

(** [packet.read(size)] on the bytes left of the packet: all of them for
    a negative size. *)
Definition read_bytes (size : Z) (bs : list byte) : list byte :=
  if decide (size < 0) then bs else take (Z.to_nat size) bs.

(** The event constructors of [pymysqlreplication], as far as the sample
    files go.  They are given the size of the event without its header,
    which is 4 bytes less when the log has checksums.  A [StopEvent]
    reads nothing of its body.  A [RotateEvent] unpacks a position of 8
    bytes and reads the name of the next file, in ASCII here, from the
    [size - 8] bytes behind it.  A [QueryEvent] starts by unpacking a
    post-header of 13 bytes and a [TableMapEvent] by unpacking a table id
    of 6 bytes.  Unpacking from fewer bytes raises [struct.error].  What
    an event holds beyond that stands as the bytes of its body. *)
Definition parse_event (cls : event_class) (h : header) (body : list byte)
    (table_map : gmap Z Table) (use_checksum : bool)
    (only_tables ignored_tables only_schemas ignored_schemas : option (list string))
    (freeze_schema fail_on_table_metadata_unavailable : bool)
    (c : ctl World Conn) : ctl World Conn * result (option (event Table Payload)) :=
  let size := h_event_size h - (if use_checksum then 23 else 19) in
  match cls with
  | StopEvent => (c, Ok (Some (Other StopEvent [])))
  | RotateEvent =>
      if decide (length body < 8)%nat then (c, Raise StructError)
      else
        (c, Ok (Some (Rotate (le_uint (take 8 body))
                        (String.string_of_list_byte
                           (read_bytes (size - 8) (drop 8 body))))))
  | QueryEvent =>
      if decide (length body < 13)%nat then (c, Raise StructError)
      else (c, Ok (Some (Other QueryEvent body)))
  | TableMapEvent =>
      if decide (length body < 6)%nat then (c, Raise StructError)
      else (c, Ok (Some (TableMap (le_uint (take 6 body)) (drop 6 body))))
  | _ => (c, Ok (Some (Other cls body)))
  end.

Definition BinLogPacketWrapper := packet_wrapper parse_event [].

(** One file system entry. *)
Definition fs (path : string) (content : list byte) (p : string)
  : option (list byte) :=
  if bool_decide (p = path) then Some content else None.

(** The bytes of an unsigned integer, little-endian, on [n] bytes. *)
Fixpoint le_bytes (n : nat) (z : Z) : list byte :=
  match n with
  | O => []
  | S n' =>
      default x00 (Byte.of_N (Z.to_N (z mod 256))) :: le_bytes n' (z / 256)
  end.

(** A frame: the 19-byte header of section 3 and the body. *)
Definition frame (timestamp event_type event_size log_pos : Z)
    (body : list byte) : list byte :=
  le_bytes 4 timestamp ++ le_bytes 1 event_type ++ le_bytes 4 1
    ++ le_bytes 4 event_size ++ le_bytes 4 log_pos ++ le_bytes 2 0 ++ body.

Definition path : string := "mysql-bin.000001".

(** The reader that [__init__] builds against the scripted server. *)
Definition open_reader (a : init_args) (w : World)
  : result (reader World Conn Table) :=
  __init__ pymysql_wrapper execute a w.

(** Stands for the reader when [__init__] raises. *)
Definition blank : reader World Conn Table :=
  {| _file := None; _file_path := path; _pos := None;
     metadata := {| connected_ctl := false; _ctl_connection := None;
                    _ctl_connection_settings := None; world := [] |};
     only_tables := None; ignored_tables := None;
     only_schemas := None; ignored_schemas := None;
     freeze_schema := false; allowed_events := ∅;
     fail_on_table_metadata_unavailable := false;
     allowed_events_in_packet := ∅; table_map := ∅;
     log_pos := None; start_pos := None; stop_pos := None;
     log_file := None; skip_to_timestamp := None;
     ignore_virtual_columns := false; use_checksum := false |}.

Definition reader_of (a : init_args) : reader World Conn Table :=
  match open_reader a [] with
  | Ok st => st
  | Raise _ => blank
  end.

Definition connection_settings : settings :=
  {[ "host" := PyStr "127.0.0.1" ]}.

(** [BinLogFileReader(path, ctl_connection_settings=..., log_pos=...,
    stop_pos=..., skip_to_timestamp=...,
    filter_non_implemented_events=...)]. *)
Definition args (log_pos stop_pos skip_to_timestamp : option Z)
    (filter_non_implemented_events : bool) : init_args :=
  {| arg_file_path := path;
     arg_ctl_connection_settings := Some connection_settings;
     arg_only_events := None;
     arg_log_file := None;
     arg_log_pos := log_pos;
     arg_filter_non_implemented_events := filter_non_implemented_events;
     arg_stop_pos := stop_pos;
     arg_ignored_events := None;
     arg_only_tables := None;
     arg_ignored_tables := None;
     arg_only_schemas := None;
     arg_ignored_schemas := None;
     arg_freeze_schema := false;
     arg_skip_to_timestamp := skip_to_timestamp;
     arg_fail_on_table_metadata_unavailable := false;
     arg_ignore_virtual_columns := false |}.

(** [BinLogFileReader(path, ctl_connection_settings=..., log_pos=4,
    only_events=..., ignored_events=...)]. *)
Definition event_args (only_events ignored_events : option (list event_class))
  : init_args :=
  {| arg_file_path := path;
     arg_ctl_connection_settings := Some connection_settings;
     arg_only_events := only_events;
     arg_log_file := None;
     arg_log_pos := Some 4;
     arg_filter_non_implemented_events := true;
     arg_stop_pos := None;
     arg_ignored_events := ignored_events;
     arg_only_tables := None;
     arg_ignored_tables := None;
     arg_only_schemas := None;
     arg_ignored_schemas := None;
     arg_freeze_schema := false;
     arg_skip_to_timestamp := None;
     arg_fail_on_table_metadata_unavailable := false;
     arg_ignore_virtual_columns := false |}.

(** The code on the file [content]. *)
Definition run_read (content : list byte) (st : reader World Conn Table) :=
  read_binlog_event pymysql_wrapper (fs path content) BinLogPacketWrapper st.

Definition run_fetchone (content : list byte) (st : reader World Conn Table) :=
  fetchone pymysql_wrapper (fs path content) BinLogPacketWrapper st.

Definition run_iter (content : list byte) (st : reader World Conn Table) :=
  __iter__ pymysql_wrapper (fs path content) BinLogPacketWrapper st.


Definition no_packet : packet Table Payload :=
  {| pkt_timestamp := 0; pkt_event_type := 0; pkt_log_pos := 0;
     pkt_event := None |}.

Definition read_packet (content : list byte) (st : reader World Conn Table)
  : packet Table Payload :=
  match (run_read content st).2 with
  | Ok (Some binlog_event) => binlog_event
  | _ => no_packet
  end.

(** Files.  Type 3 is a stop event, which has no body, type 4 a
    rotation, type 2 a query, and type 99 is no type of the format. *)

(** One stop event that ends at position 100. *)
Definition stop_at_100 : list byte :=
  _expected_magic ++ frame 10 3 19 100 [].

(** The magic bytes and one more byte. *)
Definition one_stray_byte : list byte := _expected_magic ++ [x01].

(** A header that declares an event of size 0. *)
Definition event_size_0 : list byte :=
  _expected_magic ++ frame 10 2 0 100 [].

(** A frame of an unknown type that ends at 200, then a stop event
    whose header has the position 50. *)
Definition unknown_200_stop_50 : list byte :=
  _expected_magic ++ frame 10 99 19 200 [] ++ frame 11 3 19 50 [].

(** A rotation to [abc], position 4, whose header has the position 200,
    then a stop event at 600. *)
Definition rotate_200_stop_600 : list byte :=
  _expected_magic
    ++ frame 10 4 30 200 (le_bytes 8 4 ++ [x61; x62; x63])
    ++ frame 11 3 19 600 [].

(** A rotation to [abc], position 4, with the timestamp 0 and the
    position 200 in its header, and nothing behind it. *)
Definition rotate_200_at_end : list byte :=
  _expected_magic ++ frame 0 4 30 200 (le_bytes 8 4 ++ [x61; x62; x63]).

(** Frames of an unknown type at 120 and 540 and stop events at 260
    and 800. *)
Definition positions_120_260_540_800 : list byte :=
  _expected_magic ++ frame 10 99 19 120 [] ++ frame 11 3 19 260 []
    ++ frame 12 99 19 540 [] ++ frame 13 3 19 800 [].

(** The header of the frame of [event_size_0]. *)
Definition header_size_0 : header :=
  {| h_timestamp := 10; h_event_type := 2; h_server_id := 1;
     h_event_size := 0; h_log_pos := 100; h_flags := 0 |}.

(** A rotation packet as the decoder gives it. *)
Definition rotation (timestamp log_pos position : Z) (next_binlog : string)
  : packet Table Payload :=
  {| pkt_timestamp := timestamp; pkt_event_type := ROTATE_EVENT;
     pkt_log_pos := log_pos;
     pkt_event := Some (Rotate position next_binlog) |}.

(** A table map packet as the decoder gives it. *)
Definition table_map_packet (log_pos table_id : Z) (table : Table)
  : packet Table Payload :=
  {| pkt_timestamp := 1800000000; pkt_event_type := TABLE_MAP_EVENT;
     pkt_log_pos := log_pos;
     pkt_event := Some (TableMap table_id table) |}.

(** The reader after a pass on the table map of the table 7 at the
    position 150. *)
Definition reader_with_table (a : init_args) : reader World Conn Table :=
  outcome_state (process_event (reader_of a) (table_map_packet 150 7 [x01])).

(** The frame at the start of a file, as [fetchone] cuts it. *)
Definition first_frame (content : list byte) : header * list byte :=
  match (read_frame (drop 4 content)).2 with
  | Ok (Some frame) => frame
  | _ => (header_size_0, [])
  end.

(** A server that answers twice with a lost connection. *)
Definition lost_twice : ctl World Conn :=
  {| connected_ctl := false;
     _ctl_connection := None;
     _ctl_connection_settings := Some connection_settings;
     world := [Raise (OperationalError 2013 "Lost connection");
               Raise (OperationalError 2006 "MySQL server has gone away")] |}.

End Script.

(** ** The stream of events, pass by pass *)

Section Stream.

Context {World Conn Table Payload : Type}.
Variable pymysql_wrapper : settings → World → World * result Conn.
Variable fs : string → option (list byte).
Variable BinLogPacketWrapper :
  list byte → gmap Z Table → bool → gset event_class →
  option (list string) → option (list string) →
  option (list string) → option (list string) →
  bool → bool → ctl World Conn → ctl World Conn * result (packet Table Payload).

(** The events that the passes of the loop return from a state on, in
    order, up to the first [break], exception or end of file: what
    [__iter__] yields, without the cut into calls of [fetchone]. *)
Fixpoint emitted (fuel : nat) (st : reader World Conn Table)
  : list (event Table Payload) :=
  match fuel with
  | O => []
  | S fuel' =>
      match read_binlog_event pymysql_wrapper fs BinLogPacketWrapper st with
      | (st1, Ok (Some binlog_event)) =>
          match process_event st1 binlog_event with
          | Continue st2 => emitted fuel' st2
          | Return st2 e => e :: emitted fuel' st2
          | Break _ | Fail _ _ => []
          end
      | _ => []
      end
  end.

(** The bytes the next pass reads frames from: the unread bytes of the
    open file, or the file past its magic bytes. *)
Definition ahead (st : reader World Conn Table) : list byte :=
  match _file st with
  | Some bs => bs
  | None => drop 4 (default [] (fs (_file_path st)))
  end.

(** The passes of a call of [fetchone] that decode a packet, in order:
    each with the state in which the packet is tested (lines 195-254).
    The call ends with the first pass that does not [continue]. *)
Fixpoint passes (fuel : nat) (st : reader World Conn Table)
  : list (reader World Conn Table * packet Table Payload) :=
  match fuel with
  | O => []
  | S fuel' =>
      match read_binlog_event pymysql_wrapper fs BinLogPacketWrapper st with
      | (st1, Ok (Some binlog_event)) =>
          (st1, binlog_event)
            :: match process_event st1 binlog_event with
               | Continue st2 => passes fuel' st2
               | _ => []
               end
      | _ => []
      end
  end.

(** The next pass reads its frame from the bytes [bs]: they are the
    unread bytes of the open file, or the reader has not opened its file
    and the file holds the magic bytes and [bs]. *)
Definition at_frames (st : reader World Conn Table) (bs : list byte) : Prop :=
  _file st = Some bs
  ∨ (_file st = None ∧ fs (_file_path st) = Some (_expected_magic ++ bs)).

End Stream.

(** The [log_pos] fields of the headers of the frames of a byte string,
    as lines 163-182 cut it into frames. *)
Fixpoint frame_log_positions (fuel : nat) (bs : list byte) : list Z :=
  match fuel with
  | O => []
  | S fuel' =>
      match read_frame bs with
      | (rest, Ok (Some (h, _))) => h_log_pos h :: frame_log_positions fuel' rest
      | _ => []
      end
  end.

(** The arguments with another [filter_non_implemented_events]. *)
Definition with_filter (b : bool) (a : init_args) : init_args :=
  {| arg_file_path := arg_file_path a;
     arg_ctl_connection_settings := arg_ctl_connection_settings a;
     arg_only_events := arg_only_events a;
     arg_log_file := arg_log_file a;
     arg_log_pos := arg_log_pos a;
     arg_filter_non_implemented_events := b;
     arg_stop_pos := arg_stop_pos a;
     arg_ignored_events := arg_ignored_events a;
     arg_only_tables := arg_only_tables a;
     arg_ignored_tables := arg_ignored_tables a;
     arg_only_schemas := arg_only_schemas a;
     arg_ignored_schemas := arg_ignored_schemas a;
     arg_freeze_schema := arg_freeze_schema a;
     arg_skip_to_timestamp := arg_skip_to_timestamp a;
     arg_fail_on_table_metadata_unavailable :=
       arg_fail_on_table_metadata_unavailable a;
     arg_ignore_virtual_columns := arg_ignore_virtual_columns a |}.

(** The reader [st] as it is when [NotImplementedEvent] is taken out of
    its two sets of classes and [self.log_pos] holds [lp]. *)
Definition without_not_implemented {World Conn Table : Type}
    (lp : option Z) (st : reader World Conn Table) : reader World Conn Table :=
  {| _file := _file st;
     _file_path := _file_path st;
     _pos := _pos st;
     metadata := metadata st;
     only_tables := only_tables st;
     ignored_tables := ignored_tables st;
     only_schemas := only_schemas st;
     ignored_schemas := ignored_schemas st;
     freeze_schema := freeze_schema st;
     allowed_events := allowed_events st ∖ {[NotImplementedEvent]};
     fail_on_table_metadata_unavailable :=
       fail_on_table_metadata_unavailable st;
     allowed_events_in_packet :=
       allowed_events_in_packet st ∖ {[NotImplementedEvent]};
     table_map := table_map st;
     log_pos := lp;
     start_pos := start_pos st;
     stop_pos := stop_pos st;
     log_file := log_file st;
     skip_to_timestamp := skip_to_timestamp st;
     ignore_virtual_columns := ignore_virtual_columns st;
     use_checksum := use_checksum st |}.

(** The packet without its event, as the decoder leaves it when the
    class is outside the allowed-in-packet set. *)
Definition without_event {Table Payload : Type} (be : packet Table Payload)
  : packet Table Payload :=
  {| pkt_timestamp := pkt_timestamp be;
     pkt_event_type := pkt_event_type be;
     pkt_log_pos := pkt_log_pos be;
     pkt_event := None |}.

(** A packet passes the position filters when neither the test of line
    195 nor the test of line 198 holds. *)
Definition passes_position_filters {World Conn Table Payload : Type}
    (st : reader World Conn Table) (binlog_event : packet Table Payload) : Prop :=
  is_Some (pkt_event binlog_event)
  ∧ log_pos_before_start st binlog_event = Ok false
  ∧ reached_stop_pos st binlog_event = false.

(** ** [StringIOAdvance] (lines 38-40)

    An [io.BytesIO]: its bytes and its position. *)
Record BytesIO := {
  getvalue : list byte;
  tell : nat;
}.

(** [StringIOAdvance()] (line 164). *)
Definition StringIOAdvance : BytesIO := {| getvalue := []; tell := 0 |}.

(** [sys.maxsize]: a position is a C [ssize_t]. *)
Definition maxsize : Z := 2 ^ 63 - 1.

(** [seek(pos)]: a negative position raises [ValueError], one too large
    for a [ssize_t] raises [OverflowError]. *)
Definition seek (pos : Z) (io : BytesIO) : result BytesIO :=
  if decide (pos < 0) then Raise ValueError
  else if decide (maxsize < pos) then Raise (LibraryError "OverflowError")
  else Ok {| getvalue := getvalue io; tell := Z.to_nat pos |}.

(** [write(b)]: the bytes go in at the position, over the bytes there;
    behind the end the gap is filled with zero bytes.  Writing no bytes
    changes nothing. *)
Definition write (b : list byte) (io : BytesIO) : BytesIO :=
  match b with
  | [] => io
  | _ :: _ =>
      let padded :=
        getvalue io ++ replicate (tell io - length (getvalue io))%nat x00 in
      {| getvalue := take (tell io) padded ++ b
                       ++ drop (tell io + length b)%nat padded;
         tell := (tell io + length b)%nat |}
  end.

(** [read(size)]: up to [size] bytes from the position on, all of them
    when [size] is negative. *)
Definition read (size : Z) (io : BytesIO) : list byte * BytesIO :=
  let rest := drop (tell io) (getvalue io) in
  let n := if decide (size < 0) then length rest
           else Nat.min (Z.to_nat size) (length rest) in
  (take n rest, {| getvalue := getvalue io; tell := (tell io + n)%nat |}).

(** [advance] (lines 39-40): [self.seek(self.tell() + length)]. *)
Definition advance (length : Z) (io : BytesIO) : result BytesIO :=
  seek (Z.of_nat (tell io) + length) io.

(** Lines 164 and 179-182: the packet [fetchone] hands to the decoder. *)
Definition make_pkt (header body : list byte) : result BytesIO :=
  seek 0 (write body (write header (write [x30] StringIOAdvance))).

(** ** Strings of Python

    A [str] stands as the string of its UTF-8 bytes: the line feed, the
    carriage return and the slash are single bytes of it, and the order
    of the bytes is the order of the code points. *)

Definition LF : Ascii.ascii := Ascii.ascii_of_nat 10.
Definition CR : Ascii.ascii := Ascii.ascii_of_nat 13.

(** [s1 <= s2] on [str]. *)
Definition str_le (s1 s2 : string) : Prop := String.leb s1 s2 = true.

#[global] Instance str_le_dec : RelDecision str_le.
Proof. intros s1 s2. unfold str_le. apply _. Defined.

(** [c in s]. *)
Fixpoint has_char (c : Ascii.ascii) (s : string) : bool :=
  match s with
  | EmptyString => false
  | String c' s' => bool_decide (c' = c) || has_char c s'
  end.

(** [s.endswith('/')]. *)
Fixpoint ends_with_slash (s : string) : bool :=
  match s with
  | EmptyString => false
  | String c EmptyString => bool_decide (String c EmptyString = "/")
  | String _ s' => ends_with_slash s'
  end.

(** [os.path.join(a, b)] of [posixpath]. *)
Definition path_join (a b : string) : string :=
  if String.prefix "/" b then b
  else if bool_decide (a = "") || ends_with_slash a then a +:+ b
  else a +:+ "/" +:+ b.

(** ** Text files (lines 518-532) *)

(** What is at a path: a file that holds text, by its characters as they
    are stored; a file whose bytes are not UTF-8; or something that
    cannot be opened for reading, such as a directory. *)
Inductive node :=
| TextFile (text : string)
| Undecodable
| Unreadable.

Abbreviation files := (gmap string node).

(** [os.path.exists]. *)
Definition path_exists (fs : files) (p : string) : bool :=
  bool_decide (is_Some (fs !! p)).

(** Reading in text mode gives a line feed for every carriage return
    with or without a line feed behind it. *)
Fixpoint universal_newlines (s : string) : string :=
  match s with
  | EmptyString => EmptyString
  | String c s' =>
      if bool_decide (c = CR) then
        match s' with
        | String c' s'' =>
            if bool_decide (c' = LF) then String LF (universal_newlines s'')
            else String LF (universal_newlines s')
        | EmptyString => String LF EmptyString
        end
      else String c (universal_newlines s')
  end.

(** [readlines()]: the lines, each with its line feed. *)
Fixpoint readlines (s : string) : list string :=
  match s with
  | EmptyString => []
  | String c s' =>
      if bool_decide (c = LF) then String c EmptyString :: readlines s'
      else
        match readlines s' with
        | [] => [String c EmptyString]
        | line :: lines => String c line :: lines
        end
  end.

(** [s.lstrip('\n')] and [s.rstrip('\n')]. *)
Fixpoint lstrip_newlines (s : string) : string :=
  match s with
  | EmptyString => EmptyString
  | String c s' => if bool_decide (c = LF) then lstrip_newlines s' else s
  end.

Fixpoint rstrip_newlines (s : string) : string :=
  match s with
  | EmptyString => EmptyString
  | String c s' =>
      match rstrip_newlines s' with
      | EmptyString =>
          if bool_decide (c = LF) then EmptyString else String c EmptyString
      | r => String c r
      end
  end.

(** [s.strip('\n')]. *)
Definition strip_newlines (s : string) : string :=
  rstrip_newlines (lstrip_newlines s).

(** [open(filename, 'r', encoding='utf8')] and [readlines()]: what cannot
    be opened raises [OSError], bytes that are not UTF-8 raise
    [UnicodeDecodeError], a [ValueError]. *)
Definition open_readlines (fs : files) (filename : string)
  : result (list string) :=
  match fs !! filename with
  | Some (TextFile text) => Ok (readlines (universal_newlines text))
  | Some Undecodable => Raise ValueError
  | _ => Raise OSError
  end.

(** [read_file] (lines 518-524); the message it prints is left out. *)
Definition read_file (fs : files) (filename : string) : result (list string) :=
  if negb (path_exists fs filename) then Ok []
  else
    match open_readlines fs filename with
    | Raise x => Raise x
    | Ok lines => Ok (map strip_newlines lines)
    end.

(** [writelines]: the strings one after the other. *)
Fixpoint writelines (lines : list string) : string :=
  match lines with
  | [] => EmptyString
  | line :: lines' => line +:+ writelines lines'
  end.

Section TextFiles.

(** Whether a path can be opened for writing. *)
Variable can_write : string → bool.

(** [open(result_file, 'w', encoding='utf8')] and [writelines]: the file
    is made or emptied, and holds the strings written. *)
Definition open_writelines (fs : files) (result_file : string)
    (lines : list string) : result files :=
  if can_write result_file
  then Ok (<[result_file := TextFile (writelines lines)]> fs)
  else Raise OSError.

(** [save_executed_result] (lines 527-531). *)
Definition save_executed_result (fs : files) (result_file : string)
    (result_list : list string) : result files :=
  let result_list := map (λ s, s +:+ String LF EmptyString) result_list in
  open_writelines fs result_file result_list.

End TextFiles.

(** ** [get_binlog_file_list] (lines 534-566) *)

(** The attributes of [args] that the function reads. *)
Record file_args := {
  stop_never : bool;
  record_file : string;
  file_dir : string;
  file_path : list string;
  start_file : string;
  stop_file : string;
  file_regex : string;
  minutes_ago : Z;
}.

(** [list.remove]: takes out the first element equal to [x], and raises
    [ValueError] when there is none. *)
Fixpoint list_remove (x : string) (l : list string) : result (list string) :=
  match l with
  | [] => Raise ValueError
  | y :: l' =>
      if bool_decide (y = x) then Ok l'
      else
        match list_remove x l' with
        | Ok r => Ok (y :: r)
        | Raise e => Raise e
        end
  end.

(** Lines 562-564: the loop runs over a copy of the list and removes
    from the list itself. *)
Fixpoint remove_missing (fs : files) (copy executed_file_list : list string)
  : result (list string) :=
  match copy with
  | [] => Ok executed_file_list
  | f :: copy' =>
      if negb (path_exists fs f) then
        match list_remove f executed_file_list with
        | Ok l => remove_missing fs copy' l
        | Raise e => Raise e
        end
      else remove_missing fs copy' executed_file_list
  end.

Section FileList.

(** [os.listdir]. *)
Variable listdir : string → result (list string).
(** [re.search(pattern, f) is not None]; a pattern that does not compile
    raises. *)
Variable re_search : string → string → result bool.
(** [int(time.time() - os.path.getmtime(path))], the age of a file in
    seconds. *)
Variable age : string → result Z.

(** Lines 538-549, on the sorted names: [continue] before [start_file],
    [break] behind [stop_file]. *)
Fixpoint scan_dir (args : file_args) (executed_file_list : list string)
    (names : list string) : result (list string) :=
  match names with
  | [] => Ok []
  | f :: names' =>
      if negb (bool_decide (start_file args = ""))
         && String.ltb f (start_file args)
      then scan_dir args executed_file_list names'
      else if negb (bool_decide (stop_file args = ""))
              && String.ltb (stop_file args) f
      then Ok []
      else
        match re_search (file_regex args) f with
        | Raise e => Raise e
        | Ok false => scan_dir args executed_file_list names'
        | Ok true =>
            let binlog_file := path_join (file_dir args) f in
            match (if stop_never args then
                     match age binlog_file with
                     | Raise e => Raise e
                     | Ok seconds =>
                         Ok ((seconds <? minutes_ago args * 60)
                             || bool_decide (binlog_file ∈ executed_file_list))
                     end
                   else Ok false) with
            | Raise e => Raise e
            | Ok true => scan_dir args executed_file_list names'
            | Ok false =>
                match scan_dir args executed_file_list names' with
                | Ok l => Ok (binlog_file :: l)
                | Raise e => Raise e
                end
            end
        end
  end.

(** Lines 551-557, on [args.file_path]. *)
Fixpoint scan_paths (args : file_args) (paths : list string)
  : result (list string) :=
  match paths with
  | [] => Ok []
  | f :: paths' =>
      match re_search (file_regex args) f with
      | Raise e => Raise e
      | Ok false => scan_paths args paths'
      | Ok true =>
          let binlog_file :=
            if negb (String.prefix "/" f)
               && negb (bool_decide (file_dir args = ""))
            then path_join (file_dir args) f
            else f in
          match scan_paths args paths' with
          | Ok l => Ok (binlog_file :: l)
          | Raise e => Raise e
          end
      end
  end.

(** [sorted] on strings: the same strings in ascending order. *)
Definition sorted (l : list string) : list string := merge_sort str_le l.

(** Line 536. *)
Definition executed_records (fs : files) (args : file_args)
  : result (list string) :=
  if stop_never args && path_exists fs (record_file args)
  then read_file fs (record_file args)
  else Ok [].

Definition get_binlog_file_list (fs : files) (args : file_args)
  : result (list string * list string) :=
  match executed_records fs args with
  | Raise e => Raise e
  | Ok executed_file_list =>
      match (if negb (bool_decide (file_dir args = ""))
                && bool_decide (file_path args = [])
             then
               match listdir (file_dir args) with
               | Raise e => Raise e
               | Ok names => scan_dir args executed_file_list (sorted names)
               end
             else scan_paths args (file_path args)) with
      | Raise e => Raise e
      | Ok binlog_file_list =>
          match remove_missing fs executed_file_list executed_file_list with
          | Raise e => Raise e
          | Ok executed_file_list' =>
              Ok (binlog_file_list, executed_file_list')
          end
      end
  end.

End FileList.

(** [start_file <= f <= stop_file], each bound only when it is given. *)
Definition between_start_and_stop (args : file_args) (f : string) : bool :=
  (bool_decide (start_file args = "") || String.leb (start_file args) f)
  && (bool_decide (stop_file args = "") || String.leb f (stop_file args)).

(** A path that starts at the root. *)
Definition absolute (p : string) : bool := String.prefix "/" p.

(** ** A directory of binlog files

    A directory that lists its names out of order, the default pattern
    of [--file-regex], and files one hour old. *)
Module Dir.

(** A decimal digit of ASCII. *)
Definition is_digit (c : Ascii.ascii) : bool :=
  (48 <=? Ascii.nat_of_ascii c)%nat && (Ascii.nat_of_ascii c <=? 57)%nat.

(** [mysql-bin.\d+] at the start of [s]: the nine characters, one
    character that is no line feed, and a digit. *)
Definition default_pattern_here (s : string) : bool :=
  String.prefix "mysql-bin" s
  && match String.substring 9 2 s with
     | String c (String d EmptyString) =>
         negb (bool_decide (c = LF)) && is_digit d
     | _ => false
     end.

(** [mysql-bin.\d+] somewhere in [s]. *)
Fixpoint default_pattern (s : string) : bool :=
  default_pattern_here s
  || match s with
     | EmptyString => false
     | String _ s' => default_pattern s'
     end.

Definition names : list string :=
  ["mysql-bin.000003"; "mysql-bin.000001"; "mysql-bin.index";
   "mysql-bin.000002"].

Definition listdir (d : string) : result (list string) :=
  if bool_decide (d = "/var/lib/mysql") then Ok names else Raise OSError.

(** [re.search] on names in ASCII, for the default pattern of line 459,
    the one pattern of the samples; any other pattern stands as one
    that does not compile. *)
Definition re_search (pattern f : string) : result bool :=
  if bool_decide (pattern = "mysql-bin.\d+") then Ok (default_pattern f)
  else Raise (LibraryError "re.error").

Definition age (p : string) : result Z := Ok 3600.

(** [-fd /var/lib/mysql --start-file mysql-bin.000002]. *)
Definition dir_args : file_args :=
  {| stop_never := false;
     record_file := "executed_records.txt";
     file_dir := "/var/lib/mysql";
     file_path := [];
     start_file := "mysql-bin.000002";
     stop_file := "";
     file_regex := "mysql-bin.\d+";
     minutes_ago := 3 |}.

(** [-fd /var/lib/mysql -f mysql-bin.000007 /backup/mysql-bin.000008]. *)
Definition path_args : file_args :=
  {| stop_never := false;
     record_file := "executed_records.txt";
     file_dir := "/var/lib/mysql";
     file_path := ["mysql-bin.000007"; "/backup/mysql-bin.000008"];
     start_file := "";
     stop_file := "";
     file_regex := "mysql-bin.\d+";
     minutes_ago := 3 |}.

(** The binlog files there are. *)
Definition disk : files :=
  {[ "/var/lib/mysql/mysql-bin.000002" := Unreadable ]}.


(** A frame with a body of two bytes, and one more byte behind it. *)
Definition two_frames : list byte := Script.frame 10 2 21 100 [x01; x02] ++ [x03].

(** A header that declares the size 18, and five bytes behind it. *)
Definition size_18 : list byte :=
  Script.frame 10 2 18 100 [x01; x02; x03; x04; x05].

End Dir.

(** * Properties *)

(** ** The allowed events *)

Lemma set_remove_ok e events :
  e ∈ events → set_remove e events = Ok (events ∖ {[e]}).
Proof. intros H. unfold set_remove. by rewrite decide_True. Qed.

Lemma set_remove_absent e events :
  e ∉ events → set_remove e events = Raise (KeyError e).
Proof. intros H. unfold set_remove. by rewrite decide_False. Qed.

(** The removals go through a prefix and stop at the first absent class. *)
Lemma remove_each_app pre rest events events' :
  remove_each pre events = Ok events' →
  remove_each (pre ++ rest) events = remove_each rest events'.
Proof.
  revert events. induction pre as [|e pre IH]; intros events H; simpl in *.
  - by inversion H.
  - destruct (set_remove e events) as [ev1|x]; [by apply IH | discriminate].
Qed.

Lemma remove_each_raises_key_error ign events x :
  remove_each ign events = Raise x → ∃ e, x = KeyError e ∧ e ∈ ign.
Proof.
  revert events. induction ign as [|e ign IH]; intros events H; simpl in *.
  - discriminate.
  - unfold set_remove in H. destruct (decide (e ∈ events)).
    + destruct (IH _ H) as (e' & -> & Hin). exists e'. split; [done | by right].
    + inversion H. exists e. split; [done | by left].
Qed.

(** What the removals leave when they all succeed. *)
Lemma remove_each_ok ign events events' :
  remove_each ign events = Ok events' →
  NoDup ign ∧ (∀ e, e ∈ ign → e ∈ events) ∧ events' = events ∖ list_to_set ign.
Proof.
  revert events. induction ign as [|e ign IH]; intros events H; simpl in *.
  - inversion H. split; [constructor | split; [by intros ? ?%elem_of_nil | set_solver]].
  - unfold set_remove in H. destruct (decide (e ∈ events)) as [Hin|]; [|discriminate].
    destruct (IH _ H) as (Hnd & Hall & ->). split; [|split].
    + constructor; [|done]. intros Hc. specialize (Hall _ Hc). set_solver.
    + intros e' [->|He']%elem_of_cons; [done|]. specialize (Hall _ He'). set_solver.
    + set_solver.
Qed.

Lemma remove_not_implemented_ok events :
  remove_not_implemented events = Ok (events ∖ {[NotImplementedEvent]}).
Proof.
  unfold remove_not_implemented, set_remove.
  destruct (decide (NotImplementedEvent ∈ events)); [done|].
  f_equal. set_solver.
Qed.

(** A class left out of [only_events] and listed in [ignored_events]. *)
Lemma ignored_outside_only_events only ign flt e :
  e ∈ ign → e ∉ only →
  ∃ e', _allowed_event_list (Some only) (Some ign) flt = Raise (KeyError e').
Proof.
  intros Hin Hout. unfold _allowed_event_list. simpl.
  destruct (remove_each ign (list_to_set only)) as [events'|x] eqn:E.
  - apply remove_each_ok in E as (_ & Hall & _).
    specialize (Hall _ Hin). set_solver.
  - apply remove_each_raises_key_error in E as (e' & -> & _). by exists e'.
Qed.

(** A class listed twice in [ignored_events]. *)
Lemma ignored_twice only ign flt :
  ¬ NoDup ign →
  ∃ e', _allowed_event_list only (Some ign) flt = Raise (KeyError e').
Proof.
  intros Hdup. unfold _allowed_event_list.
  destruct (remove_each ign (selected_events only)) as [events'|x] eqn:E.
  - by apply remove_each_ok in E as (Hnd & _).
  - apply remove_each_raises_key_error in E as (e' & -> & _). by exists e'.
Qed.

(** The flag only takes [NotImplementedEvent] out of the set. *)
Lemma allowed_event_list_filter only ign :
  _allowed_event_list only ign true =
  match _allowed_event_list only ign false with
  | Ok events => Ok (events ∖ {[NotImplementedEvent]})
  | Raise x => Raise x
  end.
Proof.
  unfold _allowed_event_list.
  destruct (match ign with Some i => remove_each i _ | None => _ end); [|done].
  apply remove_not_implemented_ok.
Qed.

(** ** One pass of the loop *)

(** Case analysis on the tests of a pass. *)
Ltac pass_cases :=
  unfold process_event, passes_position_filters, log_pos_before_start,
    reached_stop_pos, before_skip_to_timestamp, track_position,
    register_table, truthy in *;
  repeat (simplify_eq /=;
    match goal with
    | H : is_Some _ |- _ => destruct H
    | H : _ ∧ _ |- _ => destruct H
    | |- context [match ?x with _ => _ end] => destruct x eqn:?
    | H : context [match ?x with _ => _ end] |- _ => destruct x eqn:?
    end);
  simplify_eq /=;
  repeat match goal with
    | H : bool_decide _ = true |- _ => apply bool_decide_eq_true in H
    | H : bool_decide _ = false |- _ => apply bool_decide_eq_false in H
    end.

(** The boolean tests as propositions, for [lia]. *)
Ltac tests_to_props :=
  repeat match goal with
    | H : _ && _ = true |- _ => apply andb_true_iff in H as [? ?]
    | H : _ && _ = false |- _ => apply andb_false_iff in H as [?|?]
    | H : negb _ = true |- _ => apply negb_true_iff in H
    | H : negb _ = false |- _ => apply negb_false_iff in H
    | H : (_ <? _) = true |- _ => apply Z.ltb_lt in H
    | H : (_ <? _) = false |- _ => apply Z.ltb_ge in H
    | H : (_ <=? _) = true |- _ => apply Z.leb_le in H
    | H : (_ <=? _) = false |- _ => apply Z.leb_gt in H
    | H : (_ =? _) = true |- _ => apply Z.eqb_eq in H
    | H : (_ =? _) = false |- _ => apply Z.eqb_neq in H
    end.

Ltac pass_solve := pass_cases; tests_to_props; simplify_eq /=; first [done | lia].

Section Pass.

Context {World Conn Table Payload : Type}.
Variable pymysql_wrapper : settings → World → World * result Conn.
Variable execute : Conn → query → World → World * result (list row).
Variable fs : string → option (list byte).
Variable BinLogPacketWrapper :
  list byte → gmap Z Table → bool → gset event_class →
  option (list string) → option (list string) →
  option (list string) → option (list string) →
  bool → bool → ctl World Conn → ctl World Conn * result (packet Table Payload).

Abbreviation read_binlog_event :=
  (read_binlog_event pymysql_wrapper fs BinLogPacketWrapper).
Abbreviation fetchone_loop :=
  (fetchone_loop pymysql_wrapper fs BinLogPacketWrapper).
Abbreviation fetchone := (fetchone pymysql_wrapper fs BinLogPacketWrapper).
Abbreviation iter_loop := (iter_loop pymysql_wrapper fs BinLogPacketWrapper).
Abbreviation emitted := (emitted pymysql_wrapper fs BinLogPacketWrapper).
Abbreviation passes := (passes pymysql_wrapper fs BinLogPacketWrapper).
Abbreviation at_frames := (at_frames fs).
Abbreviation unread := (unread fs).
Abbreviation table_information_attempt :=
  (table_information_attempt pymysql_wrapper execute).
Abbreviation __get_table_information :=
  (__get_table_information pymysql_wrapper execute).

Implicit Types (st : reader World Conn Table)
  (binlog_event be : packet Table Payload) (ev e : event Table Payload).

(** A pass leaves the configuration alone. *)
Lemma process_event_config st binlog_event :
  let st' := outcome_state (process_event st binlog_event) in
  start_pos st' = start_pos st ∧ stop_pos st' = stop_pos st
  ∧ skip_to_timestamp st' = skip_to_timestamp st
  ∧ allowed_events st' = allowed_events st
  ∧ allowed_events_in_packet st' = allowed_events_in_packet st
  ∧ _file st' = _file st ∧ _file_path st' = _file_path st
  ∧ metadata st' = metadata st.
Proof. pass_cases; done. Qed.

(** The writes of a pass to [table_map]: none, the reset of a rotation,
    or the entry of a table map. *)
Lemma process_event_table_map st binlog_event :
  let st' := outcome_state (process_event st binlog_event) in
  table_map st' = table_map st
  ∨ (pkt_event_type binlog_event = ROTATE_EVENT
     ∧ passes_position_filters st binlog_event ∧ table_map st' = ∅)
  ∨ (∃ table_id table,
       pkt_event binlog_event = Some (TableMap table_id table)
       ∧ table_map st' = <[table_id := table]> (table_map st)).
Proof.
  pass_cases; naive_solver.
Qed.



(** Reading a packet writes the file, its position and the metadata
    side, nothing else. *)
Lemma read_binlog_event_keeps st st1 r :
  read_binlog_event st = (st1, r) →
  table_map st1 = table_map st ∧ log_pos st1 = log_pos st
  ∧ log_file st1 = log_file st ∧ start_pos st1 = start_pos st
  ∧ stop_pos st1 = stop_pos st
  ∧ skip_to_timestamp st1 = skip_to_timestamp st
  ∧ allowed_events st1 = allowed_events st
  ∧ allowed_events_in_packet st1 = allowed_events_in_packet st
  ∧ _file_path st1 = _file_path st.
Proof.
  unfold read_binlog_event, connect_to_stream. intros H.
  repeat (simplify_eq /=;
    match goal with
    | H : context [match ?x with _ => _ end] |- _ => destruct x eqn:?
    end); simplify_eq /=; done.
Qed.

Lemma process_event_return st binlog_event st' e :
  process_event st binlog_event = Return st' e →
  pkt_event binlog_event = Some e.
Proof. intros Hp. pass_cases; done. Qed.

(** A returned event is the event of a packet that a pass read, in a
    state with the configuration of the call. *)
Lemma fetchone_loop_return fuel st st' e :
  fetchone_loop fuel st = Some (st', Ok (Some e)) →
  ∃ st0 st1 binlog_event,
    read_binlog_event st0 = (st1, Ok (Some binlog_event))
    ∧ process_event st1 binlog_event = Return st' e
    ∧ pkt_event binlog_event = Some e
    ∧ start_pos st1 = start_pos st ∧ stop_pos st1 = stop_pos st
    ∧ skip_to_timestamp st1 = skip_to_timestamp st
    ∧ allowed_events st1 = allowed_events st.
Proof.
  revert st. induction fuel as [|fuel IH]; intros st Hloop; [done|].
  simpl in Hloop.
  destruct (read_binlog_event st) as [st1 [[be|]|x]] eqn:Hread;
    [|simplify_eq..].
  pose proof (read_binlog_event_keeps _ _ _ Hread)
    as (_ & _ & _ & Hs & He & Hk & Ha & _).
  pose proof (process_event_config st1 be) as (Hs' & He' & Hk' & Ha' & _).
  destruct (process_event st1 be) as [st2|st2|st2 e'|st2 x] eqn:Hp;
    simplify_eq /=.
  - destruct (IH _ Hloop) as (st0 & st3 & be' & ? & ? & ? & ? & ? & ? & ?).
    exists st0, st3, be'. repeat split; congruence.
  - exists st, st1, be. split; [done|]. split; [done|].
    split; [by eapply process_event_return|]. done.
Qed.


(** C10: when [ignored_events] lists a class that is not in the set at
    the time of its removal (the classes before it removed), the
    constructor raises [KeyError] from [_allowed_event_list]; the
    removal of [NotImplementedEvent] never raises, and changes nothing
    when the class is absent. *)
Theorem ignored_event_not_allowed_raises (a : init_args) (w : World)
    (pre : list event_class) (e : event_class) (post : list event_class)
    (events : gset event_class) :
  arg_ignored_events a = Some (pre ++ e :: post) →
  remove_each pre (selected_events (arg_only_events a)) = Ok events →
  e ∉ events →
  _allowed_event_list (arg_only_events a) (arg_ignored_events a)
    (arg_filter_non_implemented_events a) = Raise (KeyError e)
  ∧ @__init__ World Conn Table pymysql_wrapper execute a w
    = Raise (KeyError e)
  ∧ (∀ evs, ∃ evs', remove_not_implemented evs = Ok evs')
  ∧ (∀ evs, NotImplementedEvent ∉ evs → remove_not_implemented evs = Ok evs).
Proof.
  intros Hign Hpre Hout.
  assert (_allowed_event_list (arg_only_events a) (arg_ignored_events a)
            (arg_filter_non_implemented_events a) = Raise (KeyError e)) as Hraise.
  { unfold _allowed_event_list. rewrite Hign.
    rewrite (remove_each_app _ _ _ _ Hpre). simpl.
    by rewrite set_remove_absent. }
  split; [done|]. split; [unfold __init__; by rewrite Hraise|].
  split; intros evs.
  - eexists. apply remove_not_implemented_ok.
  - intros Habs. rewrite remove_not_implemented_ok. f_equal. set_solver.
Qed.

(** ** Frames *)

Lemma file_read_nonneg n bs :
  0 ≤ n → file_read n bs = Ok (take (Z.to_nat n) bs, drop (Z.to_nat n) bs).
Proof.
  intros Hn. unfold file_read.
  rewrite decide_False by lia. by rewrite decide_False by lia.
Qed.

(** Reading a frame raises nothing but [struct.error] and [ValueError]. *)
Lemma read_frame_raises bs rest x :
  read_frame bs = (rest, Raise x) → x = StructError ∨ x = ValueError.
Proof.
  unfold read_frame, file_read, unpack_header. intros H.
  repeat case_decide; repeat case_bool_decide; simplify_eq /=; auto.
Qed.

(** A frame that is read has a whole header and shortens the file. *)
Lemma read_frame_some bs rest h pkt :
  read_frame bs = (rest, Ok (Some (h, pkt))) →
  unpack_header (take 19 bs) = Ok h
  ∧ (19 ≤ length bs)%nat ∧ (length rest < length bs)%nat
  ∧ ∃ body, pkt = x30 :: take 19 bs ++ body.
Proof.
  unfold read_frame. rewrite file_read_nonneg by lia.
  change (Z.to_nat 19) with 19%nat.
  case_bool_decide; [done|].
  destruct (unpack_header (take 19 bs)) as [h'|] eqn:Hh; [|done].
  assert (length (take 19 bs) = 19%nat) as Hlen.
  { unfold unpack_header in Hh. by case_decide. }
  rewrite length_take in Hlen.
  assert (19 ≤ length bs)%nat as Hge by lia. clear Hlen.
  unfold file_read. repeat case_decide; intros; simplify_eq.
  - simpl. repeat split; [lia..|by eexists].
  - rewrite length_drop. repeat split; [lia| |by eexists].
    rewrite length_drop. lia.
Qed.

(** A header cut short: [struct.unpack] raises. *)
Lemma read_frame_partial_header bs :
  (0 < length bs < 19)%nat → read_frame bs = ([], Raise StructError).
Proof.
  intros Hlen. unfold read_frame. rewrite file_read_nonneg by lia.
  change (Z.to_nat 19) with 19%nat.
  rewrite take_ge, drop_ge by lia.
  rewrite bool_decide_eq_false_2 by (intros ->; simpl in Hlen; lia).
  unfold unpack_header. by rewrite decide_False by lia.
Qed.

(** A body cut short: the frame is read with the bytes there are. *)
Lemma read_frame_short_body bs h :
  unpack_header (take 19 bs) = Ok h →
  19 ≤ h_event_size h → (length bs < Z.to_nat (h_event_size h))%nat →
  read_frame bs = ([], Ok (Some (h, x30 :: bs))).
Proof.
  intros Hh Hsize Hlen.
  assert (length (take 19 bs) = 19%nat) as Hlen19.
  { unfold unpack_header in Hh. by case_decide. }
  assert (19 ≤ length bs)%nat as Hge by (rewrite length_take in Hlen19; lia).
  unfold read_frame. rewrite file_read_nonneg by lia.
  change (Z.to_nat 19) with 19%nat.
  rewrite bool_decide_eq_false_2
    by (intros Hnil; rewrite Hnil in Hlen19; simpl in Hlen19; lia).
  rewrite Hh. rewrite file_read_nonneg by lia.
  rewrite (take_ge (drop 19 bs)) by (rewrite length_drop; lia).
  rewrite (drop_ge (drop 19 bs)) by (rewrite length_drop; lia).
  by rewrite take_drop.
Qed.

(** A header that declares less than 18 bytes: the read of the body
    raises [ValueError]. *)
Lemma read_frame_small_event_size bs h :
  unpack_header (take 19 bs) = Ok h → h_event_size h < 18 →
  read_frame bs = (drop 19 bs, Raise ValueError).
Proof.
  intros Hh Hsize.
  assert (length (take 19 bs) = 19%nat) as Hlen19.
  { unfold unpack_header in Hh. by case_decide. }
  unfold read_frame. rewrite file_read_nonneg by lia.
  change (Z.to_nat 19) with 19%nat.
  rewrite bool_decide_eq_false_2
    by (intros Hnil; rewrite Hnil in Hlen19; simpl in Hlen19; lia).
  rewrite Hh. unfold file_read. by rewrite decide_True by lia.
Qed.

(** A header that declares 18 bytes: the body is the rest of the file. *)
Lemma read_frame_event_size_18 bs h :
  unpack_header (take 19 bs) = Ok h → h_event_size h = 18 →
  read_frame bs = ([], Ok (Some (h, x30 :: bs))).
Proof.
  intros Hh Hsize.
  assert (length (take 19 bs) = 19%nat) as Hlen19.
  { unfold unpack_header in Hh. by case_decide. }
  unfold read_frame. rewrite file_read_nonneg by lia.
  change (Z.to_nat 19) with 19%nat.
  rewrite bool_decide_eq_false_2
    by (intros Hnil; rewrite Hnil in Hlen19; simpl in Hlen19; lia).
  rewrite Hh. unfold file_read. rewrite decide_False by lia.
  rewrite decide_True by lia. by rewrite take_drop.
Qed.

(** The first pass on a file not yet opened, when the metadata side
    needs no connecting at line 160: the frame is read from behind the
    magic bytes. *)
Lemma read_binlog_event_first st tail :
  _file st = None →
  fs (_file_path st) = Some (_expected_magic ++ tail) →
  negb (connected_ctl (metadata st)) && settings_given (metadata st) = false →
  ∃ st1,
    _file st1 = Some tail
    ∧ read_binlog_event st =
      match read_frame tail with
      | (rest, Raise x) => (set_file (Some rest) st1, Raise x)
      | (rest, Ok None) => (set_file (Some rest) st1, Ok None)
      | (rest, Ok (Some (h, pkt))) =>
          let st3 := set_file (Some rest) st1 in
          match BinLogPacketWrapper pkt (table_map st3)
                  (use_checksum st3) (allowed_events_in_packet st3)
                  (only_tables st3) (ignored_tables st3)
                  (only_schemas st3) (ignored_schemas st3)
                  (freeze_schema st3)
                  (fail_on_table_metadata_unavailable st3)
                  (metadata st3) with
          | (c', Raise x) => (set_metadata c' st3, Raise x)
          | (c', Ok binlog_event) =>
              (set_metadata c' st3, Ok (Some binlog_event))
          end
      end.
Proof.
  intros Hfile Hfs Hset.
  unfold read_binlog_event, connect_to_stream.
  rewrite Hfile, Hfs. simpl.
  unfold connect_if_needed. simpl. rewrite Hset. simpl.
  rewrite drop_0.
  exists (set_metadata (metadata st)
            (set_pos (Some (0 + Z.of_nat 4))
               (set_file (Some tail)
                  (set_pos (Some 0)
                     (set_file (Some (_expected_magic ++ tail)) st))))).
  split; [done|].
  by destruct (read_frame tail) as [rest [[[h pkt]|]|x]].
Qed.

(** C3: a file that ends one to eighteen bytes into a header makes
    [fetchone] raise [struct.error], where the claim has a clean end of
    file; only the file that ends on a frame boundary, as the file of
    the four magic bytes, ends the stream with [None].  A whole header
    with a short body is not seen as truncated either: the frame goes to
    the decoder with the bytes there are. *)
Theorem partial_header_raises st tail :
  _file st = None →
  fs (_file_path st) = Some (_expected_magic ++ tail) →
  negb (connected_ctl (metadata st)) && settings_given (metadata st) = false →
  ((0 < length tail < 19)%nat →
     ∃ st', fetchone st = Some (st', Raise StructError))
  ∧ (tail = [] →
     ∃ st', fetchone st = Some (st', Ok None) ∧ _file st' = Some [])
  ∧ (∀ h, unpack_header (take 19 tail) = Ok h →
       19 ≤ h_event_size h → (length tail < Z.to_nat (h_event_size h))%nat →
       read_frame tail = ([], Ok (Some (h, x30 :: tail)))).
Proof.
  intros Hfile Hfs Hset.
  destruct (read_binlog_event_first st tail Hfile Hfs Hset) as (st1 & Hf1 & Hread).
  split; [|split].
  - intros Hlen. rewrite read_frame_partial_header in Hread by done.
    unfold fetchone. simpl. rewrite Hread. by eexists.
  - intros ->. unfold fetchone. simpl. rewrite Hread. simpl.
    by eexists.
  - intros h. apply read_frame_short_body.
Qed.

(** C4: no test of the declared size stands in [fetchone], and
    [EventSizeTooSmallError] is never raised: with an [event_size] below
    18 the read of the body raises [ValueError], with an [event_size] of
    18 the rest of the file is read as the body of the frame, and
    reading a frame raises no other exception than [struct.error] and
    [ValueError]. *)
Theorem event_size_too_small_not_raised st tail h :
  _file st = None →
  fs (_file_path st) = Some (_expected_magic ++ tail) →
  negb (connected_ctl (metadata st)) && settings_given (metadata st) = false →
  unpack_header (take 19 tail) = Ok h →
  (h_event_size h < 18 →
     ∃ st', fetchone st = Some (st', Raise ValueError))
  ∧ (h_event_size h = 18 →
     read_frame tail = ([], Ok (Some (h, x30 :: tail))))
  ∧ (∀ bs rest x, read_frame bs = (rest, Raise x) →
                  x ≠ EventSizeTooSmallError).
Proof.
  intros Hfile Hfs Hset Hh.
  destruct (read_binlog_event_first st tail Hfile Hfs Hset) as (st1 & Hf1 & Hread).
  split; [|split].
  - intros Hsize. rewrite (read_frame_small_event_size _ _ Hh Hsize) in Hread.
    unfold fetchone. simpl. rewrite Hread. by eexists.
  - by apply read_frame_event_size_18.
  - intros bs rest x [->| ->]%read_frame_raises; done.
Qed.


(** ** The metadata lookup *)

(** After a first attempt that fails with an expected code, the
    connection is marked closed and there is one more attempt, which
    connects again; its rows or its other exception are the result. *)
Lemma table_information_retry ivc schema table c c1 code message :
  table_information_attempt ivc schema table c
    = (c1, Raise (OperationalError code message)) →
  code ∈ MYSQL_EXPECTED_ERROR_CODES →
  __get_table_information ivc schema table c =
    match table_information_attempt ivc schema table
            (set_connected_ctl false c1) with
    | (c2, Ok rows) => (c2, Ok (Some rows))
    | (c2, Raise (OperationalError code2 message2)) =>
        if bool_decide (code2 ∈ MYSQL_EXPECTED_ERROR_CODES)
        then (set_connected_ctl false c2, Ok None)
        else (c2, Raise (OperationalError code2 message2))
    | (c2, Raise x) => (c2, Raise x)
    end.
Proof.
  intros H1 Hcode. unfold __get_table_information. simpl.
  rewrite H1. rewrite bool_decide_eq_true_2 by done.
  destruct (table_information_attempt _ _ _ _) as [c2 [rows|[]]]; done.
Qed.

(** An [OperationalError] with another code goes to the caller from the
    first attempt. *)
Lemma table_information_other_code ivc schema table c c1 code message :
  table_information_attempt ivc schema table c
    = (c1, Raise (OperationalError code message)) →
  code ∉ MYSQL_EXPECTED_ERROR_CODES →
  __get_table_information ivc schema table c
    = (c1, Raise (OperationalError code message)).
Proof.
  intros H1 Hcode. unfold __get_table_information. simpl.
  rewrite H1. by rewrite bool_decide_eq_false_2.
Qed.

(** C5: when the first attempt and the one retry both fail with an
    expected code, the loop runs out and the lookup returns [None] with
    the connection marked closed: nothing is raised to the caller. *)
Theorem transient_error_twice_returns_none ivc schema table c c1 c2
    code1 message1 code2 message2 :
  table_information_attempt ivc schema table c
    = (c1, Raise (OperationalError code1 message1)) →
  code1 ∈ MYSQL_EXPECTED_ERROR_CODES →
  table_information_attempt ivc schema table (set_connected_ctl false c1)
    = (c2, Raise (OperationalError code2 message2)) →
  code2 ∈ MYSQL_EXPECTED_ERROR_CODES →
  __get_table_information ivc schema table c
    = (set_connected_ctl false c2, Ok None).
Proof.
  intros H1 Hc1 H2 Hc2.
  rewrite (table_information_retry _ _ _ _ _ _ _ H1 Hc1), H2.
  by rewrite bool_decide_eq_true_2.
Qed.

(** ** Termination of the loop *)

Lemma read_frame_length bs rest r :
  read_frame bs = (rest, r) → (length rest ≤ length bs)%nat.
Proof.
  unfold read_frame, file_read. intros H.
  repeat case_decide; repeat case_bool_decide;
    repeat (simplify_eq;
      match goal with
      | H : context [match ?x with _ => _ end] |- _ => destruct x eqn:?
      end); simplify_eq; rewrite ?length_drop; simpl; lia.
Qed.

(** A pass that reads a packet shortens the file. *)
Lemma read_binlog_event_unread st st1 r :
  read_binlog_event st = (st1, r) →
  (unread st1 ≤ unread st)%nat
  ∧ (∀ be, r = Ok (Some be) → (unread st1 < unread st)%nat).
Proof.
  unfold read_binlog_event, connect_to_stream, unread.
  intros H.
  repeat (simplify_eq /=;
    match goal with
    | H : context [match ?x with _ => _ end] |- _ => destruct x eqn:?
    end); simplify_eq /=.
  all: repeat match goal with
    | H : read_frame _ = (_, Ok (Some _)) |- _ =>
        apply read_frame_some in H as (_ & ? & ? & _)
    | H : read_frame _ = _ |- _ => apply read_frame_length in H
    end.
  all: rewrite ?length_drop in *.
  all: repeat match goal with
    | H : _file _ = _ |- _ => rewrite H
    | H : fs _ = _ |- _ => rewrite H
    end; simpl.
  all: split; [lia | intros; simplify_eq; lia].
Qed.

Lemma process_event_unread st be :
  unread (outcome_state (process_event st be)) = unread st.
Proof.
  pose proof (process_event_config st be) as (_ & _ & _ & _ & _ & Hf & Hp & _).
  unfold unread. by rewrite Hf, Hp.
Qed.

(** With more fuel than unread bytes [fetchone] returns: its loop ends. *)
Lemma fetchone_loop_total fuel st :
  (unread st < fuel)%nat →
  ∃ st' r, fetchone_loop fuel st = Some (st', r)
           ∧ (unread st' ≤ unread st)%nat
           ∧ (∀ e, r = Ok (Some e) → (unread st' < unread st)%nat).
Proof.
  revert st. induction fuel as [|fuel IH]; intros st Hfuel; [lia|].
  simpl.
  destruct (read_binlog_event st) as [st1 [[be|]|x]] eqn:Hread;
    pose proof (read_binlog_event_unread _ _ _ Hread) as (Hle & Hlt).
  - specialize (Hlt be eq_refl).
    pose proof (process_event_unread st1 be) as Hu.
    destruct (process_event st1 be) as [st2|st2|st2 e|st2 x]; simpl in Hu.
    + destruct (IH st2) as (st' & r & -> & Hle' & Hlt'); [lia|].
      exists st', r. split; [done|]. split; [lia|].
      intros e He. specialize (Hlt' e He). lia.
    + exists st2, (Ok None). split; [done|]. split; [lia|done].
    + exists st2, (Ok (Some e)). split; [done|]. split; [lia|]. intros; lia.
    + exists st2, (Raise x). split; [done|]. split; [lia|done].
  - exists st1, (Ok None). split; [done|]. split; [lia|done].
  - exists st1, (Raise x). split; [done|]. split; [lia|done].
Qed.

Lemma fetchone_total st : ∃ st' r, fetchone st = Some (st', r).
Proof.
  destruct (fetchone_loop_total (S (unread st)) st) as (st' & r & H & _);
    [lia | by exists st', r].
Qed.

(** Beyond the unread bytes the fuel does not matter. *)
Lemma fetchone_loop_fuel f1 f2 st :
  (unread st < f1)%nat → (unread st < f2)%nat →
  fetchone_loop f1 st = fetchone_loop f2 st.
Proof.
  revert f2 st. induction f1 as [|f1 IH]; intros [|f2] st H1 H2; [lia..|].
  simpl.
  destruct (read_binlog_event st) as [st1 [[be|]|x]] eqn:Hread; [|done..].
  pose proof (read_binlog_event_unread _ _ _ Hread) as (_ & Hlt).
  specialize (Hlt be eq_refl).
  pose proof (process_event_unread st1 be) as Hu.
  destruct (process_event st1 be) as [st2|st2|st2 e|st2 x]; simpl in Hu;
    [|done..].
  apply IH; lia.
Qed.

Lemma emitted_fuel f1 f2 st :
  (unread st < f1)%nat → (unread st < f2)%nat →
  emitted f1 st = emitted f2 st.
Proof.
  revert f2 st. induction f1 as [|f1 IH]; intros [|f2] st H1 H2; [lia..|].
  simpl.
  destruct (read_binlog_event st) as [st1 [[be|]|x]] eqn:Hread; [|done..].
  pose proof (read_binlog_event_unread _ _ _ Hread) as (_ & Hlt).
  specialize (Hlt be eq_refl).
  pose proof (process_event_unread st1 be) as Hu.
  destruct (process_event st1 be) as [st2|st2|st2 e|st2 x]; simpl in Hu;
    [|done| |done].
  - apply IH; lia.
  - f_equal. apply IH; lia.
Qed.

(** A call of [fetchone] gives the first of the events of the passes. *)
Lemma fetchone_loop_emitted fuel st st' r f :
  fetchone_loop fuel st = Some (st', r) → (unread st < f)%nat →
  match r with
  | Ok (Some e) =>
      ∀ f', (unread st' < f')%nat → emitted f st = e :: emitted f' st'
  | _ => emitted f st = []
  end.
Proof.
  revert st f. induction fuel as [|fuel IH]; intros st [|f] Hloop Hf;
    [done|done|lia|].
  simpl in *.
  destruct (read_binlog_event st) as [st1 [[be|]|x]] eqn:Hread;
    [|by simplify_eq..].
  pose proof (read_binlog_event_unread _ _ _ Hread) as (_ & Hlt).
  specialize (Hlt be eq_refl).
  pose proof (process_event_unread st1 be) as Hu.
  destruct (process_event st1 be) as [st2|st2|st2 e|st2 x]; simpl in Hu;
    simplify_eq; [|done| |done].
  - apply IH; [done|lia].
  - intros f' Hf'. f_equal. apply emitted_fuel; lia.
Qed.

(** The events of [__iter__] are those of the passes. *)
Lemma iter_loop_emitted calls st st' es r f :
  iter_loop calls st = Some (st', es, r) → (unread st < f)%nat →
  es = emitted f st.
Proof.
  revert st st' es r f.
  induction calls as [|calls IH]; intros st st' es r f H Hfuel; [done|].
  simpl in H.
  destruct (fetchone st) as [[st1 [[e|]|x]]|] eqn:Hf; [| | |done].
  - destruct (iter_loop calls st1) as [[[st2 es2] r2]|] eqn:Hi; [|done].
    simplify_eq.
    pose proof (fetchone_loop_emitted _ _ _ _ f Hf Hfuel) as Hem.
    simpl in Hem. rewrite (Hem (S (unread st1))) by lia.
    f_equal. eapply IH; [done|lia].
  - simplify_eq. symmetry.
    apply (fetchone_loop_emitted _ _ _ _ f Hf Hfuel).
  - simplify_eq. symmetry.
    apply (fetchone_loop_emitted _ _ _ _ f Hf Hfuel).
Qed.

Lemma iter_loop_total calls st :
  (unread st < calls)%nat → ∃ st' es r, iter_loop calls st = Some (st', es, r).
Proof.
  revert st. induction calls as [|calls IH]; intros st Hc; [lia|].
  simpl.
  destruct (fetchone_loop_total (S (unread st)) st) as (st1 & r1 & Hf & _ & Hlt);
    [lia|].
  unfold fetchone. rewrite Hf.
  destruct r1 as [[e|]|x]; [|by eexists _, _, _..].
  destruct (IH st1) as (st2 & es & r & ->); [specialize (Hlt e eq_refl); lia|].
  by eexists _, _, _.
Qed.

(** [__iter__] ends, and yields the events of the passes. *)
Lemma iter_emitted st :
  ∃ st' r, __iter__ pymysql_wrapper fs BinLogPacketWrapper st
           = Some (st', emitted (S (unread st)) st, r).
Proof.
  destruct (iter_loop_total (S (unread st)) st) as (st' & es & r & H); [lia|].
  exists st', r. unfold __iter__. rewrite H.
  by rewrite (iter_loop_emitted _ _ _ _ _ (S (unread st)) H) by lia.
Qed.


(** What a pass that reads a packet does: it reads a frame from the
    bytes ahead and decodes it with the sets and filters of the reader. *)
Lemma read_binlog_event_some st st1 be :
  read_binlog_event st = (st1, Ok (Some be)) →
  ∃ h pkt c c',
    read_frame (ahead fs st) = (ahead fs st1, Ok (Some (h, pkt)))
    ∧ BinLogPacketWrapper pkt (table_map st) (use_checksum st)
        (allowed_events_in_packet st) (only_tables st) (ignored_tables st)
        (only_schemas st) (ignored_schemas st) (freeze_schema st)
        (fail_on_table_metadata_unavailable st) c = (c', Ok be).
Proof.
  unfold read_binlog_event, connect_to_stream, ahead.
  intros H.
  repeat (simplify_eq /=;
    match goal with
    | H : context [match ?x with _ => _ end] |- _ => destruct x eqn:?
    end); simplify_eq /=.
  all: repeat match goal with
    | H : _file _ = _ |- _ => rewrite H
    | H : fs _ = _ |- _ => rewrite H
    end; simpl; rewrite ?drop_0; eauto 10.
Qed.

(** Without a [start_pos] no event is returned. *)
Lemma emitted_no_start_pos fuel st :
  start_pos st = None → emitted fuel st = [].
Proof.
  revert st. induction fuel as [|fuel IH]; intros st Hs; [done|].
  simpl.
  destruct (read_binlog_event st) as [st1 [[be|]|x]] eqn:Hread; [|done..].
  apply read_binlog_event_keeps in Hread as (_ & _ & _ & Hs1 & _).
  rewrite Hs in Hs1.
  pose proof (process_event_config st1 be) as (Hs2 & _).
  destruct (process_event st1 be) as [st2|st2|st2 e|st2 x] eqn:Hp;
    simpl in Hs2; [|done| |done].
  - apply IH. congruence.
  - exfalso. clear -Hp Hs1. pass_cases.
Qed.

(** The pass that reads a frame of the bytes ahead and decodes it. *)
Lemma read_binlog_event_frame st bs rest h pkt c' binlog_event :
  at_frames st bs →
  negb (connected_ctl (metadata st)) && settings_given (metadata st) = false →
  read_frame bs = (rest, Ok (Some (h, pkt))) →
  BinLogPacketWrapper pkt (table_map st) (use_checksum st)
    (allowed_events_in_packet st) (only_tables st) (ignored_tables st)
    (only_schemas st) (ignored_schemas st) (freeze_schema st)
    (fail_on_table_metadata_unavailable st) (metadata st)
  = (c', Ok binlog_event) →
  ∃ st1,
    read_binlog_event st = (st1, Ok (Some binlog_event))
    ∧ _file st1 = Some rest ∧ metadata st1 = c'.
Proof.
  intros Hat Hconn Hframe Hdec.
  destruct Hat as [Hfile|[Hfile Hfs]].
  - unfold read_binlog_event.
    rewrite Hfile. rewrite bool_decide_false by done.
    unfold connect_if_needed. rewrite Hconn. simpl. rewrite Hfile, Hframe.
    simpl. rewrite Hdec. eexists. split; [done|]. done.
  - unfold read_binlog_event, connect_to_stream.
    rewrite Hfile, Hfs. simpl.
    unfold connect_if_needed. simpl. rewrite Hconn. simpl.
    rewrite drop_0, Hframe. simpl. rewrite Hdec.
    eexists. split; [done|]. done.
Qed.

(** At the end of the file a call returns [None] and changes nothing. *)
Lemma fetchone_loop_end_of_file fuel st :
  _file st = Some [] →
  negb (connected_ctl (metadata st)) && settings_given (metadata st) = false →
  ∃ st', fetchone_loop (S fuel) st = Some (st', Ok None)
         ∧ table_map st' = table_map st ∧ log_file st' = log_file st
         ∧ log_pos st' = log_pos st ∧ _file st' = Some [].
Proof.
  intros Hfile Hconn. simpl. unfold read_binlog_event.
  rewrite Hfile. rewrite bool_decide_false by done.
  unfold connect_if_needed. rewrite Hconn. simpl. rewrite Hfile. simpl.
  eexists. split; [done|]. done.
Qed.

(** A rotation that passes the position filters, as a pass ends it. *)
Lemma process_event_rotation st binlog_event position next_binlog :
  pkt_event_type binlog_event = ROTATE_EVENT →
  pkt_event binlog_event = Some (Rotate position next_binlog) →
  passes_position_filters st binlog_event →
  let st' := set_table_map ∅
               (set_log_file (Some next_binlog)
                  (set_log_pos (Some position) st)) in
  process_event st binlog_event
  = if negb (before_skip_to_timestamp st binlog_event)
       && bool_decide (RotateEvent ∈ allowed_events st)
    then Return st' (Rotate position next_binlog)
    else Continue st'.
Proof.
  intros Htype Hev Hpass st'. subst st'.
  destruct (before_skip_to_timestamp st binlog_event) eqn:Hskip;
    destruct (bool_decide (RotateEvent ∈ allowed_events st)) eqn:Hallowed;
    simpl;
    pass_cases; try (unfold ROTATE_EVENT, TABLE_MAP_EVENT in *; congruence);
    try done.
Qed.

(** The position filters read the configuration alone. *)
Lemma passes_position_filters_config st st1 binlog_event :
  start_pos st1 = start_pos st → stop_pos st1 = stop_pos st →
  passes_position_filters st binlog_event →
  passes_position_filters st1 binlog_event.
Proof.
  unfold passes_position_filters, log_pos_before_start, reached_stop_pos.
  by intros -> ->.
Qed.

(** A call whose passes hold no rotation past the position filters
    loses no table id; a call whose last pass is such a rotation ends
    with the state that the rotation leaves. *)
Lemma fetchone_loop_table_map fuel st st2 r :
  fetchone_loop fuel st = Some (st2, r) →
  (Forall (λ p, ¬ (pkt_event_type p.2 = ROTATE_EVENT
                   ∧ passes_position_filters p.1 p.2)) (passes fuel st) →
   dom (table_map st) ⊆ dom (table_map st2))
  ∧ (∀ s rotation position next_binlog,
       last (passes fuel st) = Some (s, rotation) →
       pkt_event_type rotation = ROTATE_EVENT →
       pkt_event rotation = Some (Rotate position next_binlog) →
       passes_position_filters s rotation →
       table_map st2 = ∅ ∧ log_file st2 = Some next_binlog
       ∧ log_pos st2 = Some position).
Proof.
  revert st. induction fuel as [|fuel IH]; intros st Hloop; [done|].
  simpl in Hloop. simpl.
  destruct (read_binlog_event st) as [st1 [[be|]|x]] eqn:Hread;
    pose proof (read_binlog_event_keeps _ _ _ Hread) as (Htm & _).
  2,3: simplify_eq; split; [by rewrite Htm|done].
  split.
  - intros Hall. apply Forall_cons in Hall as [Hbe Hall]. simpl in Hbe.
    assert (dom (table_map st)
            ⊆ dom (table_map (outcome_state (process_event st1 be))))
      as Hsub.
    { destruct (process_event_table_map st1 be)
        as [Hsame|[(? & ? & _)|(table_id & table & _ & Hput)]].
      - by rewrite Hsame, Htm.
      - by destruct Hbe.
      - rewrite Hput, dom_insert_L, Htm. set_solver. }
    destruct (process_event st1 be) as [st3|st3|st3 e|st3 x];
      simplify_eq /=; [|done..].
    destruct (IH _ Hloop) as [Hdom _]. specialize (Hdom Hall). set_solver.
  - intros s rotation position next_binlog Hlast Htype Hev Hpass.
    destruct (process_event st1 be) as [st3|st3|st3 e|st3 x] eqn:Hp.
    + destruct (passes fuel st3) as [|p l] eqn:Hpasses.
      * simpl in Hlast. simplify_eq.
        rewrite (process_event_rotation _ _ _ _ Htype Hev Hpass) in Hp.
        assert (st3 = set_table_map ∅
                        (set_log_file (Some next_binlog)
                           (set_log_pos (Some position) s))) as ->
          by (destruct (_ && _); by simplify_eq).
        clear Hp. destruct fuel as [|fuel]; [done|].
        simpl in Hloop, Hpasses.
        destruct (read_binlog_event
                    (set_table_map ∅
                       (set_log_file (Some next_binlog)
                          (set_log_pos (Some position) s))))
          as [st4 [[be'|]|x]] eqn:Hread';
          [done| |];
          apply read_binlog_event_keeps in Hread' as (Ht & Hp & Hf & _);
          simplify_eq; by rewrite Ht, Hp, Hf.
      * rewrite last_cons in Hlast.
        destruct (IH _ Hloop) as [_ Hrot].
        rewrite Hpasses in Hrot.
        destruct (last (p :: l)) as [p'|] eqn:Hl; [|by apply last_None in Hl].
        simplify_eq. by eapply Hrot.
    + simpl in Hlast. simplify_eq.
      rewrite (process_event_rotation _ _ _ _ Htype Hev Hpass) in Hp.
      by destruct (_ && _).
    + simpl in Hlast. simplify_eq.
      rewrite (process_event_rotation _ _ _ _ Htype Hev Hpass) in Hp.
      destruct (_ && _); by simplify_eq.
    + simpl in Hlast. simplify_eq.
      rewrite (process_event_rotation _ _ _ _ Htype Hev Hpass) in Hp.
      by destruct (_ && _).
Qed.



(** C1: a rotation that passes the position filters sets [log_file] to
    its [next_binlog] and [log_pos] to its position and empties
    [table_map], whether the pass then drops or returns it; a pass that
    is not such a rotation keeps every entry of [table_map] (it writes
    at most the entry of a table map) and reading a packet does not
    touch [table_map].  For a call of [fetchone]: when none of its passes
    is such a rotation, no table id is lost between the states before
    and after the call; when its last pass is such a rotation, the call
    ends with [table_map] empty and [log_file] and [log_pos] set from the
    rotation.  And from the bytes of the file: when the frame ahead
    decodes to such a rotation, the call returns the rotation or goes on
    behind the frame, in both cases from a state with [table_map] empty
    and [log_file] and [log_pos] set; and the call returns. *)
Theorem rotate_resets_table_map st binlog_event :
  let st' := outcome_state (process_event st binlog_event) in
  (∀ position next_binlog,
     pkt_event_type binlog_event = ROTATE_EVENT →
     pkt_event binlog_event = Some (Rotate position next_binlog) →
     passes_position_filters st binlog_event →
     log_file st' = Some next_binlog ∧ log_pos st' = Some position
     ∧ table_map st' = ∅
     ∧ (process_event st binlog_event = Continue st'
        ∨ process_event st binlog_event
          = Return st' (Rotate position next_binlog)))
  ∧ (¬ (pkt_event_type binlog_event = ROTATE_EVENT
        ∧ passes_position_filters st binlog_event) →
     (table_map st' = table_map st
      ∨ ∃ table_id table,
          pkt_event binlog_event = Some (TableMap table_id table)
          ∧ table_map st' = <[table_id := table]> (table_map st))
     ∧ dom (table_map st) ⊆ dom (table_map st'))
  ∧ (∀ st1 r, read_binlog_event st = (st1, r) → table_map st1 = table_map st)
  ∧ (∀ fuel st2 r,
       fetchone_loop fuel st = Some (st2, r) →
       (Forall (λ p, ¬ (pkt_event_type p.2 = ROTATE_EVENT
                        ∧ passes_position_filters p.1 p.2))
          (passes fuel st) →
        dom (table_map st) ⊆ dom (table_map st2))
       ∧ (∀ s rotation position next_binlog,
            last (passes fuel st) = Some (s, rotation) →
            pkt_event_type rotation = ROTATE_EVENT →
            pkt_event rotation = Some (Rotate position next_binlog) →
            passes_position_filters s rotation →
            table_map st2 = ∅ ∧ log_file st2 = Some next_binlog
            ∧ log_pos st2 = Some position))
  ∧ (∀ bs rest h pkt c' position next_binlog,
       at_frames st bs →
       negb (connected_ctl (metadata st)) && settings_given (metadata st)
         = false →
       read_frame bs = (rest, Ok (Some (h, pkt))) →
       BinLogPacketWrapper pkt (table_map st) (use_checksum st)
         (allowed_events_in_packet st) (only_tables st) (ignored_tables st)
         (only_schemas st) (ignored_schemas st) (freeze_schema st)
         (fail_on_table_metadata_unavailable st) (metadata st)
       = (c', Ok binlog_event) →
       pkt_event_type binlog_event = ROTATE_EVENT →
       pkt_event binlog_event = Some (Rotate position next_binlog) →
       passes_position_filters st binlog_event →
       ∃ st1,
         table_map st1 = ∅ ∧ log_file st1 = Some next_binlog
         ∧ log_pos st1 = Some position ∧ _file st1 = Some rest
         ∧ (∀ fuel,
              fetchone_loop (S fuel) st
              = if negb (before_skip_to_timestamp st binlog_event)
                   && bool_decide (RotateEvent ∈ allowed_events st)
                then Some (st1, Ok (Some (Rotate position next_binlog)))
                else fetchone_loop fuel st1)
         ∧ ∃ st2 r, fetchone st = Some (st2, r)).
Proof.
  intros st'. split; [|split; [|split; [|split]]].
  - intros position next_binlog Htype Hev Hpass. subst st'.
    pass_cases; try (unfold ROTATE_EVENT, TABLE_MAP_EVENT in *; congruence);
      naive_solver.
  - intros Hnot.
    assert (table_map st' = table_map st
      ∨ ∃ table_id table,
          pkt_event binlog_event = Some (TableMap table_id table)
          ∧ table_map st' = <[table_id := table]> (table_map st)) as Hw.
    { destruct (process_event_table_map st binlog_event)
        as [?|[(? & ? & ?)|?]]; [by left | by destruct Hnot | by right]. }
    split; [done|].
    destruct Hw as [->|(table_id & table & _ & ->)]; [done|].
    rewrite dom_insert_L. set_solver.
  - intros st1 r Hr. by apply read_binlog_event_keeps in Hr as (? & _).
  - intros fuel st2 r Hloop. exact (fetchone_loop_table_map _ _ _ _ Hloop).
  - clear st'.
    intros bs rest h pkt c' position next_binlog Hat Hconn Hframe Hdec
      Htype Hev Hpass.
    destruct (read_binlog_event_frame _ _ _ _ _ _ _ Hat Hconn Hframe Hdec)
      as (st1 & Hread & Hfile & _).
    pose proof (read_binlog_event_keeps _ _ _ Hread)
      as (_ & _ & _ & Hs & He & Hk & Ha & _).
    assert (passes_position_filters st1 binlog_event) as Hpass1
      by (by eapply passes_position_filters_config).
    pose proof (process_event_rotation _ _ _ _ Htype Hev Hpass1) as Hp.
    assert (before_skip_to_timestamp st1 binlog_event
            = before_skip_to_timestamp st binlog_event) as Hskip
      by (unfold before_skip_to_timestamp; by rewrite Hk).
    rewrite Hskip, Ha in Hp.
    exists (set_table_map ∅
              (set_log_file (Some next_binlog)
                 (set_log_pos (Some position) st1))).
    do 4 (split; [done|]). split; [|apply fetchone_total].
    intros fuel. simpl. rewrite Hread, Hp.
    by destruct (negb (before_skip_to_timestamp st binlog_event)
                 && bool_decide (RotateEvent ∈ allowed_events st)).
Qed.

(** C7: the test of [skip_to_timestamp] comes after the handling of a
    rotation: a rotation that passes the position filters and whose
    timestamp is below a positive [skip_to_timestamp] is dropped, the
    loop going on, but only after [log_pos] and [log_file] are set from
    it and [table_map] is emptied.  From the bytes of the file: when the
    frame ahead decodes to such a rotation, the call of [fetchone] goes
    on behind the frame from a state with [table_map] empty and
    [log_file] and [log_pos] set from the rotation, and when the file
    ends with that frame the call returns [None] in such a state. *)
Theorem skip_to_timestamp_after_rotate st binlog_event position next_binlog ts :
  pkt_event_type binlog_event = ROTATE_EVENT →
  pkt_event binlog_event = Some (Rotate position next_binlog) →
  passes_position_filters st binlog_event →
  skip_to_timestamp st = Some ts → 0 < ts →
  pkt_timestamp binlog_event < ts →
  (∃ st',
     process_event st binlog_event = Continue st'
     ∧ log_file st' = Some next_binlog ∧ log_pos st' = Some position
     ∧ table_map st' = ∅
     ∧ ∀ st0 fuel,
         read_binlog_event st0 = (st, Ok (Some binlog_event)) →
         fetchone_loop (S fuel) st0 = fetchone_loop fuel st')
  ∧ (∀ bs rest h pkt c',
       at_frames st bs →
       negb (connected_ctl (metadata st)) && settings_given (metadata st)
         = false →
       read_frame bs = (rest, Ok (Some (h, pkt))) →
       BinLogPacketWrapper pkt (table_map st) (use_checksum st)
         (allowed_events_in_packet st) (only_tables st) (ignored_tables st)
         (only_schemas st) (ignored_schemas st) (freeze_schema st)
         (fail_on_table_metadata_unavailable st) (metadata st)
       = (c', Ok binlog_event) →
       ∃ st1,
         table_map st1 = ∅ ∧ log_file st1 = Some next_binlog
         ∧ log_pos st1 = Some position ∧ _file st1 = Some rest
         ∧ (∀ fuel, fetchone_loop (S fuel) st = fetchone_loop fuel st1)
         ∧ (rest = [] →
            negb (connected_ctl c') && settings_given c' = false →
            ∃ st2, fetchone st = Some (st2, Ok None)
                   ∧ table_map st2 = ∅ ∧ log_file st2 = Some next_binlog
                   ∧ log_pos st2 = Some position)).
Proof.
  intros Htype Hev Hpass Hts Hpos Hlt.
  assert (∀ s : reader World Conn Table,
               passes_position_filters s binlog_event →
               skip_to_timestamp s = Some ts →
    process_event s binlog_event
    = Continue (set_table_map ∅
                  (set_log_file (Some next_binlog)
                     (set_log_pos (Some position) s)))) as Hdrop.
  { intros s Hpass' Hts'.
    rewrite (process_event_rotation _ _ _ _ Htype Hev Hpass').
    assert (before_skip_to_timestamp s binlog_event = true) as ->; [|done].
    unfold before_skip_to_timestamp, truthy. rewrite Hts'. simpl.
    apply andb_true_iff. split.
    - apply negb_true_iff, Z.eqb_neq. lia.
    - apply Z.ltb_lt. lia. }
  split.
  - eexists. split; [by apply Hdrop|]. do 3 (split; [done|]).
    intros st0 fuel Hread. simpl. by rewrite Hread, Hdrop.
  - intros bs rest h pkt c' Hat Hconn Hframe Hdec.
    destruct (read_binlog_event_frame _ _ _ _ _ _ _ Hat Hconn Hframe Hdec)
      as (st1 & Hread & Hfile & Hmeta).
    pose proof (read_binlog_event_keeps _ _ _ Hread)
      as (_ & _ & _ & Hs & He & Hk & _).
    assert (passes_position_filters st1 binlog_event) as Hpass1
      by (by eapply passes_position_filters_config).
    assert (skip_to_timestamp st1 = Some ts) as Hts1 by congruence.
    pose proof (Hdrop _ Hpass1 Hts1) as Hp.
    assert (∀ fuel, fetchone_loop (S fuel) st
      = fetchone_loop fuel
          (set_table_map ∅
             (set_log_file (Some next_binlog)
                (set_log_pos (Some position) st1)))) as Hgo.
    { intros fuel. simpl. by rewrite Hread, Hp. }
    exists (set_table_map ∅
              (set_log_file (Some next_binlog)
                 (set_log_pos (Some position) st1))).
    do 4 (split; [done|]). split; [exact Hgo|].
    intros -> Hconn'.
    destruct (fetchone_loop_end_of_file (unread st - 1)
                (set_table_map ∅
                   (set_log_file (Some next_binlog)
                      (set_log_pos (Some position) st1))))
      as (st2 & Hend & Ht & Hf & Hl & _); [done|by simpl; rewrite Hmeta|].
    exists st2. split; [|by rewrite Ht, Hf, Hl].
    unfold fetchone. rewrite Hgo.
    assert (unread st = S (unread st - 1)) as ->; [|done].
    apply read_binlog_event_unread in Hread as [_ Hlt'].
    specialize (Hlt' _ eq_refl). lia.
Qed.



End Pass.

(** ** The flag [filter_non_implemented_events] *)

Section Filter.

Context {World Conn Table Payload : Type}.
Variable pymysql_wrapper : settings → World → World * result Conn.
Variable execute : Conn → query → World → World * result (list row).
Variable fs : string → option (list byte).
Variable parse_event :
  event_class → header → list byte → gmap Z Table → bool →
  option (list string) → option (list string) →
  option (list string) → option (list string) →
  bool → bool → ctl World Conn →
  ctl World Conn * result (option (event Table Payload)).
Variable not_implemented : Payload.

Abbreviation decoder := (packet_wrapper parse_event not_implemented).
Abbreviation read_binlog_event :=
  (read_binlog_event pymysql_wrapper fs decoder).
Abbreviation emitted := (emitted pymysql_wrapper fs decoder).
Abbreviation __iter__ := (__iter__ pymysql_wrapper fs decoder).
Abbreviation ahead := (ahead fs).
Abbreviation wni := without_not_implemented.

Implicit Types (st : reader World Conn Table)
  (be : packet Table Payload) (e : event Table Payload).

(** The decoder reads [log_pos] from the header of the frame. *)
Lemma packet_wrapper_log_pos bs rest h pkt tm cks allowed ot it os is_ fz fl c c' be :
  read_frame bs = (rest, Ok (Some (h, pkt))) →
  decoder pkt tm cks allowed ot it os is_ fz fl c = (c', Ok be) →
  pkt_log_pos be = h_log_pos h.
Proof.
  intros Hframe Hdec.
  apply read_frame_some in Hframe as (Hh & Hlen & _ & body & ->).
  unfold packet_wrapper in Hdec. simpl in Hdec.
  rewrite drop_0 in Hdec.
  rewrite take_app_le in Hdec by (rewrite length_take; lia).
  rewrite take_take in Hdec. change (19 `min` 19)%nat with 19%nat in Hdec.
  rewrite Hh in Hdec.
  repeat case_bool_decide; simplify_eq /=; [done| |done].
  destruct (parse_event _ _ _ _ _ _ _ _ _ _ _ _) as [c1 [ev|x]];
    by simplify_eq /=.
Qed.

(** The decoder without [NotImplementedEvent] in its set: the same
    packet, or the packet without its event where the decoder with the
    class makes a [NotImplementedEvent]. *)
Lemma packet_wrapper_without pkt tm cks allowed ot it os is_ fz fl c c' r :
  decoder pkt tm cks allowed ot it os is_ fz fl c = (c', r) →
  decoder pkt tm cks (allowed ∖ {[NotImplementedEvent]}) ot it os is_ fz fl c
    = (c', r)
  ∨ ∃ be, r = Ok be ∧ c' = c
      ∧ pkt_event be = Some (Other NotImplementedEvent not_implemented)
      ∧ event_map (pkt_event_type be) = NotImplementedEvent
      ∧ decoder pkt tm cks (allowed ∖ {[NotImplementedEvent]})
          ot it os is_ fz fl c = (c, Ok (without_event be)).
Proof.
  unfold packet_wrapper. intros H.
  destruct (unpack_header _) as [h|x]; [|by left].
  destruct (decide (event_map (h_event_type h) = NotImplementedEvent)) as [Hni|Hni].
  - rewrite Hni in *.
    rewrite (bool_decide_eq_false_2 (_ ∈ _ ∖ _)) by set_solver.
    case_bool_decide; simplify_eq /=; [|by left].
    right. eexists. repeat split; done.
  - left. rewrite <- H.
    destruct (decide (event_map (h_event_type h) ∈ allowed)).
    + rewrite !(bool_decide_eq_true_2 (_ ∈ _)) by set_solver. done.
    + rewrite !(bool_decide_eq_false_2 (_ ∈ _)) by set_solver. done.
Qed.


Lemma connect_to_stream_without lp st :
  connect_to_stream fs (wni lp st) =
  (wni lp (connect_to_stream fs st).1, (connect_to_stream fs st).2).
Proof.
  unfold connect_to_stream. simpl.
  destruct (_file st) as [bs|] eqn:Hf; simpl.
  - case_bool_decide; [|done]. simpl. rewrite Hf.
    by case_bool_decide.
  - destruct (fs (_file_path st)); [|done]. simpl.
    by case_bool_decide.
Qed.

(** Reading a packet without [NotImplementedEvent] in the sets. *)
Lemma read_binlog_event_without lp st st1 r :
  read_binlog_event st = (st1, r) →
  read_binlog_event (wni lp st) = (wni lp st1, r)
  ∨ ∃ be, r = Ok (Some be)
      ∧ pkt_event be = Some (Other NotImplementedEvent not_implemented)
      ∧ event_map (pkt_event_type be) = NotImplementedEvent
      ∧ read_binlog_event (wni lp st) = (wni lp st1, Ok (Some (without_event be))).
Proof.
  unfold read_binlog_event.
  rewrite connect_to_stream_without.
  change (_file (wni lp st)) with (_file st).
  destruct (bool_decide (_file st = None)).
  - destruct (connect_to_stream fs st) as [st2 [[]|x]]; simpl.
    + change (metadata (wni lp st2)) with (metadata st2).
      destruct (connect_if_needed pymysql_wrapper (metadata st2)) as [c [[]|x]];
        [|intros; simplify_eq; by left].
      change (_file (set_metadata c (wni lp st2))) with (_file st2).
      change (_file (set_metadata c st2)) with (_file st2).
      destruct (_file st2) as [bs|]; [|intros; simplify_eq; by left].
      destruct (read_frame bs) as [rest [[[h pkt]|]|x]];
        [|intros; simplify_eq; by left..].
      simpl.
      destruct (decoder pkt _ _ (allowed_events_in_packet st2) _ _ _ _ _ _ _)
        as [c' r'] eqn:Hdec.
      apply packet_wrapper_without in Hdec as [Hdec|(be & -> & -> & ? & ? & Hdec)];
        rewrite Hdec.
      * destruct r'; intros; simplify_eq; by left.
      * intros; simplify_eq. right. by exists be.
    + intros; simplify_eq; by left.
  - simpl.
    change (metadata (wni lp st)) with (metadata st).
    destruct (connect_if_needed pymysql_wrapper (metadata st)) as [c [[]|x]];
      [|intros; simplify_eq; by left].
    change (_file (set_metadata c (wni lp st))) with (_file st).
    change (_file (set_metadata c st)) with (_file st).
    destruct (_file st) as [bs|]; [|intros; simplify_eq; by left].
    destruct (read_frame bs) as [rest [[[h pkt]|]|x]];
      [|intros; simplify_eq; by left..].
    simpl.
    destruct (decoder pkt _ _ (allowed_events_in_packet st) _ _ _ _ _ _ _)
      as [c' r'] eqn:Hdec.
    apply packet_wrapper_without in Hdec as [Hdec|(be & -> & -> & ? & ? & Hdec)];
      rewrite Hdec.
    + destruct r'; intros; simplify_eq; by left.
    + intros; simplify_eq. right. by exists be.
Qed.


(** A pass on the same packet without [NotImplementedEvent] in the
    sets: the same end, but that an event of the class is dropped where
    it is returned. *)
Lemma process_event_without lp st be :
  ∃ lp2,
    process_event (wni lp st) be =
    match process_event st be with
    | Continue st2 => Continue (wni lp2 st2)
    | Break st2 => Break (wni lp2 st2)
    | Fail st2 x => Fail (wni lp2 st2) x
    | Return st2 e =>
        if bool_decide (class_of e = NotImplementedEvent)
        then Continue (wni lp2 st2)
        else Return (wni lp2 st2) e
    end.
Proof.
  unfold process_event, log_pos_before_start, reached_stop_pos,
    before_skip_to_timestamp, track_position, register_table. simpl.
  destruct (pkt_event be) as [ev|]; [|by exists lp].
  destruct (start_pos st) as [start|]; [|by exists lp].
  destruct (pkt_log_pos be <? start); [by exists lp|].
  destruct (truthy (stop_pos st) && _); [by exists lp|].
  assert (∀ lp1 st1,
    ∃ lp2,
      (if truthy (skip_to_timestamp st1)
          && (pkt_timestamp be <? default 0 (skip_to_timestamp st1))
       then Continue (wni lp1 st1)
       else
         match
           (if bool_decide (pkt_event_type be = TABLE_MAP_EVENT)
            then match ev with
                 | TableMap table_id table =>
                     Ok (set_table_map
                           (<[table_id := table]> (table_map st1))
                           (wni lp1 st1))
                 | _ => Raise AttributeError
                 end
            else Ok (wni lp1 st1))
         with
         | Ok st2 =>
             if bool_decide (class_of ev ∈ allowed_events st2)
             then Return st2 ev else Continue st2
         | Raise x => Fail (wni lp1 st1) x
         end) =
      match
        (if truthy (skip_to_timestamp st1)
            && (pkt_timestamp be <? default 0 (skip_to_timestamp st1))
         then Continue st1
         else
           match
             (if bool_decide (pkt_event_type be = TABLE_MAP_EVENT)
              then match ev with
                   | TableMap table_id table =>
                       Ok (set_table_map
                             (<[table_id := table]> (table_map st1)) st1)
                   | _ => Raise AttributeError
                   end
              else Ok st1)
           with
           | Ok st2 =>
               if bool_decide (class_of ev ∈ allowed_events st2)
               then Return st2 ev else Continue st2
           | Raise x => Fail st1 x
           end)
      with
      | Continue st2 => Continue (wni lp2 st2)
      | Break st2 => Break (wni lp2 st2)
      | Fail st2 x => Fail (wni lp2 st2) x
      | Return st2 e =>
          if bool_decide (class_of e = NotImplementedEvent)
          then Continue (wni lp2 st2)
          else Return (wni lp2 st2) e
      end) as Hrest.
  { intros lp1 st1. exists lp1.
    destruct (truthy (skip_to_timestamp st1) && _); [done|].
    assert (∀ st2,
      (if bool_decide (class_of ev ∈ allowed_events (wni lp1 st2))
       then Return (wni lp1 st2) ev else Continue (wni lp1 st2)) =
      match (if bool_decide (class_of ev ∈ allowed_events st2)
             then Return st2 ev else Continue st2) with
      | Continue st3 => Continue (wni lp1 st3)
      | Break st3 => Break (wni lp1 st3)
      | Fail st3 x => Fail (wni lp1 st3) x
      | Return st3 e =>
          if bool_decide (class_of e = NotImplementedEvent)
          then Continue (wni lp1 st3)
          else Return (wni lp1 st3) e
      end) as Hlast.
    { intros st2. simpl.
      destruct (decide (class_of ev = NotImplementedEvent)) as [Hc|Hc].
      - rewrite (bool_decide_eq_false_2 (_ ∈ _ ∖ _)) by set_solver.
        case_bool_decide; [|done]. by rewrite bool_decide_eq_true_2.
      - destruct (decide (class_of ev ∈ allowed_events st2)).
        + rewrite !(bool_decide_eq_true_2 (_ ∈ _)) by set_solver.
          by rewrite bool_decide_eq_false_2.
        + by rewrite !(bool_decide_eq_false_2 (_ ∈ _)) by set_solver. }
    destruct (bool_decide (pkt_event_type be = TABLE_MAP_EVENT));
      [|exact (Hlast st1)].
    destruct ev as [| table_id table |]; [done| |done].
    exact (Hlast (set_table_map (<[table_id := table]> (table_map st1)) st1)). }
  destruct (bool_decide (pkt_event_type be = ROTATE_EVENT)).
  - destruct ev as [position next_binlog| |]; [|by exists lp..].
    exact (Hrest (Some position)
             (set_table_map ∅ (set_log_file (Some next_binlog)
                                 (set_log_pos (Some position) st)))).
  - destruct (negb (pkt_log_pos be =? 0)).
    + exact (Hrest (Some (pkt_log_pos be))
               (set_log_pos (Some (pkt_log_pos be)) st)).
    + exact (Hrest lp st).
Qed.


(** A frame of a class outside the variants: with the class in the
    sets the pass goes on with at most [self.log_pos] changed, or stops
    at [stop_pos], or fails for want of a [start_pos]. *)
Lemma process_event_not_implemented st be :
  pkt_event be = Some (Other NotImplementedEvent not_implemented) →
  event_map (pkt_event_type be) = NotImplementedEvent →
  (∃ st2, (∀ lp, wni lp st2 = wni lp st)
          ∧ (process_event st be = Continue st2
             ∨ process_event st be
               = Return st2 (Other NotImplementedEvent not_implemented)))
  ∨ (process_event st be = Break st ∧ reached_stop_pos st be = true)
  ∨ (∃ x, process_event st be = Fail st x ∧ start_pos st = None).
Proof.
  intros Hev Hcls.
  assert (pkt_event_type be ≠ ROTATE_EVENT) as Hrot
    by (intros Heq; by rewrite Heq in Hcls).
  assert (pkt_event_type be ≠ TABLE_MAP_EVENT) as Htm
    by (intros Heq; by rewrite Heq in Hcls).
  unfold process_event, log_pos_before_start, track_position,
    register_table. rewrite Hev.
  destruct (start_pos st) as [start|]; [|right; right; by eexists].
  destruct (pkt_log_pos be <? start); [left; by exists st; auto|].
  destruct (reached_stop_pos st be); [right; by left|].
  rewrite !(bool_decide_eq_false_2 (pkt_event_type be = _)) by done.
  left.
  destruct (negb (pkt_log_pos be =? 0)).
  - exists (set_log_pos (Some (pkt_log_pos be)) st). split; [done|].
    destruct (before_skip_to_timestamp _ be); [by left|].
    case_bool_decide; [by right | by left].
  - exists st. split; [done|].
    destruct (before_skip_to_timestamp _ be); [by left|].
    case_bool_decide; [by right | by left].
Qed.

(** The packet a pass reads has the [log_pos] of the next frame. *)
Lemma read_binlog_event_positions st st1 be n :
  read_binlog_event st = (st1, Ok (Some be)) →
  frame_log_positions (S n) (ahead st)
  = pkt_log_pos be :: frame_log_positions n (ahead st1).
Proof.
  intros Hread.
  apply read_binlog_event_some in Hread as (h & pkt & c & c' & Hframe & Hdec).
  simpl. rewrite Hframe.
  by rewrite (packet_wrapper_log_pos _ _ _ _ _ _ _ _ _ _ _ _ _ _ _ _ Hframe Hdec).
Qed.

Lemma ahead_process_event st be :
  ahead (outcome_state (process_event st be)) = ahead st.
Proof.
  pose proof (process_event_config st be) as (_ & _ & _ & _ & _ & Hf & Hp & _).
  unfold ahead. by rewrite Hf, Hp.
Qed.

(** Once every frame ahead has reached [stop_pos], no event is returned. *)
Lemma emitted_beyond_stop fuel st stop :
  stop_pos st = Some stop → stop ≠ 0 →
  Forall (λ p, stop ≤ p) (frame_log_positions fuel (ahead st)) →
  emitted fuel st = [].
Proof.
  revert st. induction fuel as [|fuel IH]; intros st Hstop Hnz Hall; [done|].
  simpl.
  destruct (read_binlog_event st) as [st1 [[be|]|x]] eqn:Hread; [|done..].
  rewrite (read_binlog_event_positions _ _ _ fuel Hread) in Hall.
  apply Forall_cons in Hall as [Hbe Hall].
  apply read_binlog_event_keeps in Hread as (_ & _ & _ & _ & Hstop1 & _).
  rewrite Hstop in Hstop1.
  pose proof (process_event_config st1 be) as (_ & Hstop2 & _).
  pose proof (ahead_process_event st1 be) as Hahead.
  destruct (process_event st1 be) as [st2|st2|st2 e|st2 x] eqn:Hp;
    simpl in *; [|done| |done].
  - apply IH; [congruence|done|by rewrite Hahead].
  - exfalso. clear -Hp Hstop1 Hbe Hnz. pass_solve.
Qed.

(** The events with and without [NotImplementedEvent] in the sets. *)
Lemma emitted_without fuel lp st :
  truthy (stop_pos st) = false
  ∨ StronglySorted Z.le (frame_log_positions fuel (ahead st)) →
  emitted fuel (wni lp st)
  = filter (λ e, class_of e ≠ NotImplementedEvent) (emitted fuel st).
Proof.
  revert lp st. induction fuel as [|fuel IH]; intros lp st Hcond; [done|].
  simpl.
  destruct (read_binlog_event st) as [st1 [[be|]|x]] eqn:Hread.
  - pose proof (read_binlog_event_keeps _ _ _ _ _ _ Hread)
      as (_ & _ & _ & _ & Hstop1 & _).
    assert (truthy (stop_pos st1) = false
            ∨ Forall (λ p, pkt_log_pos be ≤ p)
                (frame_log_positions fuel (ahead st1))
              ∧ StronglySorted Z.le (frame_log_positions fuel (ahead st1)))
      as Hcond1.
    { destruct Hcond as [Hoff|Hsorted]; [left; by rewrite Hstop1|right].
      rewrite (read_binlog_event_positions _ _ _ fuel Hread) in Hsorted.
      by apply StronglySorted_inv in Hsorted as [? ?]. }
    clear Hcond.
    assert (∀ st2, ahead st2 = ahead st1 → stop_pos st2 = stop_pos st1 →
              truthy (stop_pos st2) = false
              ∨ StronglySorted Z.le (frame_log_positions fuel (ahead st2)))
      as Hnext.
    { intros st2 Ha Hs. destruct Hcond1 as [Hoff|[_ Hsorted]].
      - left. by rewrite Hs.
      - right. by rewrite Ha. }
    pose proof (process_event_config st1 be) as (_ & Hstop2 & _).
    pose proof (ahead_process_event st1 be) as Hahead.
    destruct (read_binlog_event_without lp _ _ _ Hread)
      as [->|(be' & Heq & Hev & Hcls & ->)].
    + destruct (process_event_without lp st1 be) as (lp2 & ->).
      destruct (process_event st1 be) as [st2|st2|st2 e|st2 x];
        simpl in Hstop2, Hahead; simpl; [by apply IH, Hnext|done| |done].
      case_bool_decide as Hc.
      * rewrite filter_cons_False by naive_solver. by apply IH, Hnext.
      * rewrite filter_cons_True by done. f_equal. by apply IH, Hnext.
    + simplify_eq.
      assert (process_event (wni lp st1) (without_event be') = Continue (wni lp st1))
        as -> by done.
      destruct (process_event_not_implemented st1 be' Hev Hcls)
        as [(st2 & Hwni & [Hp|Hp])|[[Hp Hreached]|(x & Hp & Hnone)]];
        rewrite Hp in Hstop2, Hahead; rewrite Hp;
        simpl in Hstop2, Hahead; simpl.
      * rewrite <- (Hwni lp). by apply IH, Hnext.
      * rewrite filter_cons_False by naive_solver.
        rewrite <- (Hwni lp). by apply IH, Hnext.
      * unfold reached_stop_pos in Hreached.
        apply andb_true_iff in Hreached as [Htruthy Hle].
        destruct Hcond1 as [Hoff|[Hall _]]; [congruence|].
        destruct (stop_pos st1) as [stop|] eqn:Hs; [|done].
        apply (emitted_beyond_stop _ _ stop); [done| |].
        { simpl in Htruthy. by apply negb_true_iff, Z.eqb_neq in Htruthy. }
        apply Z.leb_le in Hle. simpl in Hle.
        eapply Forall_impl; [exact Hall|]. simpl. intros; lia.
      * by apply emitted_no_start_pos.
  - destruct (read_binlog_event_without lp _ _ _ Hread)
      as [->|(be' & Heq & _)]; [done|discriminate].
  - destruct (read_binlog_event_without lp _ _ _ Hread)
      as [->|(be' & Heq & _)]; [done|discriminate].
Qed.


(** What the constructor sets. *)
Lemma init_fields (a : init_args) (w : World) st :
  __init__ pymysql_wrapper execute a w = Ok st →
  _file st = None ∧ _file_path st = arg_file_path a
  ∧ stop_pos st = arg_stop_pos a ∧ start_pos st = arg_log_pos a
  ∧ table_map st = ∅
  ∧ _allowed_event_list (arg_only_events a) (arg_ignored_events a)
      (arg_filter_non_implemented_events a) = Ok (allowed_events st)
  ∧ allowed_events_in_packet st
    = {[TableMapEvent; RotateEvent]} ∪ allowed_events st.
Proof.
  unfold __init__. intros H.
  destruct (_allowed_event_list _ _ _); [|done].
  destruct (checksum_enabled _ _ _). by simplify_eq /=.
Qed.

(** The readers built with the flag and without it. *)
Lemma init_without (a : init_args) (w : World) st :
  __init__ pymysql_wrapper execute (with_filter false a) w = Ok st →
  __init__ pymysql_wrapper execute (with_filter true a) w
  = Ok (wni (log_pos st) st).
Proof.
  unfold __init__. simpl. rewrite allowed_event_list_filter.
  destruct (_allowed_event_list _ _ false) as [events|]; [|done].
  destruct (checksum_enabled _ _ _) as [c checksum]. intros H.
  simplify_eq. unfold without_not_implemented. simpl.
  do 2 f_equal. set_solver.
Qed.

(** C9, amended: for a binlog file whose frames have non-decreasing
    [log_pos], or when [stop_pos] is unset, the events yielded with
    [filter_non_implemented_events] true are those yielded with it
    false, in order, less the events of class [NotImplementedEvent];
    the allowed set with the flag is the set without it less that
    class.  Both iterations end. *)
Theorem filter_non_implemented_subsequence (a : init_args) (w : World) st_f :
  __init__ pymysql_wrapper execute (with_filter false a) w = Ok st_f →
  truthy (arg_stop_pos a) = false
  ∨ StronglySorted Z.le
      (frame_log_positions (S (length (default [] (fs (arg_file_path a)))))
         (drop 4 (default [] (fs (arg_file_path a))))) →
  ∃ st_t,
    __init__ pymysql_wrapper execute (with_filter true a) w = Ok st_t
    ∧ allowed_events st_t = allowed_events st_f ∖ {[NotImplementedEvent]}
    ∧ ∃ st_t' r_t st_f' r_f es_t es_f,
        __iter__ st_t = Some (st_t', es_t, r_t)
        ∧ __iter__ st_f = Some (st_f', es_f, r_f)
        ∧ es_t = filter (λ e, class_of e ≠ NotImplementedEvent) es_f
        ∧ es_t `sublist_of` es_f.
Proof.
  intros Hinit Hcond.
  exists (wni (log_pos st_f) st_f).
  split; [by apply init_without|]. split; [done|].
  apply init_fields in Hinit as (Hfile & Hpath & Hstop & _).
  simpl in Hpath, Hstop.
  destruct (iter_emitted pymysql_wrapper fs decoder st_f) as (st_f' & r_f & Hf).
  destruct (iter_emitted pymysql_wrapper fs decoder (wni (log_pos st_f) st_f))
    as (st_t' & r_t & Ht).
  eexists st_t', r_t, st_f', r_f, _, _.
  split; [exact Ht|]. split; [exact Hf|].
  assert (unread fs (wni (log_pos st_f) st_f) = unread fs st_f) as -> by done.
  assert (unread fs st_f = length (default [] (fs (arg_file_path a)))) as Hun
    by (unfold unread; by rewrite Hfile, Hpath).
  assert (ahead st_f = drop 4 (default [] (fs (arg_file_path a)))) as Hah
    by (unfold ahead; by rewrite Hfile, Hpath).
  rewrite emitted_without.
  - split; [done|]. apply sublist_filter.
  - rewrite Hstop, Hun, Hah. done.
Qed.

End Filter.

(** ** The code on concrete files *)

(** * More of the reader *)

Section ReaderFacts.

Context {World Conn Table Payload : Type}.
Variable pymysql_wrapper : settings → World → World * result Conn.
Variable execute : Conn → query → World → World * result (list row).
Variable fs : string → option (list byte).
Variable BinLogPacketWrapper :
  list byte → gmap Z Table → bool → gset event_class →
  option (list string) → option (list string) →
  option (list string) → option (list string) →
  bool → bool → ctl World Conn → ctl World Conn * result (packet Table Payload).

Abbreviation read_binlog_event :=
  (read_binlog_event pymysql_wrapper fs BinLogPacketWrapper).
Abbreviation fetchone_loop :=
  (fetchone_loop pymysql_wrapper fs BinLogPacketWrapper).
Abbreviation fetchone := (fetchone pymysql_wrapper fs BinLogPacketWrapper).
Abbreviation iter_loop := (iter_loop pymysql_wrapper fs BinLogPacketWrapper).
Abbreviation __iter__ := (__iter__ pymysql_wrapper fs BinLogPacketWrapper).
Abbreviation unread := (unread fs).
Abbreviation connect_if_needed := (connect_if_needed pymysql_wrapper).
Abbreviation connect_to_ctl := (connect_to_ctl pymysql_wrapper).
Abbreviation checksum_enabled := (checksum_enabled pymysql_wrapper execute).
Abbreviation table_information_attempt :=
  (table_information_attempt pymysql_wrapper execute).
Abbreviation __get_table_information :=
  (__get_table_information pymysql_wrapper execute).

Implicit Types (st : reader World Conn Table)
  (binlog_event be : packet Table Payload) (ev e : event Table Payload).

(** A frame that is read takes its 19 header bytes off the file. *)
Lemma read_frame_consumes bs rest h pkt :
  read_frame bs = (rest, Ok (Some (h, pkt))) →
  (length rest + 19 ≤ length bs)%nat.
Proof.
  intros H. pose proof (read_frame_some _ _ _ _ H) as (_ & Hge & _).
  unfold read_frame in H. rewrite file_read_nonneg in H by lia.
  change (Z.to_nat 19) with 19%nat in H.
  case_bool_decide; [done|].
  destruct (unpack_header (take 19 bs)); [|done].
  unfold file_read in H. repeat case_decide; simplify_eq.
  - simpl. lia.
  - rewrite !length_drop. lia.
Qed.

Lemma read_binlog_event_consumes st st1 be :
  read_binlog_event st = (st1, Ok (Some be)) →
  (unread st1 + 19 ≤ unread st)%nat.
Proof.
  unfold read_binlog_event, connect_to_stream, unread.
  intros H.
  repeat (simplify_eq /=;
    match goal with
    | H : context [match ?x with _ => _ end] |- _ => destruct x eqn:?
    end); simplify_eq /=.
  all: repeat match goal with
    | H : read_frame _ = (_, Ok (Some _)) |- _ =>
        apply read_frame_consumes in H
    end.
  all: rewrite ?length_drop in *.
  all: repeat match goal with
    | H : _file _ = _ |- _ => rewrite H
    | H : fs _ = _ |- _ => rewrite H
    end; simpl; lia.
Qed.

Lemma fetchone_loop_consumes fuel st st' r :
  fetchone_loop fuel st = Some (st', r) →
  (unread st' ≤ unread st)%nat
  ∧ (∀ e, r = Ok (Some e) → (unread st' + 19 ≤ unread st)%nat).
Proof.
  revert st. induction fuel as [|fuel IH]; intros st Hloop; [done|].
  simpl in Hloop.
  destruct (read_binlog_event st) as [st1 [[be|]|x]] eqn:Hread;
    pose proof (read_binlog_event_unread _ _ _ _ _ _ Hread) as (Hle & _).
  - apply read_binlog_event_consumes in Hread.
    pose proof (process_event_unread fs st1 be) as Hu.
    destruct (process_event st1 be) as [st2|st2|st2 e|st2 x];
      simpl in Hu; simplify_eq.
    + destruct (IH _ Hloop) as [Hle' Hlt'].
      split; [lia|]. intros e He. specialize (Hlt' e He). lia.
    + split; [lia|done].
    + split; [lia|]. intros; lia.
    + split; [lia|done].
  - simplify_eq. split; [lia|done].
  - simplify_eq. split; [lia|done].
Qed.

(** X1: [fetchone] returns on every file: the [while True] ends within
    one pass more than there are unread bytes.  The call never gives
    bytes back to the file, and a call that returns an event has taken
    at least the 19 bytes of a header off it. *)
Theorem fetchone_terminates st :
  ∃ st' r,
    fetchone st = Some (st', r)
    ∧ (unread st' ≤ unread st)%nat
    ∧ (∀ e, r = Ok (Some e) → (unread st' + 19 ≤ unread st)%nat).
Proof.
  destruct (fetchone_total pymysql_wrapper fs BinLogPacketWrapper st)
    as (st' & r & Hf).
  exists st', r. split; [done|]. by eapply fetchone_loop_consumes.
Qed.

Lemma iter_loop_count calls st st' es r :
  iter_loop calls st = Some (st', es, r) →
  (19 * length es ≤ unread st)%nat.
Proof.
  revert st st' es r. induction calls as [|calls IH]; intros st st' es r H;
    [done|].
  simpl in H.
  destruct (fetchone st) as [[st1 [[e|]|x]]|] eqn:Hf; [| | |done].
  - destruct (iter_loop calls st1) as [[[st2 es2] r2]|] eqn:Hi; [|done].
    simplify_eq. apply IH in Hi.
    apply fetchone_loop_consumes in Hf as [_ Hf].
    specialize (Hf e eq_refl). simpl. lia.
  - simplify_eq. simpl. lia.
  - simplify_eq. simpl. lia.
Qed.

(** X2: the iteration over the reader ends, and it yields at most one
    event for every 19 unread bytes of the file. *)
Theorem iter_terminates st :
  ∃ st' es r,
    __iter__ st = Some (st', es, r) ∧ (19 * length es ≤ unread st)%nat.
Proof.
  destruct (iter_loop_total pymysql_wrapper fs BinLogPacketWrapper
              (S (unread st)) st) as (st' & es & r & H); [lia|].
  exists st', es, r. split; [done|]. by eapply iter_loop_count.
Qed.


(** A call of [fetchone] leaves the configuration of the reader alone. *)
Lemma fetchone_loop_config fuel st st' r :
  fetchone_loop fuel st = Some (st', r) →
  start_pos st' = start_pos st ∧ stop_pos st' = stop_pos st
  ∧ skip_to_timestamp st' = skip_to_timestamp st
  ∧ allowed_events st' = allowed_events st
  ∧ allowed_events_in_packet st' = allowed_events_in_packet st
  ∧ _file_path st' = _file_path st.
Proof.
  revert st. induction fuel as [|fuel IH]; intros st Hloop; [done|].
  simpl in Hloop.
  destruct (read_binlog_event st) as [st1 [[be|]|x]] eqn:Hread;
    pose proof (read_binlog_event_keeps _ _ _ _ _ _ Hread)
      as (_ & _ & _ & H1 & H2 & H3 & H4 & H5 & H6);
    [|simplify_eq; done..].
  pose proof (process_event_config st1 be)
    as (G1 & G2 & G3 & G4 & G5 & _ & G6 & _).
  destruct (process_event st1 be) as [st2|st2|st2 e|st2 x];
    simpl in *; simplify_eq; [|repeat split; congruence..].
  destruct (IH _ Hloop) as (? & ? & ? & ? & ? & ?).
  repeat split; congruence.
Qed.

(** X3: an event that [fetchone] returns is of a class of the allowed
    set, whatever the decoder gives; so a reader built with
    [filter_non_implemented_events] true never returns an event of class
    [NotImplementedEvent]. *)
Theorem fetchone_returns_allowed_class fuel st st' e :
  fetchone_loop fuel st = Some (st', Ok (Some e)) →
  class_of e ∈ allowed_events st
  ∧ allowed_events st' = allowed_events st
  ∧ (∀ (a : init_args) (w : World),
       __init__ pymysql_wrapper execute a w = Ok st →
       arg_filter_non_implemented_events a = true →
       class_of e ≠ NotImplementedEvent).
Proof.
  intros Hloop.
  pose proof (fetchone_loop_config _ _ _ _ Hloop) as (_ & _ & _ & Hsame & _).
  apply fetchone_loop_return in Hloop
    as (st0 & st1 & be & _ & Hp & _ & _ & _ & _ & Ha).
  assert (class_of e ∈ allowed_events st) as Hin.
  { rewrite <- Ha. clear -Hp. pass_cases; done. }
  split; [done|]. split; [done|].
  intros a w Hinit Hflag Hcls.
  apply init_fields in Hinit as (_ & _ & _ & _ & _ & Hlist & _).
  rewrite Hflag, allowed_event_list_filter in Hlist.
  destruct (_allowed_event_list _ _ false); simplify_eq.
  rewrite Hcls in Hin. set_solver.
Qed.

(** X4: an event that [fetchone] returns is the event of the packet of
    its last pass, and the [log_pos] of that packet is not below
    [start_pos], whatever [stop_pos] is, and its timestamp is not below
    [skip_to_timestamp] when that is set. *)
Theorem fetchone_returns_from_start fuel st st' e :
  fetchone_loop fuel st = Some (st', Ok (Some e)) →
  ∃ st1 st2 binlog_event,
    read_binlog_event st1 = (st2, Ok (Some binlog_event))
    ∧ process_event st2 binlog_event = Return st' e
    ∧ pkt_event binlog_event = Some e
    ∧ (∃ start, start_pos st = Some start
                ∧ start ≤ pkt_log_pos binlog_event)
    ∧ (∀ ts, skip_to_timestamp st = Some ts → ts ≠ 0 →
             ts ≤ pkt_timestamp binlog_event).
Proof.
  intros Hloop.
  apply fetchone_loop_return in Hloop
    as (st1 & st2 & be & Hread & Hp & Hev & Hs & _ & Hk & _).
  exists st1, st2, be. split; [done|]. split; [done|]. split; [done|].
  rewrite <- Hs, <- Hk. clear -Hp. split.
  - destruct (start_pos st2) as [start|] eqn:Hstart; [|pass_solve].
    exists start. split; [done|]. pass_solve.
  - intros ts Hts Hnz. pass_solve.
Qed.


(** X5: a table map that passes the position filters is written to
    [table_map] under its table id, the other ids keeping their tables,
    also when [TableMapEvent] is not an allowed class (the event is then
    dropped after the write); but a table map older than
    [skip_to_timestamp] is dropped before the write and leaves
    [table_map] as it is. *)
Theorem table_map_event_registered st binlog_event table_id table :
  pkt_event_type binlog_event = TABLE_MAP_EVENT →
  pkt_event binlog_event = Some (TableMap table_id table) →
  passes_position_filters st binlog_event →
  let st' := outcome_state (process_event st binlog_event) in
  (before_skip_to_timestamp st binlog_event = false →
     table_map st' !! table_id = Some table
     ∧ (∀ other, other ≠ table_id →
                 table_map st' !! other = table_map st !! other)
     ∧ process_event st binlog_event
       = if bool_decide (TableMapEvent ∈ allowed_events st)
         then Return st' (TableMap table_id table)
         else Continue st')
  ∧ (before_skip_to_timestamp st binlog_event = true →
     table_map st' = table_map st
     ∧ process_event st binlog_event = Continue st').
Proof.
  intros Htype Hev Hpass st'. subst st'.
  destruct Hpass as (_ & Hstart & Hstop).
  assert (pkt_event_type binlog_event ≠ ROTATE_EVENT) as Hrot
    by (rewrite Htype; done).
  unfold process_event, track_position, register_table.
  rewrite Hev, Hstart, Hstop.
  rewrite (bool_decide_eq_false_2 _ Hrot), (bool_decide_eq_true_2 _ Htype).
  split; intros Hskip.
  - destruct (negb (pkt_log_pos binlog_event =? 0)); simpl;
      (change (before_skip_to_timestamp _ binlog_event)
         with (before_skip_to_timestamp st binlog_event);
       rewrite Hskip; simpl;
       case_bool_decide; simpl;
       (split; [apply lookup_insert_eq|];
        split; [intros other Hne; by apply lookup_insert_ne|done])).
  - destruct (negb (pkt_log_pos binlog_event =? 0)); simpl;
      (change (before_skip_to_timestamp _ binlog_event)
         with (before_skip_to_timestamp st binlog_event);
       by rewrite Hskip).
Qed.

(** X6: the packet-level set of a reader that the constructor built
    holds [TableMapEvent] and [RotateEvent] and every allowed class,
    whatever [only_events] and [ignored_events] are, and [fetchone]
    keeps it; and a rotation of a reader that does not allow
    [RotateEvent] is still applied to [log_pos], [log_file] and
    [table_map] before it is dropped. *)
Theorem rotate_and_table_map_kept_for_tracking (a : init_args) (w : World) st :
  __init__ pymysql_wrapper execute a w = Ok st →
  TableMapEvent ∈ allowed_events_in_packet st
  ∧ RotateEvent ∈ allowed_events_in_packet st
  ∧ allowed_events st ⊆ allowed_events_in_packet st
  ∧ (∀ fuel st' r,
       fetchone_loop fuel st = Some (st', r) →
       allowed_events_in_packet st' = allowed_events_in_packet st)
  ∧ (∀ st0 binlog_event position next_binlog,
       allowed_events st0 = allowed_events st →
       RotateEvent ∉ allowed_events st →
       pkt_event_type binlog_event = ROTATE_EVENT →
       pkt_event binlog_event = Some (Rotate position next_binlog) →
       passes_position_filters st0 binlog_event →
       ∃ st', process_event st0 binlog_event = Continue st'
              ∧ log_pos st' = Some position
              ∧ log_file st' = Some next_binlog
              ∧ table_map st' = ∅).
Proof.
  intros Hinit.
  apply init_fields in Hinit as (_ & _ & _ & _ & _ & _ & Hpkt).
  rewrite Hpkt.
  split; [set_solver|]. split; [set_solver|]. split; [set_solver|].
  split.
  - intros fuel st' r Hloop. rewrite <- Hpkt.
    by apply fetchone_loop_config in Hloop as (_ & _ & _ & _ & ? & _).
  - intros st0 be position next_binlog Hsame Hnot Htype Hev
      (_ & Hstart & Hstop).
    assert (pkt_event_type be ≠ TABLE_MAP_EVENT) as Htm
      by (rewrite Htype; done).
    unfold process_event, track_position, register_table.
    rewrite Hev, Hstart, Hstop.
    rewrite (bool_decide_eq_true_2 _ Htype), (bool_decide_eq_false_2 _ Htm).
    destruct (before_skip_to_timestamp _ be); [by eexists|].
    rewrite bool_decide_eq_false_2; [by eexists|].
    simpl. by rewrite Hsame.
Qed.

(** X7: on a file that does not start with the magic bytes, as on a
    file shorter than four bytes, the first call of [fetchone] raises
    [BadMagicBytesError] with the bytes it read; on a path with no file
    it raises [OSError].  After the bad magic the file stays open behind
    the four bytes: the next call does not test them again, and on a
    file without more bytes it returns [None] as at a clean end. *)
Theorem bad_magic_raises_once st :
  _file st = None →
  (fs (_file_path st) = None →
     fetchone st = Some (st, Raise OSError))
  ∧ (∀ content,
       fs (_file_path st) = Some content →
       take 4 content ≠ _expected_magic →
       ∃ st1,
         fetchone st = Some (st1, Raise (BadMagicBytesError (take 4 content)))
         ∧ _file st1 = Some (drop 4 content)
         ∧ metadata st1 = metadata st
         ∧ (negb (connected_ctl (metadata st))
              && settings_given (metadata st) = false →
            drop 4 content = [] →
            ∃ st2, fetchone st1 = Some (st2, Ok None))).
Proof.
  intros Hfile. split.
  - intros Hfs. unfold fetchone. simpl.
    unfold read_binlog_event, connect_to_stream.
    by rewrite Hfile, Hfs.
  - intros content Hfs Hbad.
    exists (set_file (Some (drop 4 content))
              (set_pos (Some 0) (set_file (Some content) st))).
    split; [|split; [done|split; [done|]]].
    + unfold fetchone. simpl.
      unfold read_binlog_event, connect_to_stream.
      rewrite Hfile, Hfs. simpl.
      by rewrite (bool_decide_eq_false_2 _ Hbad).
    + intros Hconn Hnil.
      unfold fetchone. simpl.
      unfold read_binlog_event, connect_if_needed. simpl.
      rewrite Hconn, Hnil. simpl. by eexists.
Qed.

(** X8: at the end of the file, with nothing to connect at line 160,
    [fetchone] returns [None] and leaves every attribute as it is, so
    calling it again gives [None] again. *)
Theorem fetchone_at_end_of_file st :
  _file st = Some [] →
  negb (connected_ctl (metadata st)) && settings_given (metadata st) = false →
  fetchone st = Some (st, Ok None).
Proof.
  intros Hfile Hconn.
  unfold fetchone. simpl.
  unfold read_binlog_event, connect_if_needed.
  rewrite Hfile. simpl. rewrite Hconn, Hfile. simpl.
  destruct st; simpl in *. by subst.
Qed.


(** ** The metadata connection *)

(** X9: the probe of the checksum swallows every exception.  Without
    connection settings it connects nowhere and answers [False] with
    the metadata side untouched; and it answers [True] only when the
    statement gave a first row whose [Value] is there and is not the
    string [NONE]. *)
Theorem checksum_enabled_only_with_value (c : ctl World Conn) :
  (connected_ctl c = false → _ctl_connection c = None →
   settings_given c = false →
   checksum_enabled c = (c, false))
  ∧ (∀ c', checksum_enabled c = (c', true) →
       ∃ conn w rows first value,
         _ctl_connection c' = Some conn
         ∧ execute conn ShowBinlogChecksum w = (world c', Ok rows)
         ∧ head rows = Some first
         ∧ first !! "Value" = Some value
         ∧ value ≠ PyStr "NONE").
Proof.
  split.
  - intros Hc Hconn Hset.
    unfold checksum_enabled, connect_if_needed,
      run_query.
    rewrite Hc, Hset. simpl. by rewrite Hconn.
  - intros c'. unfold checksum_enabled, run_query.
    destruct (connect_if_needed c) as [c1 [[]|x]]; [|done].
    destruct (_ctl_connection c1) as [conn|] eqn:Hconn; [|done].
    destruct (execute conn ShowBinlogChecksum (world c1))
      as [w [rows|x]] eqn:Hex; [|done].
    destruct (head rows) as [first|] eqn:Hhead; [|done].
    intros [= <- Hvalue].
    apply negb_true_iff, bool_decide_eq_false in Hvalue.
    destruct (first !! "Value") as [value|] eqn:Hv; [|done].
    exists conn, (world c1), rows, first, value.
    by repeat split.
Qed.

(** X10: a lost connection is recovered: when the first attempt fails
    with an expected code and, connecting again, the statement
    succeeds, the lookup returns the rows of the second attempt, raises
    nothing and leaves the connection marked open. *)
Theorem lost_connection_recovered ivc schema table c c1 code message
    (s : settings) w conn w' rows :
  table_information_attempt ivc schema table c
    = (c1, Raise (OperationalError code message)) →
  code ∈ MYSQL_EXPECTED_ERROR_CODES →
  _ctl_connection_settings c1 = Some s →
  pymysql_wrapper
    (<["cursorclass" := PyObj "DictCursor"]>
       (<["db" := PyStr "information_schema"]> s)) (world c1)
    = (w, Ok conn) →
  execute conn (SelectColumns schema table ivc) w = (w', Ok rows) →
  ∃ c2, __get_table_information ivc schema table c = (c2, Ok (Some rows))
        ∧ connected_ctl c2 = true ∧ _ctl_connection c2 = Some conn
        ∧ world c2 = w'.
Proof.
  intros H1 Hcode Hs Hconn Hex.
  rewrite (table_information_retry _ _ _ _ _ _ _ _ _ H1 Hcode).
  unfold table_information_attempt, connect_to_ctl,
    run_query. simpl.
  rewrite Hs, Hconn. simpl. rewrite Hex. by eexists.
Qed.

Lemma get_table_information_cases ivc schema table c c' r :
  __get_table_information ivc schema table c = (c', r) →
  (∃ rows, r = Ok (Some rows))
  ∨ (∃ x, r = Raise x
          ∧ ∀ code message, x = OperationalError code message →
                            code ∉ MYSQL_EXPECTED_ERROR_CODES)
  ∨ (r = Ok None ∧ connected_ctl c' = false
     ∧ ∃ c1 code1 message1 c2 code2 message2,
         table_information_attempt ivc schema table c
           = (c1, Raise (OperationalError code1 message1))
         ∧ code1 ∈ MYSQL_EXPECTED_ERROR_CODES
         ∧ table_information_attempt ivc schema table
             (set_connected_ctl false c1)
           = (c2, Raise (OperationalError code2 message2))
         ∧ code2 ∈ MYSQL_EXPECTED_ERROR_CODES).
Proof.
  unfold __get_table_information. cbn [table_information_loop].
  destruct (table_information_attempt ivc schema table c)
    as [c1 [rows|x1]] eqn:H1.
  { intros; simplify_eq. left. by eexists. }
  assert (∀ c0 x, (∀ code message, x ≠ OperationalError code message) →
            (c0, @Raise (option (list row)) x) = (c', r) →
            ∃ x, r = Raise x
                 ∧ ∀ code message, x = OperationalError code message →
                                   code ∉ MYSQL_EXPECTED_ERROR_CODES)
    as Hother.
  { intros c0 x Hx ?; simplify_eq. eexists. split; [done|].
    intros code message ->. by destruct (Hx code message). }
  destruct x1 as [| | | | | | | |code1 message1|];
    try (intros H; right; left; eapply Hother; [|exact H]; done).
  case_bool_decide as Hc1.
  2:{ intros; simplify_eq. right; left. eexists. split; [done|].
      by intros ? ? [= -> ->]. }
  destruct (table_information_attempt ivc schema table
              (set_connected_ctl false c1)) as [c2 [rows|x2]] eqn:H2.
  { intros; simplify_eq. left. by eexists. }
  destruct x2 as [| | | | | | | |code2 message2|];
    try (intros H; right; left; eapply Hother; [|exact H]; done).
  case_bool_decide as Hc2.
  2:{ intros; simplify_eq. right; left. eexists. split; [done|].
      by intros ? ? [= -> ->]. }
  intros; simplify_eq. right; right. split; [done|]. split; [done|].
  by exists c1, code1, message1, c2, code2, message2.
Qed.

(** X11: the lookup never raises an [OperationalError] with one of the
    expected codes to its caller, and it returns [None] only when its
    two attempts both failed with an expected code, the connection then
    being marked closed. *)
Theorem expected_codes_never_raised ivc schema table c c' :
  (∀ code message,
     __get_table_information ivc schema table c
       = (c', Raise (OperationalError code message)) →
     code ≠ 2013 ∧ code ≠ 2006)
  ∧ (__get_table_information ivc schema table c = (c', Ok None) →
     connected_ctl c' = false
     ∧ ∃ c1 code1 message1 c2 code2 message2,
         table_information_attempt ivc schema table c
           = (c1, Raise (OperationalError code1 message1))
         ∧ code1 ∈ MYSQL_EXPECTED_ERROR_CODES
         ∧ table_information_attempt ivc schema table
             (set_connected_ctl false c1)
           = (c2, Raise (OperationalError code2 message2))
         ∧ code2 ∈ MYSQL_EXPECTED_ERROR_CODES).
Proof.
  split.
  - intros code message H.
    apply get_table_information_cases in H
      as [(? & ?)|[(x & Hx & Hcode)|(? & _)]]; [done| |done].
    simplify_eq. specialize (Hcode _ _ eq_refl).
    unfold MYSQL_EXPECTED_ERROR_CODES in Hcode. set_solver.
  - intros H.
    apply get_table_information_cases in H
      as [(? & ?)|[(x & Hx & _)|(_ & ? & ?)]]; done.
Qed.

End ReaderFacts.

(** ** The allowed events, in full *)

(** X12: [_allowed_event_list] succeeds exactly when [ignored_events]
    lists each class once and only classes of the set selected by
    [only_events]; its result is then that set less the ignored classes,
    and less [NotImplementedEvent] when the flag is set.  It raises
    nothing but [KeyError]. *)
Theorem allowed_event_list_value only ign flt :
  (∀ events,
     _allowed_event_list only (Some ign) flt = Ok events ↔
     NoDup ign ∧ (∀ e, e ∈ ign → e ∈ selected_events only)
     ∧ events = (selected_events only ∖ list_to_set ign)
                  ∖ (if flt then {[NotImplementedEvent]} else ∅))
  ∧ (∀ x, _allowed_event_list only (Some ign) flt = Raise x →
          ∃ e, x = KeyError e ∧ e ∈ ign)
  ∧ _allowed_event_list only None flt
    = Ok (selected_events only
            ∖ (if flt then {[NotImplementedEvent]} else ∅)).
Proof.
  assert (∀ events,
    (if flt then remove_not_implemented events else Ok events)
    = Ok (events ∖ (if flt then {[NotImplementedEvent]} else ∅))) as Hflag.
  { intros events. destruct flt; [apply remove_not_implemented_ok|].
    f_equal. set_solver. }
  split; [|split].
  - intros events. unfold _allowed_event_list. split.
    + destruct (remove_each ign (selected_events only)) as [events'|x] eqn:E;
        [|done].
      apply remove_each_ok in E as (Hnd & Hall & ->).
      rewrite Hflag. by intros [= <-].
    + intros (Hnd & Hall & ->).
      assert (remove_each ign (selected_events only)
              = Ok (selected_events only ∖ list_to_set ign)) as ->; [|apply Hflag].
      clear Hflag. revert Hnd Hall. generalize (selected_events only).
      induction ign as [|e ign IH]; intros events Hnd Hall; simpl.
      { f_equal. set_solver. }
      apply NoDup_cons in Hnd as [Hnotin Hnd].
      rewrite set_remove_ok by (apply Hall; by left).
      rewrite IH; [f_equal; set_solver|done|].
      intros e' He'. apply elem_of_difference. split; [apply Hall; by right|].
      set_solver.
  - intros x. unfold _allowed_event_list.
    destruct (remove_each ign (selected_events only)) as [events'|x'] eqn:E.
    + rewrite Hflag. done.
    + intros [= <-]. by apply remove_each_raises_key_error in E.
  - unfold _allowed_event_list. apply Hflag.
Qed.

(** ** The packet buffer *)

Lemma write_at_end (b : list byte) (io : BytesIO) :
  tell io = length (getvalue io) →
  write b io = {| getvalue := getvalue io ++ b;
                  tell := (tell io + length b)%nat |}.
Proof.
  intros Hend. destruct io as [v t]. simpl in *. subst t.
  destruct b as [|x b]; simpl.
  - rewrite app_nil_r. f_equal. lia.
  - rewrite Nat.sub_diag. simpl. rewrite app_nil_r.
    rewrite firstn_all. rewrite drop_ge by lia. by rewrite app_nil_r.
Qed.

Lemma make_pkt_value (header body : list byte) :
  make_pkt header body
  = Ok {| getvalue := x30 :: header ++ body; tell := 0 |}.
Proof.
  unfold make_pkt.
  rewrite (write_at_end [x30]) by done.
  rewrite (write_at_end header) by (simpl; lia).
  rewrite (write_at_end body) by (simpl; lia).
  simpl. unfold seek. simpl.
  repeat case_decide; try done; unfold maxsize in *; lia.
Qed.


(** X14: the packet [fetchone] hands to the decoder (lines 164-182) is
    the byte [b'0'] followed by exactly the bytes taken from the file:
    a header of 19 bytes that unpacks to the fields read, and the body.
    With an [event_size] of at least 19 the body is the [event_size - 19]
    bytes behind the header, or what the file has of them; an
    [event_size] below 19 is 18, and the body is the whole rest of the
    file.  The position of the packet is back at its start, and skipping
    the first byte gives the header back. *)
Theorem packet_holds_bytes_read (bs rest pkt : list byte) (h : header) :
  read_frame bs = (rest, Ok (Some (h, pkt))) →
  ∃ hd body,
    bs = hd ++ body ++ rest
    ∧ length hd = 19%nat
    ∧ unpack_header hd = Ok h
    ∧ (19 ≤ h_event_size h →
       body = take (Z.to_nat (h_event_size h - 19)) (drop 19 bs))
    ∧ (h_event_size h < 19 →
       h_event_size h = 18 ∧ body = drop 19 bs ∧ rest = [])
    ∧ make_pkt hd body = Ok {| getvalue := pkt; tell := 0 |}
    ∧ ∃ pkt1, advance 1 {| getvalue := pkt; tell := 0 |} = Ok pkt1
        ∧ fst (read 19 pkt1) = hd.
Proof.
  unfold read_frame, file_read. intros H.
  repeat case_decide; try done; try lia.
  case_bool_decide; [done|].
  destruct (unpack_header (take (Z.to_nat 19) bs)) as [h'|] eqn:Hh; [|done].
  assert (Hlen : length (take (Z.to_nat 19) bs) = 19%nat).
  { unfold unpack_header in Hh.
    by destruct (decide (length (take (Z.to_nat 19) bs) = 19%nat)). }
  assert (Hpkt : ∀ body,
    ∃ pkt1, advance 1 {| getvalue := x30 :: take (Z.to_nat 19) bs ++ body;
                         tell := 0 |} = Ok pkt1
            ∧ fst (read 19 pkt1) = take (Z.to_nat 19) bs).
  { intros body.
    exists {| getvalue := x30 :: take (Z.to_nat 19) bs ++ body; tell := 1 |}.
    split.
    - unfold advance, seek. cbn [getvalue tell].
      destruct (decide (Z.of_nat 0 + 1 < 0)); [lia|].
      destruct (decide (maxsize < Z.of_nat 0 + 1)); [unfold maxsize in *; lia|].
      done.
    - unfold read. cbn [getvalue tell drop fst].
      destruct (decide (19 < 0)); [lia|].
      rewrite !drop_0, length_app, Hlen.
      rewrite Nat.min_l by lia. rewrite take_app_le by lia.
      apply take_ge. lia. }
  repeat case_decide; simplify_eq.
  - exists (take (Z.to_nat 19) bs), (drop (Z.to_nat 19) bs).
    split; [by rewrite app_nil_r, take_drop|]. split; [done|].
    split; [done|]. split; [lia|]. split; [intros _; split; [lia|done]|].
    split; [apply make_pkt_value|]. apply Hpkt.
  - exists (take (Z.to_nat 19) bs),
      (take (Z.to_nat (h_event_size h - 19)) (drop (Z.to_nat 19) bs)).
    split; [by rewrite !take_drop|]. split; [done|].
    split; [done|]. split; [done|]. split; [lia|].
    split; [apply make_pkt_value|]. apply Hpkt.
Qed.

(** ** Text files *)

Lemma has_char_app (c : Ascii.ascii) (s1 s2 : string) :
  has_char c (s1 +:+ s2) = has_char c s1 || has_char c s2.
Proof.
  induction s1 as [|c' s1 IH]; simpl; [done|].
  rewrite IH. by rewrite orb_assoc.
Qed.

Lemma LF_neq_CR : LF ≠ CR.
Proof. done. Qed.

Lemma universal_newlines_no_CR (s : string) :
  has_char CR (universal_newlines s) = false.
Proof.
  assert (H : ∀ n s, (String.length s ≤ n)%nat →
                     has_char CR (universal_newlines s) = false).
  { clear s. induction n as [|n IH]; intros [|c s] Hn; simpl in *;
      try done; try lia.
    assert (HLF : ∀ t, has_char CR (String LF t) = has_char CR t).
    { intros t. reflexivity. }
    case_bool_decide as Hc.
    - destruct s as [|c' s].
      + by rewrite HLF.
      + case_bool_decide; rewrite HLF; apply IH; simpl in *; lia.
    - simpl. rewrite bool_decide_false by done. simpl. apply IH. lia. }
  by apply (H (String.length s)).
Qed.

Lemma universal_newlines_id (s : string) :
  has_char CR s = false → universal_newlines s = s.
Proof.
  induction s as [|c s IH]; simpl; [done|].
  intros [Hc Hs]%orb_false_elim. rewrite bool_decide_eq_false in Hc.
  rewrite bool_decide_false by done. by rewrite IH.
Qed.

(** A line of [readlines] is free of line feeds but for one at its end. *)
Lemma readlines_lines (s l : string) :
  l ∈ readlines s →
  ∃ body, (l = body ∨ l = body +:+ String LF EmptyString)
          ∧ has_char LF body = false
          ∧ (has_char CR s = false → has_char CR body = false).
Proof.
  revert l. induction s as [|c s IH]; simpl; intros l Hl.
  { by apply elem_of_nil in Hl. }
  case_bool_decide as Hc.
  - apply elem_of_cons in Hl as [->|Hl].
    + exists EmptyString. subst c. simpl. split; [by right|]. done.
    + destruct (IH l Hl) as (body & Hb & HLF & HCR).
      exists body. split; [done|]. split; [done|].
      intros [_ ?]%orb_false_elim. auto.
  - destruct (readlines s) as [|line lines] eqn:Hs.
    + apply list_elem_of_singleton in Hl as ->.
      exists (String c EmptyString). simpl. split; [by left|].
      rewrite bool_decide_false by done. split; [done|].
      intros [-> _]%orb_false_elim. done.
    + apply elem_of_cons in Hl as [->|Hl].
      * destruct (IH line) as (body & Hb & HLF & HCR); [left|].
        exists (String c body). simpl.
        split; [destruct Hb as [->| ->]; auto|].
        rewrite bool_decide_false by done. split; [done|].
        intros [-> ?]%orb_false_elim. simpl. auto.
      * destruct (IH l) as (body & Hb & HLF & HCR); [by right|].
        exists body. split; [done|]. split; [done|].
        intros [_ ?]%orb_false_elim. auto.
Qed.

Lemma lstrip_newlines_id (s : string) :
  has_char LF s = false → lstrip_newlines s = s.
Proof.
  destruct s as [|c s]; simpl; [done|].
  intros [Hc _]%orb_false_elim. by rewrite Hc.
Qed.

Lemma rstrip_newlines_id (s : string) :
  has_char LF s = false → rstrip_newlines s = s.
Proof.
  induction s as [|c s IH]; simpl; [done|].
  intros [Hc Hs]%orb_false_elim. rewrite IH by done. rewrite Hc.
  by destruct s.
Qed.

Lemma rstrip_newlines_line (s : string) :
  has_char LF s = false →
  rstrip_newlines (s +:+ String LF EmptyString) = s.
Proof.
  induction s as [|c s IH]; simpl.
  - reflexivity.
  - intros [Hc Hs]%orb_false_elim. rewrite IH by done. rewrite Hc.
    by destruct s.
Qed.

Lemma strip_newlines_id (s : string) :
  has_char LF s = false → strip_newlines s = s.
Proof.
  intros H. unfold strip_newlines.
  by rewrite lstrip_newlines_id, rstrip_newlines_id.
Qed.

Lemma strip_newlines_line (s : string) :
  has_char LF s = false →
  strip_newlines (s +:+ String LF EmptyString) = s.
Proof.
  intros H. unfold strip_newlines. destruct s as [|c s].
  - reflexivity.
  - simpl in H. apply orb_false_elim in H as [Hc Hs].
    change ((String c s) +:+ String LF EmptyString)
      with (String c (s +:+ String LF EmptyString)).
    cbn [lstrip_newlines]. rewrite Hc.
    change (String c (s +:+ String LF EmptyString))
      with ((String c s) +:+ String LF EmptyString).
    apply rstrip_newlines_line. simpl. by rewrite Hc, Hs.
Qed.

Lemma readlines_line (l rest : string) :
  has_char LF l = false →
  readlines (l +:+ String LF rest)
  = (l +:+ String LF EmptyString) :: readlines rest.
Proof.
  induction l as [|c l IH]; simpl.
  - reflexivity.
  - intros [Hc Hl]%orb_false_elim. rewrite Hc, IH by done. done.
Qed.

Lemma append_assoc (s1 s2 s3 : string) :
  (s1 +:+ s2) +:+ s3 = s1 +:+ (s2 +:+ s3).
Proof.
  induction s1 as [|c s1 IH]; [done|].
  change (String c ((s1 +:+ s2) +:+ s3) = String c (s1 +:+ s2 +:+ s3)).
  by rewrite IH.
Qed.

Lemma readlines_writelines (lines : list string) :
  Forall (λ l, has_char LF l = false) lines →
  readlines (writelines (map (λ s, s +:+ String LF EmptyString) lines))
  = map (λ s, s +:+ String LF EmptyString) lines.
Proof.
  induction 1 as [|l lines Hl _ IH]; [done|].
  cbn [map writelines]. rewrite append_assoc.
  change (String LF EmptyString +:+ ?x) with (String LF x).
  rewrite readlines_line by done. by rewrite IH.
Qed.

Lemma writelines_no_CR (lines : list string) :
  Forall (λ l, has_char CR l = false) lines →
  has_char CR (writelines (map (λ s, s +:+ String LF EmptyString) lines))
  = false.
Proof.
  induction 1 as [|l lines Hl _ IH]; [done|].
  cbn [map writelines]. rewrite !has_char_app, Hl, IH. reflexivity.
Qed.

(** X15: [read_file] returns the empty list for a path that does not
    exist and raises only for a path that exists and cannot be read as
    text; the lines it returns hold no line feed and no carriage
    return. *)
Theorem read_file_lines (fs : files) (filename : string) :
  (fs !! filename = None → read_file fs filename = Ok [])
  ∧ (∀ e, read_file fs filename = Raise e →
       (fs !! filename = Some Undecodable ∧ e = ValueError)
       ∨ (fs !! filename = Some Unreadable ∧ e = OSError))
  ∧ (∀ lines l, read_file fs filename = Ok lines → l ∈ lines →
       has_char LF l = false ∧ has_char CR l = false).
Proof.
  unfold read_file, path_exists, open_readlines.
  split; [|split].
  - intros ->. rewrite bool_decide_false; [done|].
    by intros [? ?].
  - intros e. destruct (fs !! filename) as [[text| |]|] eqn:Hf.
    + rewrite bool_decide_true by eauto. done.
    + rewrite bool_decide_true by eauto. simpl. intros [= <-]. auto.
    + rewrite bool_decide_true by eauto. simpl. intros [= <-]. auto.
    + rewrite bool_decide_false by (by intros [? ?]). done.
  - intros lines l. destruct (fs !! filename) as [[text| |]|] eqn:Hf.
    + rewrite bool_decide_true by eauto. simpl. intros [= <-].
      intros (l' & -> & Hl')%list_elem_of_fmap.
      apply readlines_lines in Hl' as (body & Hb & HLF & HCR).
      specialize (HCR (universal_newlines_no_CR text)).
      destruct Hb as [->| ->].
      * by rewrite strip_newlines_id.
      * by rewrite strip_newlines_line.
    + rewrite bool_decide_true by eauto. done.
    + rewrite bool_decide_true by eauto. done.
    + rewrite bool_decide_false by (by intros [? ?]). simpl.
      intros [= <-] Hl. by apply elem_of_nil in Hl.
Qed.

(** X16: What [save_executed_result] writes, [read_file] reads back:
    when no line holds a line feed or a carriage return, the list read
    from the file written is the list saved; the other paths are left as
    they were. *)
Theorem save_then_read_file (can_write : string → bool) (fs fs' : files)
    (result_file : string) (result_list : list string) :
  Forall (λ l, has_char LF l = false ∧ has_char CR l = false) result_list →
  save_executed_result can_write fs result_file result_list = Ok fs' →
  read_file fs' result_file = Ok result_list
  ∧ ∀ p, p ≠ result_file → fs' !! p = fs !! p.
Proof.
  intros Hlines. unfold save_executed_result, open_writelines.
  destruct (can_write result_file); [|done]. intros [= <-].
  split; [|by intros p Hp; rewrite lookup_insert_ne].
  unfold read_file, path_exists, open_readlines.
  rewrite lookup_insert_eq. rewrite bool_decide_true by eauto. simpl.
  assert (HLF : Forall (λ l, has_char LF l = false) result_list).
  { eapply Forall_impl; [exact Hlines|]. by intros ? [? ?]. }
  assert (HCR : Forall (λ l, has_char CR l = false) result_list).
  { eapply Forall_impl; [exact Hlines|]. by intros ? [? ?]. }
  rewrite universal_newlines_id by by apply writelines_no_CR.
  rewrite readlines_writelines by done.
  f_equal. rewrite <- list_fmap_compose.
  rewrite <- (list_fmap_id result_list) at 2.
  apply Forall_fmap_ext_1. eapply Forall_impl; [exact HLF|].
  intros l Hl. simpl. by apply strip_newlines_line.
Qed.

(** ** The list of binlog files *)

Lemma ascii_compare_N (a b : Ascii.ascii) :
  Ascii.compare a b = N.compare (Ascii.N_of_ascii a) (Ascii.N_of_ascii b).
Proof. done. Qed.

Lemma ascii_compare_refl (a : Ascii.ascii) : Ascii.compare a a = Eq.
Proof. rewrite ascii_compare_N. apply N.compare_refl. Qed.

Lemma string_compare_cons (a b : Ascii.ascii) (s t : string) :
  String.compare (String a s) (String b t)
  = match Ascii.compare a b with
    | Eq => String.compare s t
    | Lt => Lt
    | Gt => Gt
    end.
Proof. done. Qed.

Lemma string_compare_trans (s1 s2 s3 : string) :
  String.compare s1 s2 ≠ Gt → String.compare s2 s3 ≠ Gt →
  String.compare s1 s3 ≠ Gt.
Proof.
  revert s2 s3. induction s1 as [|a s1 IH]; intros [|b s2] [|c s3];
    try done.
  rewrite !string_compare_cons.
  destruct (Ascii.compare a b) eqn:Hab; [|clear IH|done].
  - apply Ascii.compare_eq_iff in Hab as ->.
    destruct (Ascii.compare b c); [apply IH|done|done].
  - destruct (Ascii.compare b c) eqn:Hbc; [| |done].
    + apply Ascii.compare_eq_iff in Hbc as ->. by rewrite Hab.
    + rewrite ascii_compare_N in *.
      rewrite N.compare_lt_iff in Hab, Hbc.
      assert (Hac : (Ascii.N_of_ascii a < Ascii.N_of_ascii c)%N) by lia.
      rewrite <- N.compare_lt_iff in Hac. by rewrite Hac.
Qed.

Lemma leb_not_Gt (s1 s2 : string) :
  String.leb s1 s2 = true ↔ String.compare s1 s2 ≠ Gt.
Proof. unfold String.leb. destruct (String.compare s1 s2); naive_solver. Qed.

#[global] Instance str_le_trans : Transitive str_le.
Proof.
  intros s1 s2 s3. unfold str_le. rewrite !leb_not_Gt.
  apply string_compare_trans.
Qed.

#[global] Instance str_le_total : Total str_le.
Proof. intros s1 s2. apply String.leb_total. Qed.

Lemma ltb_not_leb (s1 s2 : string) :
  String.ltb s1 s2 = negb (String.leb s2 s1).
Proof.
  unfold String.ltb, String.leb. rewrite (String.compare_antisym s1 s2).
  by destruct (String.compare s2 s1).
Qed.

Lemma sorted_StronglySorted (l : list string) :
  StronglySorted str_le (sorted l).
Proof. apply (StronglySorted_merge_sort str_le). Qed.

Lemma list_remove_head (x : string) (kept l : list string) :
  x ∉ kept → list_remove x (kept ++ x :: l) = Ok (kept ++ l).
Proof.
  induction kept as [|y kept IH]; simpl; intros Hx.
  - by rewrite bool_decide_true.
  - apply not_elem_of_cons in Hx as [Hxy Hx].
    rewrite bool_decide_false by done. by rewrite IH.
Qed.

Lemma remove_missing_filter (fs : files) (kept copy : list string) :
  Forall (λ p, path_exists fs p = true) kept →
  remove_missing fs copy (kept ++ copy)
  = Ok (kept ++ filter (λ p, path_exists fs p = true) copy).
Proof.
  revert kept. induction copy as [|f copy IH]; intros kept Hkept; simpl.
  { done. }
  destruct (path_exists fs f) eqn:Hf; simpl.
  - rewrite filter_cons_True by done.
    rewrite (cons_middle f kept copy), app_assoc. rewrite IH.
    + by rewrite <- app_assoc.
    + apply Forall_app. split; [done|]. by apply Forall_singleton.
  - rewrite filter_cons_False by (by rewrite Hf).
    rewrite list_remove_head; [by apply IH|].
    intros Hin. rewrite Forall_forall in Hkept.
    specialize (Hkept f Hin). congruence.
Qed.

Lemma remove_missing_all (fs : files) (l : list string) :
  remove_missing fs l l = Ok (filter (λ p, path_exists fs p = true) l).
Proof. exact (remove_missing_filter fs [] l (Forall_nil_2 _)). Qed.

Lemma append_cons (c : Ascii.ascii) (s t : string) :
  String c s +:+ t = String c (s +:+ t).
Proof. done. Qed.

Lemma leb_append (p s t : string) :
  String.leb (p +:+ s) (p +:+ t) = String.leb s t.
Proof.
  induction p as [|c p IH]; [done|].
  rewrite !append_cons. unfold String.leb in *.
  by rewrite string_compare_cons, ascii_compare_refl.
Qed.

Lemma absolute_cons (c : Ascii.ascii) (s : string) :
  absolute (String c s) = bool_decide (String c EmptyString = "/").
Proof.
  unfold absolute.
  change (String.prefix "/" (String c s))
    with (if Ascii.ascii_dec (Ascii.ascii_of_nat 47) c
          then String.prefix "" s else false).
  destruct (Ascii.ascii_dec (Ascii.ascii_of_nat 47) c) as [<-|Hc].
  - by destruct s.
  - rewrite bool_decide_false; [done|]. intros [= ->]. by apply Hc.
Qed.

Lemma absolute_append (a b : string) :
  absolute a = true → absolute (a +:+ b) = true.
Proof.
  destruct a as [|c a]; [done|]. by rewrite append_cons, !absolute_cons.
Qed.

Lemma path_join_absolute (a b : string) :
  absolute a = true → absolute (path_join a b) = true.
Proof.
  intros Ha. unfold path_join. fold (absolute b).
  destruct (absolute b) eqn:Hb; [done|].
  destruct (bool_decide (a = "") || ends_with_slash a);
    by apply absolute_append.
Qed.

(** Joining to the same directory keeps the order of names. *)
Lemma path_join_le (a f g : string) :
  absolute f = false → absolute g = false → str_le f g →
  str_le (path_join a f) (path_join a g).
Proof.
  intros Hf Hg Hle. unfold path_join. fold (absolute f) (absolute g).
  rewrite Hf, Hg. unfold str_le in *.
  destruct (bool_decide (a = "") || ends_with_slash a).
  - by rewrite leb_append.
  - by rewrite !leb_append.
Qed.

Lemma filter_none {A} (P : A → Prop) `{∀ x, Decision (P x)} (l : list A) :
  Forall (λ x, ¬ P x) l → filter P l = [].
Proof.
  induction 1 as [|x l Hx _ IH]; [done|]. by rewrite filter_cons_False.
Qed.

Section FileListFacts.

Context (listdir : string → result (list string)).
Context (re_search : string → string → result bool).
Context (age : string → result Z).

Local Abbreviation scan_dir := (scan_dir re_search age).
Local Abbreviation scan_paths := (scan_paths re_search).
Local Abbreviation get_binlog_file_list :=
  (get_binlog_file_list listdir re_search age).

(** The loop of lines 538-549 on names in ascending order: leaving the
    loop behind [stop_file] drops the same names as passing over each of
    them. *)
Lemma scan_dir_filter (args : file_args) (executed names : list string)
    (matches : string → bool) (ages : string → Z) :
  StronglySorted str_le names →
  (∀ f, f ∈ names → re_search (file_regex args) f = Ok (matches f)) →
  (stop_never args = true → ∀ f, f ∈ names →
     age (path_join (file_dir args) f) = Ok (ages f)) →
  scan_dir args executed names
  = Ok (map (path_join (file_dir args))
          (filter (λ f,
             between_start_and_stop args f && matches f
             && negb (stop_never args
                      && ((ages f <? minutes_ago args * 60)
                          || bool_decide
                               (path_join (file_dir args) f ∈ executed)))
             = true) names)).
Proof.
  intros Hsorted. induction Hsorted as [|f names Hsorted IH Hle];
    intros Hre Hage; [done|].
  assert (IH' := IH (λ g Hg, Hre g (list_elem_of_further _ _ _ Hg))
                    (λ Hs g Hg, Hage Hs g (list_elem_of_further _ _ _ Hg))).
  clear IH. simpl.
  rewrite !ltb_not_leb, <- !negb_orb.
  destruct (bool_decide (start_file args = "")
            || String.leb (start_file args) f) eqn:Hlo; simpl.
  2: { rewrite filter_cons_False; [done|].
       unfold between_start_and_stop. by rewrite Hlo. }
  destruct (bool_decide (stop_file args = "")
            || String.leb f (stop_file args)) eqn:Hhi; simpl.
  2: { rewrite filter_cons_False
         by (unfold between_start_and_stop; by rewrite Hlo, Hhi).
       rewrite filter_none; [done|].
       apply orb_false_elim in Hhi as [Hstop Hfs].
       rewrite Forall_forall in Hle |- *. intros g Hg.
       unfold between_start_and_stop. rewrite Hstop. simpl.
       destruct (String.leb g (stop_file args)) eqn:Hgs;
         [|by rewrite andb_false_r].
       assert (str_le f (stop_file args))
         by (etrans; [apply Hle, Hg|exact Hgs]).
       unfold str_le in *. congruence. }
  assert (Hbetween : between_start_and_stop args f = true).
  { unfold between_start_and_stop. by rewrite Hlo, Hhi. }
  rewrite (Hre f) by apply list_elem_of_here.
  destruct (matches f) eqn:Hm; simpl.
  2: { rewrite filter_cons_False; [done|]. by rewrite Hm, andb_false_r. }
  destruct (stop_never args) eqn:Hnever; simpl.
  - rewrite (Hage eq_refl f) by apply list_elem_of_here.
    destruct ((ages f <? minutes_ago args * 60)
              || bool_decide (path_join (file_dir args) f ∈ executed))
      eqn:Hskip; simpl.
    + rewrite filter_cons_False; [done|].
      by rewrite Hbetween, Hm, Hskip.
    + rewrite filter_cons_True by (by rewrite Hbetween, Hm, Hskip).
      by rewrite IH'.
  - rewrite filter_cons_True by (by rewrite Hbetween, Hm).
    by rewrite IH'.
Qed.

(** X17: With a directory and no paths given, the binlog files are the
    names of the directory in ascending order that lie between
    [start_file] and [stop_file], match the pattern and, under
    [stop_never], are old enough and not yet recorded, each joined to the
    directory; the records returned are those whose file still
    exists. *)
Theorem binlog_files_of_directory (fs : files) (args : file_args)
    (names executed : list string)
    (matches : string → bool) (ages : string → Z) :
  file_dir args ≠ "" →
  file_path args = [] →
  executed_records fs args = Ok executed →
  listdir (file_dir args) = Ok names →
  (∀ f, f ∈ names → re_search (file_regex args) f = Ok (matches f)) →
  (stop_never args = true → ∀ f, f ∈ names →
     age (path_join (file_dir args) f) = Ok (ages f)) →
  get_binlog_file_list fs args
  = Ok (map (path_join (file_dir args))
          (filter (λ f,
             between_start_and_stop args f && matches f
             && negb (stop_never args
                      && ((ages f <? minutes_ago args * 60)
                          || bool_decide
                               (path_join (file_dir args) f ∈ executed)))
             = true) (sorted names)),
        filter (λ p, path_exists fs p = true) executed).
Proof.
  intros Hdir Hpath Hexec Hnames Hre Hage.
  unfold get_binlog_file_list. rewrite Hexec.
  rewrite bool_decide_false by done. rewrite bool_decide_true by done.
  simpl. rewrite Hnames.
  assert (Hperm : ∀ f, f ∈ sorted names → f ∈ names).
  { intros f. unfold sorted. by rewrite merge_sort_Permutation. }
  rewrite (scan_dir_filter args executed (sorted names) matches ages);
    [|apply sorted_StronglySorted|by auto|by auto].
  by rewrite remove_missing_all.
Qed.

(** X18: The loop of lines 559-561 keeps the records whose file exists,
    in their order, and never raises, also when a record is there more
    than once; without [stop_never] no record is returned. *)
Theorem executed_files_that_exist (fs : files) (args : file_args)
    (executed : list string) :
  remove_missing fs executed executed
  = Ok (filter (λ p, path_exists fs p = true) executed)
  ∧ (∀ binlog_file_list executed',
       get_binlog_file_list fs args = Ok (binlog_file_list, executed') →
       Forall (λ p, path_exists fs p = true) executed'
       ∧ (stop_never args = false → executed' = [])).
Proof.
  split; [apply remove_missing_all|].
  intros l executed'. unfold get_binlog_file_list.
  destruct (executed_records fs args) as [ex|] eqn:Hex; [|done].
  rewrite remove_missing_all.
  match goal with
  | |- context [match ?x with Ok _ => _ | Raise _ => _ end] =>
      destruct x; [|done]
  end.
  intros [= <- <-]. split.
  - apply Forall_forall. by intros p [Hp _]%list_elem_of_filter.
  - intros Hnever. unfold executed_records in Hex. rewrite Hnever in Hex.
    simpl in Hex. by simplify_eq.
Qed.

Lemma scan_dir_names (args : file_args) (executed names l : list string) :
  scan_dir args executed names = Ok l →
  Forall (λ p, ∃ f, f ∈ names ∧ p = path_join (file_dir args) f) l.
Proof.
  revert l. induction names as [|f names IH]; intros l; simpl.
  { intros [= <-]. constructor. }
  assert (Hnext : ∀ l', scan_dir args executed names = Ok l' →
    Forall (λ p, ∃ g, g ∈ f :: names ∧ p = path_join (file_dir args) g) l').
  { intros l' Hl'. eapply Forall_impl; [by apply IH|].
    intros p (g & Hg & ->). exists g. split; [by right|done]. }
  destruct (_ && String.ltb f _); [by apply Hnext|].
  destruct (_ && String.ltb _ f); [intros [= <-]; constructor|].
  destruct (re_search (file_regex args) f) as [[|]|]; [|by apply Hnext|done].
  match goal with
  | |- match ?x with Ok _ => _ | Raise _ => _ end = _ → _ =>
      destruct x as [[|]|]; [by apply Hnext| |done]
  end.
  destruct (scan_dir args executed names) as [l'|] eqn:Hl'; [|done].
  intros [= <-]. constructor; [|by apply Hnext].
  exists f. split; [by left|done].
Qed.

Lemma scan_dir_sorted (args : file_args) (executed names l : list string) :
  StronglySorted str_le names →
  Forall (λ f, absolute f = false) names →
  scan_dir args executed names = Ok l →
  StronglySorted str_le l.
Proof.
  intros Hsorted. revert l.
  induction Hsorted as [|f names Hsorted IH Hle]; intros l Hrel; simpl.
  { intros [= <-]. constructor. }
  apply Forall_cons in Hrel as [Hf Hrel].
  destruct (_ && String.ltb f _); [by apply IH|].
  destruct (_ && String.ltb _ f); [intros [= <-]; constructor|].
  destruct (re_search (file_regex args) f) as [[|]|]; [|by apply IH|done].
  match goal with
  | |- match ?x with Ok _ => _ | Raise _ => _ end = _ → _ =>
      destruct x as [[|]|]; [by apply IH| |done]
  end.
  destruct (scan_dir args executed names) as [l'|] eqn:Hl'; [|done].
  intros [= <-]. constructor; [by apply IH|].
  apply scan_dir_names in Hl'.
  eapply Forall_impl; [exact Hl'|]. intros p (g & Hg & ->).
  rewrite Forall_forall in Hle, Hrel.
  apply path_join_le; auto.
Qed.

(** X19: The binlog files of a directory come in ascending order of
    their paths, whatever the order in which the directory lists its
    names. *)
Theorem binlog_files_of_directory_ascending (fs : files) (args : file_args)
    (names binlog_file_list executed : list string) :
  file_dir args ≠ "" →
  file_path args = [] →
  listdir (file_dir args) = Ok names →
  Forall (λ f, absolute f = false) names →
  get_binlog_file_list fs args = Ok (binlog_file_list, executed) →
  StronglySorted str_le binlog_file_list.
Proof.
  intros Hdir Hpath Hnames Hrel. unfold get_binlog_file_list.
  destruct (executed_records fs args) as [ex|]; [|done].
  rewrite bool_decide_false by done. rewrite bool_decide_true by done.
  simpl. rewrite Hnames.
  destruct (scan_dir args ex (sorted names)) as [l|] eqn:Hl; [|done].
  rewrite remove_missing_all. intros [= <- _].
  eapply scan_dir_sorted; [apply sorted_StronglySorted| |exact Hl].
  rewrite Forall_forall in Hrel |- *. intros f Hf. apply Hrel.
  unfold sorted in Hf. by rewrite merge_sort_Permutation in Hf.
Qed.

Lemma scan_paths_absolute (args : file_args) (paths l : list string) :
  absolute (file_dir args) = true →
  scan_paths args paths = Ok l →
  Forall (λ p, absolute p = true) l.
Proof.
  intros Hdir. revert l. induction paths as [|f paths IH]; intros l; simpl.
  { intros [= <-]. constructor. }
  destruct (re_search (file_regex args) f) as [[|]|]; [|by apply IH|done].
  destruct (scan_paths args paths) as [l'|]; [|done].
  intros [= <-]. constructor; [|by apply IH].
  fold (absolute f). destruct (absolute f) eqn:Hf; simpl; [done|].
  case_bool_decide as Hd; simpl; [by rewrite Hd in Hdir|].
  by apply path_join_absolute.
Qed.

(** X20: When [file_dir] is an absolute path, every binlog file
    returned is an absolute path, with names of the directory as with
    paths given: a relative path is joined to the directory, an absolute
    one is kept. *)
Theorem binlog_files_absolute (fs : files) (args : file_args)
    (binlog_file_list executed : list string) :
  absolute (file_dir args) = true →
  get_binlog_file_list fs args = Ok (binlog_file_list, executed) →
  Forall (λ p, absolute p = true) binlog_file_list.
Proof.
  intros Hdir. unfold get_binlog_file_list.
  destruct (executed_records fs args) as [ex|]; [|done].
  rewrite remove_missing_all.
  destruct (negb (bool_decide (file_dir args = ""))
            && bool_decide (file_path args = [])).
  - destruct (listdir (file_dir args)) as [names|]; [|done].
    destruct (scan_dir args ex (sorted names)) as [l|] eqn:Hl; [|done].
    intros [= <- _]. apply scan_dir_names in Hl.
    eapply Forall_impl; [exact Hl|]. intros p (g & _ & ->).
    by apply path_join_absolute.
  - destruct (scan_paths args (file_path args)) as [l|] eqn:Hl; [|done].
    intros [= <- _]. by eapply scan_paths_absolute.
Qed.

End FileListFacts.

Import Script.

(** C1 on a reader that holds the table 7 and the position 150: the
    rotation at 300 sets the three attributes and empties the registry;
    and on the file of a rotation to [abc], [fetchone] returns the
    rotation with the registry empty. *)
Lemma rotate_resets_table_map_witness :
  let st := reader_with_table (args (Some 4) None None true) in
  let st' :=
    outcome_state (process_event st (rotation 0 300 4 "mysql-bin.000002")) in
  table_map st !! 7 = Some [x01] ∧ log_pos st = Some 150 ∧ log_file st = None
  ∧ passes_position_filters st (rotation 0 300 4 "mysql-bin.000002")
  ∧ log_file st' = Some "mysql-bin.000002" ∧ log_pos st' = Some 4
  ∧ table_map st' = ∅
  ∧ ∃ st1,
      run_fetchone rotate_200_stop_600 st
      = Some (st1, Ok (Some (Rotate 4 "abc")))
      ∧ table_map st1 = ∅ ∧ log_file st1 = Some "abc"
      ∧ log_pos st1 = Some 4.
Proof.
  intros st st'.
  assert (passes_position_filters st (rotation 0 300 4 "mysql-bin.000002"))
    as Hpass
    by (split; [exists (Rotate 4 "mysql-bin.000002")|split];
        vm_compute; reflexivity).
  split; [vm_compute; reflexivity|]. split; [vm_compute; reflexivity|]. split; [vm_compute; reflexivity|].
  split; [exact Hpass|].
  destruct (proj1 (rotate_resets_table_map pymysql_wrapper (fs path [])
                     BinLogPacketWrapper st
                     (rotation 0 300 4 "mysql-bin.000002"))
              4 "mysql-bin.000002" eq_refl eq_refl Hpass)
    as (Hf & Hp & Ht & _).
  split; [exact Hf|]. split; [exact Hp|]. split; [exact Ht|].
  pose (binlog_event := read_packet rotate_200_stop_600 st).
  assert (passes_position_filters st binlog_event) as Hpass2
    by (split; [exists (Rotate 4 "abc")|split]; vm_compute; reflexivity).
  destruct (proj2 (proj2 (proj2 (proj2
              (rotate_resets_table_map pymysql_wrapper
                 (fs path rotate_200_stop_600) BinLogPacketWrapper
                 st binlog_event))))
              (drop 4 rotate_200_stop_600) (frame 11 3 19 600 [])
              (first_frame rotate_200_stop_600).1
              (first_frame rotate_200_stop_600).2
              (metadata st) 4 "abc")
    as (st1 & Ht1 & Hf1 & Hl1 & _ & Hloop & _).
  - right. split; vm_compute; reflexivity.
  - vm_compute; reflexivity.
  - vm_compute; reflexivity.
  - vm_compute; reflexivity.
  - vm_compute; reflexivity.
  - vm_compute; reflexivity.
  - exact Hpass2.
  - exists st1. split; [|exact (conj Ht1 (conj Hf1 Hl1))].
    assert (negb (before_skip_to_timestamp st binlog_event)
            && bool_decide (RotateEvent ∈ allowed_events st) = true) as Hc
      by (vm_compute; reflexivity).
    unfold run_fetchone, fetchone. rewrite Hloop, Hc. reflexivity.
Defined.





(** C7 on a reader that holds the table 7 and the position 150, with
    [skip_to_timestamp] set, and a file that ends with a rotation with
    the timestamp 0: the rotation is dropped, and [fetchone] returns
    [None] with the registry empty and the file and position of the
    rotation. *)
Lemma skip_to_timestamp_after_rotate_witness :
  let st := reader_with_table (args (Some 4) None (Some 1700000000) true) in
  let binlog_event := read_packet rotate_200_at_end st in
  table_map st !! 7 = Some [x01] ∧ log_pos st = Some 150 ∧ log_file st = None
  ∧ pkt_timestamp binlog_event = 0
  ∧ passes_position_filters st binlog_event
  ∧ (∃ st',
       process_event st binlog_event = Continue st'
       ∧ log_file st' = Some "abc" ∧ log_pos st' = Some 4
       ∧ table_map st' = ∅)
  ∧ ∃ st2,
      run_fetchone rotate_200_at_end st = Some (st2, Ok None)
      ∧ table_map st2 = ∅ ∧ log_file st2 = Some "abc"
      ∧ log_pos st2 = Some 4.
Proof.
  intros st binlog_event.
  assert (passes_position_filters st binlog_event) as Hpass
    by (split; [exists (Rotate 4 "abc")|split]; vm_compute; reflexivity).
  assert (negb (connected_ctl (metadata st))
          && settings_given (metadata st) = false) as Hconn
    by (vm_compute; reflexivity).
  split; [vm_compute; reflexivity|]. split; [vm_compute; reflexivity|].
  split; [vm_compute; reflexivity|]. split; [vm_compute; reflexivity|].
  split; [exact Hpass|].
  destruct (skip_to_timestamp_after_rotate pymysql_wrapper
              (fs path rotate_200_at_end) BinLogPacketWrapper
              st binlog_event 4 "abc" 1700000000)
    as [(st' & Hp & Hf & Hl & Ht & _) Hfile].
  - vm_compute; reflexivity.
  - vm_compute; reflexivity.
  - exact Hpass.
  - vm_compute; reflexivity.
  - lia.
  - assert (pkt_timestamp binlog_event = 0) as -> by (vm_compute; reflexivity).
    lia.
  - split; [exists st'; exact (conj Hp (conj Hf (conj Hl Ht)))|].
    destruct (Hfile (drop 4 rotate_200_at_end) []
                (first_frame rotate_200_at_end).1
                (first_frame rotate_200_at_end).2 (metadata st))
      as (st1 & _ & _ & _ & _ & _ & Hend).
    + right. split; vm_compute; reflexivity.
    + exact Hconn.
    + vm_compute; reflexivity.
    + vm_compute; reflexivity.
    + exact (Hend eq_refl Hconn).
Defined.



(** C3 on the file of the magic bytes and one more byte: [fetchone]
    raises [struct.error]; on the file of the magic bytes alone it returns
    [None]. *)
Lemma partial_header_raises_witness :
  let st := reader_of (args (Some 4) None None true) in
  (∃ st', run_fetchone one_stray_byte st = Some (st', Raise StructError))
  ∧ (∃ st', run_fetchone _expected_magic st = Some (st', Ok None)).
Proof.
  intros st. split.
  - apply (proj1 (partial_header_raises pymysql_wrapper (fs path one_stray_byte)
                    BinLogPacketWrapper st [x01] eq_refl eq_refl eq_refl)).
    simpl. lia.
  - destruct (proj1 (proj2 (partial_header_raises pymysql_wrapper
                              (fs path _expected_magic)
                              BinLogPacketWrapper st [] eq_refl eq_refl eq_refl))
                eq_refl) as (st' & Hf & _).
    by exists st'.
Defined.

(** C4 on a header that declares the size 0: [fetchone] raises
    [ValueError], not [EventSizeTooSmallError]. *)
Lemma event_size_too_small_not_raised_witness :
  let st := reader_of (args (Some 4) None None true) in
  unpack_header (take 19 (frame 10 2 0 100 [])) = Ok header_size_0
  ∧ h_event_size header_size_0 < 19
  ∧ ∃ st', run_fetchone event_size_0 st = Some (st', Raise ValueError).
Proof.
  intros st.
  assert (unpack_header (take 19 (frame 10 2 0 100 [])) = Ok header_size_0)
    as Hh by (by vm_compute).
  split; [exact Hh|]. split; [simpl; lia|].
  apply (proj1 (event_size_too_small_not_raised pymysql_wrapper
                  (fs path event_size_0) BinLogPacketWrapper st
                  (frame 10 2 0 100 []) header_size_0
                  eq_refl eq_refl eq_refl Hh)).
  simpl. lia.
Defined.

(** C5 on a server that loses the connection twice: the lookup returns
    [None] and raises nothing. *)
Lemma transient_error_twice_returns_none_witness :
  ∃ c, __get_table_information pymysql_wrapper execute false "shop" "orders"
         lost_twice = (c, Ok None)
       ∧ connected_ctl c = false.
Proof.
  pose (c1 := (table_information_attempt pymysql_wrapper execute false
                 "shop" "orders" lost_twice).1).
  pose (c2 := (table_information_attempt pymysql_wrapper execute false
                 "shop" "orders" (set_connected_ctl false c1)).1).
  exists (set_connected_ctl false c2). split; [|done].
  apply (transient_error_twice_returns_none pymysql_wrapper execute false
           "shop" "orders" lost_twice c1 c2
           2013 "Lost connection" 2006 "MySQL server has gone away").
  - vm_compute; reflexivity.
  - apply list_elem_of_here.
  - vm_compute; reflexivity.
  - apply list_elem_of_further, list_elem_of_here.
Defined.

(** C9 as stated fails on a file whose positions go down: with
    [stop_pos = 100] the frame of unknown type at 200 ends the stream
    when the flag is false, while with the flag true the frame is dropped
    before the position tests and the stop event behind it is yielded. *)
Lemma filter_yields_more_beyond_stop_pos :
  let st_t := reader_of (args (Some 4) (Some 100) None true) in
  let st_f := reader_of (args (Some 4) (Some 100) None false) in
  open_reader (args (Some 4) (Some 100) None true) [] = Ok st_t
  ∧ open_reader (args (Some 4) (Some 100) None false) [] = Ok st_f
  ∧ (∃ st', run_iter unknown_200_stop_50 st_t
            = Some (st', [Other StopEvent []], Ok tt))
  ∧ (∃ st', run_iter unknown_200_stop_50 st_f = Some (st', [], Ok tt))
  ∧ ¬ ([Other StopEvent [] : event Table Payload] `sublist_of` []).
Proof.
  intros st_t st_f.
  split; [by vm_compute|]. split; [by vm_compute|].
  split; [eexists; by vm_compute|]. split; [eexists; by vm_compute|].
  by intros ?%sublist_nil_r.
Qed.

(** C9, amended, on a file with rising positions and [stop_pos = 540]. *)
Lemma filter_non_implemented_subsequence_witness :
  let a := args (Some 4) (Some 540) None true in
  let st_f := reader_of (with_filter false a) in
  StronglySorted Z.le
    (frame_log_positions (S (length positions_120_260_540_800))
       (drop 4 positions_120_260_540_800))
  ∧ ∃ st_t st_t' r_t st_f' r_f es_t es_f,
      open_reader (with_filter true a) [] = Ok st_t
      ∧ run_iter positions_120_260_540_800 st_t = Some (st_t', es_t, r_t)
      ∧ run_iter positions_120_260_540_800 st_f = Some (st_f', es_f, r_f)
      ∧ es_t = filter (λ e, class_of e ≠ NotImplementedEvent) es_f
      ∧ es_t `sublist_of` es_f.
Proof.
  intros a st_f.
  assert (StronglySorted Z.le
            (frame_log_positions (S (length positions_120_260_540_800))
               (drop 4 positions_120_260_540_800))) as Hsorted.
  { change (StronglySorted Z.le [120; 260; 540; 800]).
    repeat (constructor; [|repeat constructor; lia]). constructor. }
  split; [exact Hsorted|].
  destruct (filter_non_implemented_subsequence pymysql_wrapper execute
              (fs path positions_120_260_540_800) parse_event [] a [] st_f)
    as (st_t & Hinit & _ & st_t' & r_t & st_f' & r_f & es_t & es_f
        & Ht & Hf & Heq & Hsub);
    [by vm_compute | right; exact Hsorted |].
  exists st_t, st_t', r_t, st_f', r_f, es_t, es_f.
  exact (conj Hinit (conj Ht (conj Hf (conj Heq Hsub)))).
Defined.

(** C10 on a class left out of [only_events] and on a class listed twice
    in [ignored_events]: the constructor raises [KeyError]. *)
Lemma ignored_event_not_allowed_raises_witness :
  open_reader (event_args (Some [QueryEvent]) (Some [RotateEvent])) []
    = Raise (KeyError RotateEvent)
  ∧ open_reader (event_args None (Some [XidEvent; XidEvent])) []
    = Raise (KeyError XidEvent).
Proof.
  split.
  - apply (ignored_event_not_allowed_raises pymysql_wrapper execute
             (event_args (Some [QueryEvent]) (Some [RotateEvent])) []
             [] RotateEvent [] (selected_events (Some [QueryEvent])));
      [done | done | ].
    unfold selected_events. simpl. set_solver.
  - apply (ignored_event_not_allowed_raises pymysql_wrapper execute
             (event_args None (Some [XidEvent; XidEvent])) []
             [XidEvent] XidEvent [] (default_events ∖ {[XidEvent]}));
      [done | | set_solver].
    simpl. by rewrite set_remove_ok by (by vm_compute).
Defined.

(** ** The properties on sample inputs *)

(** X1 on the file of one stop event. *)
Lemma fetchone_terminates_witness :
  let st := reader_of (args (Some 4) None None true) in
  ∃ st' r,
    run_fetchone stop_at_100 st = Some (st', r)
    ∧ (unread (fs path stop_at_100) st' ≤ unread (fs path stop_at_100) st)%nat
    ∧ (∀ e, r = Ok (Some e) →
         (unread (fs path stop_at_100) st' + 19
          ≤ unread (fs path stop_at_100) st)%nat).
Proof.
  intros st.
  exact (fetchone_terminates pymysql_wrapper (fs path stop_at_100)
           BinLogPacketWrapper st).
Defined.

(** X2 on the file of four frames. *)
Lemma iter_terminates_witness :
  let st := reader_of (args (Some 4) None None true) in
  ∃ st' es r,
    run_iter positions_120_260_540_800 st = Some (st', es, r)
    ∧ (19 * length es ≤ unread (fs path positions_120_260_540_800) st)%nat.
Proof.
  intros st.
  exact (iter_terminates pymysql_wrapper (fs path positions_120_260_540_800)
           BinLogPacketWrapper st).
Defined.

(** X3 on the file of one stop event. *)
Lemma fetchone_returns_allowed_class_witness :
  let st := reader_of (args (Some 4) None None true) in
  ∃ st' e,
    fetchone_loop pymysql_wrapper (fs path stop_at_100) BinLogPacketWrapper
      5 st = Some (st', Ok (Some e))
    ∧ class_of e ∈ allowed_events st
    ∧ class_of e ≠ NotImplementedEvent.
Proof.
  intros st.
  assert (∃ st' e,
    fetchone_loop pymysql_wrapper (fs path stop_at_100) BinLogPacketWrapper
      5 st = Some (st', Ok (Some e))) as (st' & e & H)
    by (eexists _, _; by vm_compute).
  destruct (fetchone_returns_allowed_class pymysql_wrapper execute
              (fs path stop_at_100) BinLogPacketWrapper 5 st st' e H)
    as (Hc & _ & Hn).
  exists st', e. split; [exact H|]. split; [exact Hc|].
  apply (Hn (args (Some 4) None None true) []); by vm_compute.
Defined.

(** X4 on the file of one stop event. *)
Lemma fetchone_returns_from_start_witness :
  let st := reader_of (args (Some 4) None None true) in
  ∃ st' e binlog_event start,
    fetchone_loop pymysql_wrapper (fs path stop_at_100) BinLogPacketWrapper
      5 st = Some (st', Ok (Some e))
    ∧ pkt_event binlog_event = Some e
    ∧ start_pos st = Some start
    ∧ start ≤ pkt_log_pos binlog_event.
Proof.
  intros st.
  assert (∃ st' e,
    fetchone_loop pymysql_wrapper (fs path stop_at_100) BinLogPacketWrapper
      5 st = Some (st', Ok (Some e))) as (st' & e & H)
    by (eexists _, _; by vm_compute).
  destruct (fetchone_returns_from_start pymysql_wrapper
              (fs path stop_at_100) BinLogPacketWrapper 5 st st' e H)
    as (_ & _ & binlog_event & _ & _ & He & (start & Hs & Hle) & _).
  exists st', e, binlog_event, start.
  exact (conj H (conj He (conj Hs Hle))).
Defined.

(** X5 on a table map with the table id 7 at position 150. *)
Lemma table_map_event_registered_witness :
  let st := reader_of (args (Some 4) None None true) in
  let binlog_event : packet Table Payload :=
    {| pkt_timestamp := 10; pkt_event_type := TABLE_MAP_EVENT;
       pkt_log_pos := 150; pkt_event := Some (TableMap 7 [x01]) |} in
  passes_position_filters st binlog_event
  ∧ table_map (outcome_state (process_event st binlog_event)) !! 7
    = Some [x01].
Proof.
  intros st binlog_event.
  assert (passes_position_filters st binlog_event) as Hpass
    by (repeat split; eauto).
  split; [exact Hpass|].
  destruct (table_map_event_registered st binlog_event 7 [x01]
              eq_refl eq_refl Hpass) as [Hwrite _].
  destruct (Hwrite eq_refl) as [Hlookup _]. exact Hlookup.
Defined.

(** X6 on a reader built with [only_events=[QueryEvent]]. *)
Lemma rotate_and_table_map_kept_for_tracking_witness :
  let a := event_args (Some [QueryEvent]) None in
  let st := reader_of a in
  open_reader a [] = Ok st
  ∧ TableMapEvent ∈ allowed_events_in_packet st
  ∧ RotateEvent ∈ allowed_events_in_packet st
  ∧ allowed_events st ⊆ allowed_events_in_packet st.
Proof.
  intros a st.
  assert (open_reader a [] = Ok st) as Hinit by (by vm_compute).
  destruct (rotate_and_table_map_kept_for_tracking (Payload := Payload)
              pymysql_wrapper execute (fs path []) BinLogPacketWrapper
              a [] st Hinit) as (Ht & Hr & Hsub & _).
  exact (conj Hinit (conj Ht (conj Hr Hsub))).
Defined.

(** X7 on a file of two bytes. *)
Lemma bad_magic_raises_once_witness :
  let st := reader_of (args (Some 4) None None true) in
  ∃ st1,
    run_fetchone [x01; x02] st
    = Some (st1, Raise (BadMagicBytesError [x01; x02]))
    ∧ _file st1 = Some [].
Proof.
  intros st.
  destruct (proj2 (bad_magic_raises_once pymysql_wrapper (fs path [x01; x02])
                     BinLogPacketWrapper st eq_refl)
              [x01; x02] eq_refl) as (st1 & Hf & Hfile & _); [done|].
  exists st1. exact (conj Hf Hfile).
Defined.

(** X8 on the file of the magic bytes alone, read to its end. *)
Lemma fetchone_at_end_of_file_witness :
  let st := reader_of (args (Some 4) None None true) in
  let st1 := match run_fetchone _expected_magic st with
             | Some (st1, _) => st1
             | None => st
             end in
  run_fetchone _expected_magic st = Some (st1, Ok None)
  ∧ run_fetchone _expected_magic st1 = Some (st1, Ok None).
Proof.
  intros st st1. split; [by vm_compute|].
  apply (fetchone_at_end_of_file pymysql_wrapper (fs path _expected_magic)
           BinLogPacketWrapper st1); by vm_compute.
Defined.

(** X9 on a reader without connection settings, and on a server that
    answers [CRC32]. *)
Lemma checksum_enabled_only_with_value_witness :
  let c : ctl World Conn :=
    {| connected_ctl := false; _ctl_connection := None;
       _ctl_connection_settings := None; world := [] |} in
  let c2 : ctl World Conn :=
    {| connected_ctl := false; _ctl_connection := None;
       _ctl_connection_settings := Some connection_settings;
       world := [Ok [{[ "Value" := PyStr "CRC32" ]}]] |} in
  checksum_enabled pymysql_wrapper execute c = (c, false)
  ∧ ∃ c' conn w rows first value,
      checksum_enabled pymysql_wrapper execute c2 = (c', true)
      ∧ execute conn ShowBinlogChecksum w = (world c', Ok rows)
      ∧ head rows = Some first
      ∧ first !! "Value" = Some value
      ∧ value ≠ PyStr "NONE".
Proof.
  intros c c2. split.
  - apply (proj1 (checksum_enabled_only_with_value pymysql_wrapper execute c));
      reflexivity.
  - assert (∃ c', checksum_enabled pymysql_wrapper execute c2 = (c', true))
      as (c' & Hc') by (eexists; by vm_compute).
    destruct (proj2 (checksum_enabled_only_with_value pymysql_wrapper
                       execute c2) c' Hc')
      as (conn & w & rows & first & value & _ & He & Hh & Hv & Hn).
    exists c', conn, w, rows, first, value.
    exact (conj Hc' (conj He (conj Hh (conj Hv Hn)))).
Defined.

(** X10 on a server that loses the connection once. *)
Lemma lost_connection_recovered_witness :
  let c : ctl World Conn :=
    {| connected_ctl := false; _ctl_connection := None;
       _ctl_connection_settings := Some connection_settings;
       world := [Raise (OperationalError 2013 "Lost connection");
                 Ok [{[ "COLUMN_NAME" := PyStr "id" ]}]] |} in
  ∃ c2, __get_table_information pymysql_wrapper execute false "shop" "orders" c
        = (c2, Ok (Some [{[ "COLUMN_NAME" := PyStr "id" ]}]))
        ∧ connected_ctl c2 = true.
Proof.
  intros c.
  pose (c1 := (table_information_attempt pymysql_wrapper execute false
                 "shop" "orders" c).1).
  destruct (lost_connection_recovered pymysql_wrapper execute false
              "shop" "orders" c c1 2013 "Lost connection"
              (default ∅ (_ctl_connection_settings c1))
              [Ok [{[ "COLUMN_NAME" := PyStr "id" ]}]] tt []
              [{[ "COLUMN_NAME" := PyStr "id" ]}])
    as (c2 & Hc2 & Hconn & _).
  - vm_compute; reflexivity.
  - apply list_elem_of_here.
  - vm_compute; reflexivity.
  - vm_compute; reflexivity.
  - vm_compute; reflexivity.
  - exists c2. exact (conj Hc2 Hconn).
Defined.

(** X11 on a server that loses the connection twice. *)
Lemma expected_codes_never_raised_witness :
  let c' := (__get_table_information pymysql_wrapper execute false
               "shop" "orders" lost_twice).1 in
  __get_table_information pymysql_wrapper execute false "shop" "orders"
    lost_twice = (c', Ok None)
  ∧ connected_ctl c' = false.
Proof.
  intros c'.
  assert (__get_table_information pymysql_wrapper execute false
            "shop" "orders" lost_twice = (c', Ok None)) as H
    by (by vm_compute).
  split; [exact H|].
  exact (proj1 (proj2 (expected_codes_never_raised pymysql_wrapper execute
                         (fs path []) false "shop" "orders" lost_twice c')
                  H)).
Defined.

(** X12 on [only_events=[QueryEvent, XidEvent]] and
    [ignored_events=[XidEvent]]. *)
Lemma allowed_event_list_value_witness :
  _allowed_event_list (Some [QueryEvent; XidEvent]) (Some [XidEvent]) true
  = Ok ((selected_events (Some [QueryEvent; XidEvent])
           ∖ list_to_set [XidEvent]) ∖ {[NotImplementedEvent]}).
Proof.
  apply (proj1 (allowed_event_list_value (Some [QueryEvent; XidEvent])
                  [XidEvent] true)).
  split; [|split; [|done]].
  - apply NoDup_singleton.
  - intros e ->%list_elem_of_singleton. unfold selected_events.
    apply elem_of_list_to_set. apply list_elem_of_further, list_elem_of_here.
Defined.


(** X14 on a frame with a body of two bytes and a byte behind it, and
    on a header that declares the size 18 with five bytes behind it. *)
Lemma packet_holds_bytes_read_witness :
  (∃ h pkt hd body,
     read_frame Dir.two_frames = ([x03], Ok (Some (h, pkt)))
     ∧ Dir.two_frames = hd ++ body ++ [x03]
     ∧ body = [x01; x02]
     ∧ make_pkt hd body = Ok {| getvalue := pkt; tell := 0 |})
  ∧ (∃ h pkt hd body,
       read_frame Dir.size_18 = ([], Ok (Some (h, pkt)))
       ∧ h_event_size h = 18
       ∧ body = [x01; x02; x03; x04; x05]
       ∧ make_pkt hd body = Ok {| getvalue := pkt; tell := 0 |}).
Proof.
  split.
  - assert (∃ h pkt, read_frame Dir.two_frames = ([x03], Ok (Some (h, pkt)))
                     ∧ h_event_size h = 21)
      as (h & pkt & H & Hsize) by (eexists _, _; split; by vm_compute).
    destruct (packet_holds_bytes_read Dir.two_frames [x03] pkt h H)
      as (hd & body & Hbs & _ & _ & Hbody & _ & Hpkt & _).
    exists h, pkt, hd, body. split; [exact H|]. split; [exact Hbs|].
    split; [|exact Hpkt]. rewrite Hbody by lia. rewrite Hsize. reflexivity.
  - assert (∃ h pkt, read_frame Dir.size_18 = ([], Ok (Some (h, pkt)))
                     ∧ h_event_size h = 18)
      as (h & pkt & H & Hsize) by (eexists _, _; split; by vm_compute).
    destruct (packet_holds_bytes_read Dir.size_18 [] pkt h H)
      as (hd & body & _ & _ & _ & _ & Hbody & Hpkt & _).
    exists h, pkt, hd, body. split; [exact H|]. split; [exact Hsize|].
    split; [|exact Hpkt]. destruct Hbody as (_ & -> & _); [lia|].
    reflexivity.
Defined.

(** X15 on a path with no file. *)
Lemma read_file_lines_witness :
  read_file Dir.disk "executed_records.txt" = Ok []
  ∧ read_file Dir.disk "/var/lib/mysql/mysql-bin.000002" = Raise OSError.
Proof.
  split.
  - apply (proj1 (read_file_lines Dir.disk "executed_records.txt")).
    by vm_compute.
  - assert (∃ e, read_file Dir.disk "/var/lib/mysql/mysql-bin.000002"
                 = Raise e) as (e & He) by (eexists; by vm_compute).
    destruct (proj1 (proj2 (read_file_lines Dir.disk
                              "/var/lib/mysql/mysql-bin.000002")) e He)
      as [[Hf _]|[_ ->]]; [|exact He].
    by vm_compute in Hf.
Defined.

(** X16 on two records. *)
Lemma save_then_read_file_witness :
  ∃ fs',
    save_executed_result (λ _, true) Dir.disk "executed_records.txt"
      ["/var/lib/mysql/mysql-bin.000001"; "/var/lib/mysql/mysql-bin.000002"]
    = Ok fs'
    ∧ read_file fs' "executed_records.txt"
      = Ok ["/var/lib/mysql/mysql-bin.000001";
            "/var/lib/mysql/mysql-bin.000002"].
Proof.
  eexists. split; [reflexivity|].
  apply (save_then_read_file (λ _, true) Dir.disk _ "executed_records.txt"
           ["/var/lib/mysql/mysql-bin.000001";
            "/var/lib/mysql/mysql-bin.000002"]).
  - repeat constructor.
  - reflexivity.
Defined.

(** X17 on the directory with [start_file] the second binlog file. *)
Lemma binlog_files_of_directory_witness :
  get_binlog_file_list Dir.listdir Dir.re_search Dir.age Dir.disk Dir.dir_args
  = Ok (["/var/lib/mysql/mysql-bin.000002";
         "/var/lib/mysql/mysql-bin.000003"], []).
Proof.
  refine (eq_trans
            (binlog_files_of_directory Dir.listdir Dir.re_search Dir.age
               Dir.disk Dir.dir_args Dir.names [] Dir.default_pattern
               (λ _, 3600) _ eq_refl eq_refl eq_refl _ _) _).
  - done.
  - intros f _. reflexivity.
  - intros Hnever. discriminate Hnever.
  - vm_compute; reflexivity.
Defined.

(** X18 on a record that is there twice and whose file is gone. *)
Lemma executed_files_that_exist_witness :
  remove_missing Dir.disk
    ["/var/lib/mysql/mysql-bin.000001"; "/var/lib/mysql/mysql-bin.000002";
     "/var/lib/mysql/mysql-bin.000001"]
    ["/var/lib/mysql/mysql-bin.000001"; "/var/lib/mysql/mysql-bin.000002";
     "/var/lib/mysql/mysql-bin.000001"]
  = Ok ["/var/lib/mysql/mysql-bin.000002"].
Proof.
  refine (eq_trans
            (proj1 (executed_files_that_exist Dir.listdir Dir.re_search
                      Dir.age Dir.disk Dir.dir_args _)) _).
  by vm_compute.
Defined.

(** X19 on the directory that lists its names out of order. *)
Lemma binlog_files_of_directory_ascending_witness :
  ∃ binlog_file_list executed,
    get_binlog_file_list Dir.listdir Dir.re_search Dir.age Dir.disk Dir.dir_args
    = Ok (binlog_file_list, executed)
    ∧ StronglySorted str_le binlog_file_list.
Proof.
  assert (∃ l ex,
    get_binlog_file_list Dir.listdir Dir.re_search Dir.age Dir.disk Dir.dir_args
    = Ok (l, ex)) as (l & ex & H) by (eexists _, _; by vm_compute).
  exists l, ex. split; [exact H|].
  apply (binlog_files_of_directory_ascending Dir.listdir Dir.re_search
           Dir.age Dir.disk Dir.dir_args Dir.names l ex); try done.
  repeat constructor.
Defined.

(** X20 on a relative and an absolute path given with the directory. *)
Lemma binlog_files_absolute_witness :
  ∃ executed,
    get_binlog_file_list Dir.listdir Dir.re_search Dir.age Dir.disk
      Dir.path_args
    = Ok (["/var/lib/mysql/mysql-bin.000007"; "/backup/mysql-bin.000008"],
          executed)
    ∧ Forall (λ p, absolute p = true)
        ["/var/lib/mysql/mysql-bin.000007"; "/backup/mysql-bin.000008"].
Proof.
  exists [].
  assert (get_binlog_file_list Dir.listdir Dir.re_search Dir.age Dir.disk
            Dir.path_args
          = Ok (["/var/lib/mysql/mysql-bin.000007";
                 "/backup/mysql-bin.000008"], [])) as H by (by vm_compute).
  split; [exact H|].
  apply (binlog_files_absolute Dir.listdir Dir.re_search Dir.age Dir.disk
           Dir.path_args _ [] eq_refl H).
Defined.
